(** * MaxScale avrorouter: binlog-to-Avro conversion, a shallow embedding

    The development follows the C sources of the Avro router:
    - [maxavro_write.c]   (datablocks of the Avro container writer),
    - [avro_rbr.c]        (table-map and row events),
    - [avro_file.c]       (the conversion loop over a binlog file),
    - [avro_client.c]     (the CDC client registration),
    - [mysql_binlog.c]    (column type predicates and field sizes),
    - [maxavro_file.c]    (the sync marker that ends a block).

    Unsigned C integers are [Z] with the wrap-around written out, memory
    buffers are [list byte], hashtables are [gmap string _], the fixed
    array of active table maps is a list indexed with stdpp's lookup.  The
    decoding of a row stops where it would read outside the buffer of its
    event or outside an array of the program; the stream of an Avro file
    has the buffer that stdio gives it. *)

From Stdlib Require Import ZArith Lia List Bool Ascii String.
From Stdlib.Strings Require Import Byte.
From stdpp Require Import base option list strings gmap.

Local Open Scope Z_scope.

(** ** Bytes and fixed-width arithmetic *)

Module Bytes.

Definition u8 (b : byte) : Z := Z.of_N (Byte.to_N b).

(** The low eight bits of [z] as a byte. *)
Definition to_byte (z : Z) : byte :=
  match Byte.of_N (Z.to_N (z mod 256)) with
  | Some b => b
  | None => Byte.x00
  end.

Definition wrap32 (z : Z) : Z := z mod 2 ^ 32.
Definition wrap64 (z : Z) : Z := z mod 2 ^ 64.

(** [memcpy(&v, ptr, n)] into a zeroed little-endian integer. *)
Fixpoint le_value (bs : list byte) : Z :=
  match bs with
  | [] => 0
  | b :: bs' => u8 b + 256 * le_value bs'
  end.

(** Reading [n] bytes at offset [off]; bytes past the end of the buffer are
    whatever the C program finds there, the model reads them as zero. *)
Definition peek (buf : list byte) (off : Z) : byte :=
  if off <? 0 then Byte.x00 else nth (Z.to_nat off) buf Byte.x00.

Fixpoint bytes_eqb (a b : list byte) : bool :=
  match a, b with
  | [], [] => true
  | x :: a', y :: b' => Byte.eqb x y && bytes_eqb a' b'
  | _, _ => false
  end.

Fixpoint peek_n (buf : list byte) (off : Z) (n : nat) : list byte :=
  match n with
  | O => []
  | S k => peek buf off :: peek_n buf (off + 1) k
  end.

End Bytes.

(** ** The Avro container writer: in-memory datablocks (maxavro_write.c) *)

Module MaxAvro.
Import Bytes.

Definition SYNC_MARKER_SIZE : nat := 16.

(** A stdio stream open for writing on a regular file.  The sources never
    call [setvbuf], so the stream is fully buffered.  [f_data] is the file
    as the device holds it, [f_pos] the offset of the descriptor and
    [f_space] the number of bytes the device still accepts: a [write] of
    more bytes is cut short there.  [f_buffered] are the bytes that were
    written to the stream and are still in its buffer of [f_bufsize]
    bytes; a size of zero is a stream without a buffer. *)
Record FILE := mkFILE {
  f_data : list byte;
  f_pos : nat;
  f_space : nat;
  f_buffered : list byte;
  f_bufsize : nat
}.

(** Storing [bs] at offset [pos]: a gap after the end of the file reads as
    zeros, bytes already there are replaced; a write of no bytes changes
    nothing. *)
Definition store_at (data : list byte) (pos : nat) (bs : list byte) : list byte :=
  match bs with
  | [] => data
  | _ => take pos data ++ replicate (pos - length data) Byte.x00 ++ bs
           ++ drop (pos + length bs) data
  end.

Definition with_buffered (f : FILE) (bs : list byte) : FILE :=
  mkFILE (f_data f) (f_pos f) (f_space f) bs (f_bufsize f).

(** [write(fd, bs, n)] on the descriptor of the stream: the number of bytes
    that the device took. *)
Definition device_write (bs : list byte) (f : FILE) : nat * FILE :=
  let n := Nat.min (length bs) (f_space f) in
  (n, mkFILE (store_at (f_data f) (f_pos f) (take n bs))
             (f_pos f + n) (f_space f - n) (f_buffered f) (f_bufsize f)).

(** [fflush]: the buffer goes to the device.  The GNU C library empties the
    buffer whether or not the device took all of it; the result is whether
    it did. *)
Definition fflush (f : FILE) : bool * FILE :=
  let pending := f_buffered f in
  let '(n, f1) := device_write pending f in
  (Nat.eqb n (length pending), with_buffered f1 []).

(** [fwrite(bs, 1, n, file)], in the way of the GNU C library for a stream
    whose buffer exists: bytes that fit into the buffer are kept there and
    the device is not touched.  Otherwise the buffer is filled and written
    out, whole blocks of what is left go to the device directly and the
    rest is buffered.  The result is the number of bytes that the stream
    counts as written: all of them, or those handed on before the device
    came up short. *)
Definition fwrite (bs : list byte) (f : FILE) : nat * FILE :=
  let room := (f_bufsize f - length (f_buffered f))%nat in
  if (length bs <=? room)%nat then
    (length bs, with_buffered f (f_buffered f ++ bs))
  else
    let '(ok, f1) := fflush (with_buffered f (f_buffered f ++ take room bs)) in
    if negb ok then (room, f1)
    else
      let rest := drop room bs in
      let direct :=
        if (128 <=? f_bufsize f)%nat
        then (length rest - length rest mod f_bufsize f)%nat
        else length rest in
      let '(n, f2) := device_write (take direct rest) f1 in
      if (n <? direct)%nat then ((room + n)%nat, f2)
      else (length bs, with_buffered f2 (drop direct rest)).

(** [ftell]: the position of the stream counts the bytes in its buffer. *)
Definition ftell (f : FILE) : nat := (f_pos f + length (f_buffered f))%nat.

(** What [ftruncate] leaves of the contents [d] at length [p]: a file that
    was shorter is extended with zeros. *)
Definition cut_to (p : nat) (d : list byte) : list byte :=
  take p d ++ replicate (p - length d) Byte.x00.

(** [ftruncate(fileno(file), len)] works on the descriptor: the buffer of
    the stream and the offset stay as they are; the bytes cut off are room
    that the device has again. *)
Definition ftruncate (f : FILE) (len : nat) : FILE :=
  mkFILE (cut_to len (f_data f)) (f_pos f)
         (f_space f + (length (f_data f) - len)) (f_buffered f) (f_bufsize f).

(** [fseek(file, 0, SEEK_END)] writes the buffer out first, and does not
    move when that fails. *)
Definition fseek_end (f : FILE) : FILE :=
  let '(ok, f1) := fflush f in
  if ok then
    mkFILE (f_data f1) (length (f_data f1)) (f_space f1) (f_buffered f1)
           (f_bufsize f1)
  else f1.

(** [MAXAVRO_FILE]: the stream and the sync marker of the file, an array
    of [SYNC_MARKER_SIZE] bytes. *)
Record MAXAVRO_FILE := mkAVROFILE {
  file : FILE;
  sync : list byte
}.

(** The memory that [block->buffer] points to, which the C structure does
    not record: an allocation all of whose accesses were inside it and to
    bytes that hold a value; an allocation that [realloc(buffer, 0)] has
    freed; or memory that was overrun, read where it holds no value, or
    used after it was freed, from where on C promises nothing. *)
Inductive heap_state :=
  | HeapValid
  | HeapFreed
  | HeapBroken.

(** [MAXAVRO_DATABLOCK].  [buffer] holds the bytes stored in the
    allocation, from its start; bytes that an encoder writes past the end
    of the allocation are not part of it.  [heap] is not a field of the C
    structure. *)
Record MAXAVRO_DATABLOCK := mkBLOCK {
  avrofile : MAXAVRO_FILE;
  buffer : list byte;
  buffersize : Z;
  datasize : Z;
  records : Z;
  heap : heap_state
}.

(** Modelled from the spec: [maxavro_encode_integer] is declared in
    maxavro_write.c but defined elsewhere.  "Integer: Avro zig-zag
    variable-length ((n<<1) ^ (n>>63) then emit 7-bit groups with high
    bit = more)", on a 64-bit unsigned value. *)
Definition encode_long (val : Z) : Z :=
  Z.lxor (wrap64 (Z.shiftl val 1)) (Z.shiftr val 63).

Fixpoint emit_groups (fuel : nat) (v : Z) : list byte :=
  match fuel with
  | O => []
  | S k =>
      if v <=? 127 then [to_byte v]
      else to_byte (Z.lor 128 (Z.land v 127)) :: emit_groups k (Z.shiftr v 7)
  end.

Definition maxavro_encode_integer (val : Z) : list byte :=
  emit_groups 10 (encode_long val).

(** Modelled from the spec: [maxavro_encode_string], "String:
    lenenc(len) | bytes".  A C string is the bytes before its terminator. *)
Definition maxavro_encode_string (str : list byte) : list byte :=
  maxavro_encode_integer (Z.of_nat (length str)) ++ str.

(** Modelled from the spec: [maxavro_encode_float] and
    [maxavro_encode_double], "raw little-endian IEEE 754".  A value is given
    by its bit pattern. *)
Fixpoint le_bytes (n : nat) (v : Z) : list byte :=
  match n with
  | O => []
  | S k => to_byte v :: le_bytes k (Z.shiftr v 8)
  end.

Definition maxavro_encode_float (bits : Z) : list byte := le_bytes 4 bits.
Definition maxavro_encode_double (bits : Z) : list byte := le_bytes 8 bits.

(** Modelled from the spec: [maxavro_write_integer] hands the encoded
    integer to the stream with [fwrite] and reports whether the stream
    took all of it. *)
Definition maxavro_write_integer (f : FILE) (val : Z) : bool * FILE :=
  let enc := maxavro_encode_integer val in
  let '(n, f') := fwrite enc f in
  (Nat.eqb n (length enc), f').

Definition set_file (b : MAXAVRO_DATABLOCK) (f : FILE) : MAXAVRO_DATABLOCK :=
  mkBLOCK (mkAVROFILE f (sync (avrofile b))) (buffer b) (buffersize b)
          (datasize b) (records b) (heap b).

Definition set_heap (b : MAXAVRO_DATABLOCK) (h : heap_state) : MAXAVRO_DATABLOCK :=
  mkBLOCK (avrofile b) (buffer b) (buffersize b) (datasize b) (records b) h.

(** The [n] bytes at [block->buffer], as [fwrite] reads them, and the
    memory after the read.  Bytes past those that were stored hold no
    value; the model reads them as zero and the memory is broken. *)
Definition buffer_read (block : MAXAVRO_DATABLOCK) (n : nat)
  : list byte * heap_state :=
  (take n (buffer block) ++ replicate (n - length (buffer block)) Byte.x00,
   if (n =? 0)%nat then heap block
   else match heap block with
        | HeapValid =>
            if (n <=? length (buffer block))%nat then HeapValid else HeapBroken
        | _ => HeapBroken
        end).

(** [maxavro_datablock_finalize]: the four writes are chained with [||], a
    later one runs only when the earlier ones succeeded. *)
Definition maxavro_datablock_finalize (block : MAXAVRO_DATABLOCK)
  : bool * MAXAVRO_DATABLOCK :=
  let f0 := file (avrofile block) in
  let pos := ftell f0 in
  let '(ok1, f1) := maxavro_write_integer f0 (records block) in
  let '(ok2, f2) :=
    if ok1 then maxavro_write_integer f1 (datasize block) else (false, f1) in
  let '(ok3, f3, heap3) :=
    if ok2 then
      let '(payload, heap') := buffer_read block (Z.to_nat (datasize block)) in
      let '(n, f) := fwrite payload f2 in
      (Z.of_nat n =? datasize block, f, heap')
    else (false, f2, heap block) in
  let '(ok4, f4) :=
    if ok3 then
      let '(n, f) := fwrite (take SYNC_MARKER_SIZE (sync (avrofile block))) f3 in
      (Nat.eqb n SYNC_MARKER_SIZE, f)
    else (false, f3) in
  if ok4 then
    (true, mkBLOCK (mkAVROFILE f4 (sync (avrofile block))) (buffer block)
                   0 (datasize block) 0 heap3)
  else
    (false, set_heap (set_file block (fseek_end (ftruncate f4 pos))) heap3).

(** [reallocate_datablock]; [alloc_ok] is whether [realloc] finds memory
    for a size that is not zero.  The new allocation starts with the bytes
    of the old one.  For a size of zero the result is that of the GNU C
    library: the buffer is freed and NULL is returned, so the function
    fails and leaves [block->buffer] pointing to the freed memory. *)
Definition reallocate_datablock (alloc_ok : bool) (block : MAXAVRO_DATABLOCK)
  : bool * MAXAVRO_DATABLOCK :=
  let size := wrap64 (buffersize block * 2) in
  if size =? 0 then
    (false, set_heap block match heap block with
                           | HeapValid => HeapFreed
                           | _ => HeapBroken
                           end)
  else if alloc_ok then
    (true, mkBLOCK (avrofile block)
                   (take (Z.to_nat (Z.min (buffersize block) size)) (buffer block))
                   size (datasize block) (records block)
                   match heap block with
                   | HeapValid => HeapValid
                   | _ => HeapBroken
                   end)
  else (false, block).

(** What an encoder leaves when it stores [enc] at [buffer + datasize].
    The encoder is not told the capacity: bytes that do not fit go past
    the end of the allocation, which is a heap overflow; they are not part
    of [buffer], and the memory is broken. *)
Definition store_encoded (b : MAXAVRO_DATABLOCK) (enc : list byte)
  : MAXAVRO_DATABLOCK :=
  let at_ := Z.to_nat (datasize b) in
  let stored :=
    take at_ (buffer b) ++ replicate (at_ - length (buffer b)) Byte.x00 ++ enc in
  mkBLOCK (avrofile b)
          (take (Z.to_nat (buffersize b)) stored)
          (buffersize b)
          (wrap64 (datasize b + Z.of_nat (length enc)))
          (records b)
          match heap b with
          | HeapValid =>
              if (datasize b + Z.of_nat (length enc) <=? buffersize b)
                 && (at_ <=? length (buffer b))%nat
              then HeapValid else HeapBroken
          | _ => HeapBroken
          end.

(** The common body of the four append functions: [required] is the left
    side of the capacity test, [enc] what the encoder stores. *)
Definition datablock_add (alloc_ok : bool) (block : MAXAVRO_DATABLOCK)
    (required : Z) (enc : list byte) : bool * MAXAVRO_DATABLOCK :=
  let '(ok, b1) :=
    if buffersize block <=? wrap64 required
    then reallocate_datablock alloc_ok block
    else (true, block) in
  if ok then (true, store_encoded b1 enc) else (false, b1).

Definition maxavro_datablock_add_integer alloc_ok block (val : Z) :=
  datablock_add alloc_ok block (datasize block + 9) (maxavro_encode_integer val).

Definition maxavro_datablock_add_string alloc_ok block (str : list byte) :=
  datablock_add alloc_ok block (datasize block + 9 + Z.of_nat (length str))
                (maxavro_encode_string str).

Definition maxavro_datablock_add_float alloc_ok block (bits : Z) :=
  datablock_add alloc_ok block (datasize block + 4) (maxavro_encode_float bits).

Definition maxavro_datablock_add_double alloc_ok block (bits : Z) :=
  datablock_add alloc_ok block (datasize block + 8) (maxavro_encode_double bits).

(** The bytes of a block as a finalization writes them: the number of
    records, the size of the data, the data and the sync marker. *)
Definition block_bytes (block : MAXAVRO_DATABLOCK) : list byte :=
  maxavro_encode_integer (records block)
    ++ maxavro_encode_integer (datasize block)
    ++ (buffer_read block (Z.to_nat (datasize block))).1
    ++ take SYNC_MARKER_SIZE (sync (avrofile block)).

(** The file as the program has written it: what the device holds with the
    bytes of the buffer in their place. *)
Definition stream_view (f : FILE) : list byte :=
  store_at (f_data f) (f_pos f) (f_buffered f).

End MaxAvro.

(** ** Binlog constants (blr_defines.h, mysql_binlog.h, avrorouter.h) *)

Module Binlog.

Definition BINLOG_EVENT_HDR_LEN : Z := 19.
Definition BINLOG_FNAMELEN : Z := 255.

Definition QUERY_EVENT : Z := 0x02.
Definition STOP_EVENT : Z := 0x03.
Definition ROTATE_EVENT : Z := 0x04.
Definition FORMAT_DESCRIPTION_EVENT : Z := 0x0F.
Definition XID_EVENT : Z := 0x10.
Definition TABLE_MAP_EVENT : Z := 0x13.
Definition WRITE_ROWS_EVENTv0 : Z := 0x14.
Definition UPDATE_ROWS_EVENTv0 : Z := 0x15.
Definition DELETE_ROWS_EVENTv0 : Z := 0x16.
Definition WRITE_ROWS_EVENTv1 : Z := 0x17.
Definition UPDATE_ROWS_EVENTv1 : Z := 0x18.
Definition DELETE_ROWS_EVENTv1 : Z := 0x19.
Definition WRITE_ROWS_EVENTv2 : Z := 0x1E.
Definition UPDATE_ROWS_EVENTv2 : Z := 0x1F.
Definition DELETE_ROWS_EVENTv2 : Z := 0x20.
Definition MARIADB10_GTID_EVENT : Z := 0xa2.
Definition MAX_EVENT_TYPE_MARIADB10 : Z := 0xa3.
Definition MAX_EVENT_TYPE_END : Z := MAX_EVENT_TYPE_MARIADB10.

(** The length of the text of a GTID.  The header that defines
    [GTID_MAX_LEN] is not among the sources; this is its value in the
    binlog router. *)
Definition GTID_MAX_LEN : Z := 64.

Definition TABLE_COL_TYPE_DECIMAL : Z := 0x00.
Definition TABLE_COL_TYPE_TINY : Z := 0x01.
Definition TABLE_COL_TYPE_SHORT : Z := 0x02.
Definition TABLE_COL_TYPE_LONG : Z := 0x03.
Definition TABLE_COL_TYPE_FLOAT : Z := 0x04.
Definition TABLE_COL_TYPE_DOUBLE : Z := 0x05.
Definition TABLE_COL_TYPE_TIMESTAMP : Z := 0x07.
Definition TABLE_COL_TYPE_LONGLONG : Z := 0x08.
Definition TABLE_COL_TYPE_INT24 : Z := 0x09.
Definition TABLE_COL_TYPE_DATE : Z := 0x0a.
Definition TABLE_COL_TYPE_TIME : Z := 0x0b.
Definition TABLE_COL_TYPE_DATETIME : Z := 0x0c.
Definition TABLE_COL_TYPE_YEAR : Z := 0x0d.
Definition TABLE_COL_TYPE_VARCHAR : Z := 0x0f.
Definition TABLE_COL_TYPE_BIT : Z := 0x10.
Definition TABLE_COL_TYPE_TIMESTAMP2 : Z := 0x11.
Definition TABLE_COL_TYPE_DATETIME2 : Z := 0x12.
Definition TABLE_COL_TYPE_NEWDECIMAL : Z := 0xf6.
Definition TABLE_COL_TYPE_ENUM : Z := 0xf7.
Definition TABLE_COL_TYPE_SET : Z := 0xf8.
Definition TABLE_COL_TYPE_TINY_BLOB : Z := 0xf9.
Definition TABLE_COL_TYPE_MEDIUM_BLOB : Z := 0xfa.
Definition TABLE_COL_TYPE_LONG_BLOB : Z := 0xfb.
Definition TABLE_COL_TYPE_BLOB : Z := 0xfc.
Definition TABLE_COL_TYPE_VAR_STRING : Z := 0xfd.
Definition TABLE_COL_TYPE_STRING : Z := 0xfe.
Definition TABLE_COL_TYPE_GEOMETRY : Z := 0xff.

Definition ROW_EVENT_END_STATEMENT : Z := 0x0001.
Definition TABLE_DUMMY_ID : Z := 0x00ffffff.

Definition MAX_MAPPED_TABLES : Z := 1024.

Definition AVRO_CS_BUSY : Z := 0x0001.
Definition AVRO_WAIT_DATA : Z := 0x0002.

(** [avro_binlog_end_t] *)
Inductive avro_binlog_end_t :=
  | AVRO_OK
  | AVRO_LAST_FILE
  | AVRO_OPEN_TRANSACTION
  | AVRO_BINLOG_ERROR.

End Binlog.

(** ** Column types and field sizes (mysql_binlog.c) *)

Module MysqlBinlog.
Import Bytes Binlog.

Definition one_of (type : Z) (l : list Z) : bool :=
  existsb (Z.eqb type) l.

Definition column_is_blob (type : Z) : bool :=
  one_of type [TABLE_COL_TYPE_TINY_BLOB; TABLE_COL_TYPE_MEDIUM_BLOB;
               TABLE_COL_TYPE_LONG_BLOB; TABLE_COL_TYPE_BLOB].

Definition column_is_variable_string (type : Z) : bool :=
  one_of type [TABLE_COL_TYPE_DECIMAL; TABLE_COL_TYPE_VARCHAR; TABLE_COL_TYPE_BIT;
               TABLE_COL_TYPE_NEWDECIMAL; TABLE_COL_TYPE_VAR_STRING;
               TABLE_COL_TYPE_GEOMETRY].

Definition column_is_bit (type : Z) : bool := type =? TABLE_COL_TYPE_BIT.

Definition column_is_temporal (type : Z) : bool :=
  one_of type [TABLE_COL_TYPE_YEAR; TABLE_COL_TYPE_DATE; TABLE_COL_TYPE_TIME;
               TABLE_COL_TYPE_DATETIME; TABLE_COL_TYPE_DATETIME2;
               TABLE_COL_TYPE_TIMESTAMP; TABLE_COL_TYPE_TIMESTAMP2].

Definition column_is_fixed_string (type : Z) : bool := type =? TABLE_COL_TYPE_STRING.

Definition fixed_string_is_enum (type : Z) : bool :=
  (type =? TABLE_COL_TYPE_ENUM) || (type =? TABLE_COL_TYPE_SET).

(** [struct tm] as the unpack functions leave it.  [TmLocal t] is what
    [localtime_r] makes of the epoch seconds [t] (it depends on the time
    zone), [TmUntouched] the uninitialised structure that the DATETIME case
    of [unpack_temporal_value] does not write. *)
Inductive struct_tm :=
  | TmFields (sec min hour mday mon year : Z)
  | TmLocal (t : Z)
  | TmUntouched.

Definition unpack_year (ptr : list byte) : struct_tm :=
  TmFields 0 0 0 0 0 (u8 (peek ptr 0)).

Definition unpack5 (data : list byte) : Z :=
  u8 (peek data 4) + Z.shiftl (u8 (peek data 3)) 8 + Z.shiftl (u8 (peek data 2)) 16
  + Z.shiftl (u8 (peek data 1)) 24 + Z.shiftl (u8 (peek data 0)) 32.

Definition DATETIME2_OFFSET : Z := 0x8000000000.

Definition unpack_datetime2 (ptr : list byte) : struct_tm :=
  let unpacked := unpack5 ptr - DATETIME2_OFFSET in
  let unpacked := if unpacked <? 0 then - unpacked else unpacked in
  let date := Z.shiftr unpacked 17 in
  let yearmonth := Z.shiftr date 5 in
  let time := unpacked mod (Z.shiftl 1 17) in
  TmFields (time mod Z.shiftl 1 6) (Z.shiftr time 6 mod Z.shiftl 1 6)
           (Z.shiftr time 12) (date mod Z.shiftl 1 5)
           (yearmonth mod 13) (yearmonth / 13).

Definition unpack4 (data : list byte) : Z :=
  u8 (peek data 3) + Z.shiftl (u8 (peek data 2)) 8 + Z.shiftl (u8 (peek data 1)) 16
  + Z.shiftl (u8 (peek data 0)) 24.

(** [time_t t = unpack4(ptr)]: the macro computes in [int], a first byte of
    0x80 or more makes the value negative. *)
Definition unpack_timestamp (ptr : list byte) : struct_tm :=
  let v := unpack4 ptr in
  TmLocal (if 2 ^ 31 <=? v then v - 2 ^ 32 else v).

Definition unpack3 (data : list byte) : Z :=
  u8 (peek data 2) + Z.shiftl (u8 (peek data 1)) 8 + Z.shiftl (u8 (peek data 0)) 16.

Definition unpack_time (ptr : list byte) : struct_tm :=
  let val := unpack3 ptr in
  let second := val - (val / 100) * 100 in
  let val := val / 100 in
  let minute := val - (val / 100) * 100 in
  let val := val / 100 in
  TmFields second minute val 0 0 0.

Definition unpack_date (ptr : list byte) : struct_tm :=
  let val := u8 (peek ptr 0) + Z.shiftl (u8 (peek ptr 1)) 8
             + Z.shiftl (u8 (peek ptr 2)) 16 in
  TmFields 0 0 0 (Z.land val 31) (Z.land (Z.shiftr val 5) 15)
           (Z.shiftr val 9 - 1900).

Definition unpack_enum (ptr metadata : list byte) : list byte * Z :=
  let n := u8 (peek metadata 1) in
  (peek_n ptr 0 (Z.to_nat n), n).

Definition temporal_field_size (type decimals : Z) : Z :=
  if one_of type [TABLE_COL_TYPE_YEAR] then 1
  else if one_of type [TABLE_COL_TYPE_TIME; TABLE_COL_TYPE_DATE] then 3
  else if one_of type [TABLE_COL_TYPE_DATETIME; TABLE_COL_TYPE_TIMESTAMP] then 4
  else if type =? TABLE_COL_TYPE_TIMESTAMP2 then 4 + (decimals + 1) / 2
  else if type =? TABLE_COL_TYPE_DATETIME2 then 5 + (decimals + 1) / 2
  else 0.

Definition unpack_temporal_value (type : Z) (ptr metadata : list byte)
  : struct_tm * Z :=
  let tm :=
    if type =? TABLE_COL_TYPE_YEAR then unpack_year ptr
    else if type =? TABLE_COL_TYPE_DATETIME then TmUntouched
    else if type =? TABLE_COL_TYPE_DATETIME2 then unpack_datetime2 ptr
    else if type =? TABLE_COL_TYPE_TIME then unpack_time ptr
    else if type =? TABLE_COL_TYPE_DATE then unpack_date ptr
    else if one_of type [TABLE_COL_TYPE_TIMESTAMP; TABLE_COL_TYPE_TIMESTAMP2]
         then unpack_timestamp ptr
    else TmUntouched in
  (tm, temporal_field_size type (u8 (peek metadata 0))).

(** [unpack_numeric_field]: the bytes copied into the zeroed [lval] and
    their number. *)
Definition unpack_numeric_field (src : list byte) (type : Z) : list byte * Z :=
  let size :=
    if one_of type [TABLE_COL_TYPE_LONG; TABLE_COL_TYPE_FLOAT] then 4
    else if type =? TABLE_COL_TYPE_INT24 then 3
    else if one_of type [TABLE_COL_TYPE_LONGLONG; TABLE_COL_TYPE_DOUBLE] then 8
    else if type =? TABLE_COL_TYPE_SHORT then 2
    else if type =? TABLE_COL_TYPE_TINY then 1
    else 0 in
  (peek_n src 0 (Z.to_nat size), size).

(** Modelled from the spec: [leint_consume] of mysql_utils.c, "MySQL
    length-encoded integer: first byte <0xfb is the value, 0xfc -> 2 bytes,
    0xfd -> 3 bytes, 0xfe -> 8 bytes".  The result is the value and the
    number of bytes consumed; the spec gives no value for the first bytes
    0xfb and 0xff, read here as a one-byte zero. *)
Definition leint_consume (ptr : list byte) : Z * Z :=
  let c := u8 (peek ptr 0) in
  if c <? 0xfb then (c, 1)
  else if c =? 0xfc then (le_value (peek_n ptr 1 2), 3)
  else if c =? 0xfd then (le_value (peek_n ptr 1 3), 4)
  else if c =? 0xfe then (le_value (peek_n ptr 1 8), 9)
  else (0, 1).

(** Modelled from the spec: [lestr_consume], a length-encoded string: the
    offset of its first byte, its size and the bytes consumed. *)
Definition lestr_consume (ptr : list byte) : Z * Z * Z :=
  let '(sz, n) := leint_consume ptr in
  (n, sz, n + sz).

End MysqlBinlog.

(** ** The router instance (avrorouter.h) *)

Module Router.
Import Bytes Binlog.

Record TABLE_CREATE := mkCREATE {
  tc_columns : Z;
  column_names : list string;
  tc_table : string;
  tc_database : string;
  tc_version : Z
}.

(** [TABLE_MAP].  [table_create] is a pointer to the create of the table
    (or NULL); the model holds the create as it was when the map was
    allocated. *)
Record TABLE_MAP := mkMAP {
  tm_id : Z;
  tm_columns : Z;
  column_types : list byte;
  column_metadata : list byte;
  table_create : option TABLE_CREATE;
  tm_version : Z;
  tm_table : string;
  tm_database : string
}.

(** A field of the generic Avro record.  [AvFloat i] is the integer handed
    to [avro_value_set_float] before its conversion; [AvTemporal type tm]
    is the string [format_temporal_value] prints for [tm] with the format
    of [type]; [AvUnterminated copied] is what [avro_value_set_string]
    makes of an array that holds [copied] and no terminator: a string that
    begins with these bytes and goes on with whatever follows them in
    memory. *)
Inductive avro_field :=
  | AvNull
  | AvInt (i : Z)
  | AvFloat (i : Z)
  | AvString (s : list byte)
  | AvUnterminated (copied : list byte)
  | AvBytes (b : list byte)
  | AvTemporal (type : Z) (tm : MysqlBinlog.struct_tm).

(** The one [avro_value_t record] of a row event: it is allocated once and
    overwritten field by field for every row image.  [columns] has the
    fields that a setter has touched, by column name. *)
Record avro_value := mkVALUE {
  GTID : string;
  timestamp : Z;
  event_type : Z;
  columns : gmap string avro_field
}.

(** [AVRO_TABLE]: [avro_file] is the values appended so far, in order. *)
Record AVRO_TABLE := mkTABLE {
  filename : string;
  json_schema : string;
  avro_file : list avro_value
}.

Record gtid_pos_t := mkGTID {
  domain : Z;
  server_id : Z;
  gtid_seq : Z;
  event_num : Z
}.

(** The formats that [avro_client_do_registration] stores in
    [client->format]. *)
Inductive avro_data_format :=
  | AVRO_FORMAT_UNDEFINED
  | AVRO_FORMAT_JSON
  | AVRO_FORMAT_AVRO.

(** [AVRO_CLIENT]; [dcb] names the descriptor of the client connection. *)
Record AVRO_CLIENT := mkCLIENT {
  dcb : Z;
  state : Z;
  uuid : option (list byte);
  format : avro_data_format;
  cstate : Z
}.

(** Calls that leave the router: what the conversion does to the outside,
    in the order it does it. *)
Inductive effect :=
  | PollFakeWriteEvent (dcb : Z)
  | AvroFileWriterFlush (table : string)
  | SaveConversionState (file : string) (position : Z) (gtid : gtid_pos_t)
  | SaveAvroSchema (ident : string) (version : Z).

(** [AVRO_INSTANCE], the fields that the conversion reads or writes.  The
    slots of [active_maps] point into [table_maps]; a map does not change
    once it is allocated, the model keeps a copy in the slot.  [effects] is
    not a field of the C structure: it collects the calls made so far. *)
Record AVRO_INSTANCE := mkROUTER {
  avrodir : string;
  binlog_name : string;
  binlog_position : Z;
  current_pos : Z;
  binlog_fd : Z;
  event_types : Z;
  event_type_hdr_lens : list byte;
  current_gtid : string;
  gtid : gtid_pos_t;
  active_maps : list (option TABLE_MAP);
  table_maps : gmap string TABLE_MAP;
  open_tables : gmap string AVRO_TABLE;
  created_tables : gmap string TABLE_CREATE;
  trx_count : Z;
  trx_target : Z;
  row_count : Z;
  row_target : Z;
  clients : list AVRO_CLIENT;
  effects : list effect
}.

Definition with_positions (r : AVRO_INSTANCE) (safe cur : Z) : AVRO_INSTANCE :=
  mkROUTER (avrodir r) (binlog_name r) safe cur (binlog_fd r) (event_types r)
    (event_type_hdr_lens r) (current_gtid r) (gtid r) (active_maps r)
    (table_maps r) (open_tables r) (created_tables r) (trx_count r)
    (trx_target r) (row_count r) (row_target r) (clients r) (effects r).

Definition with_binlog_name (r : AVRO_INSTANCE) (name : string) : AVRO_INSTANCE :=
  mkROUTER (avrodir r) name (binlog_position r) (current_pos r) (binlog_fd r)
    (event_types r) (event_type_hdr_lens r) (current_gtid r) (gtid r)
    (active_maps r) (table_maps r) (open_tables r) (created_tables r)
    (trx_count r) (trx_target r) (row_count r) (row_target r) (clients r)
    (effects r).

Definition with_hdr_lens (r : AVRO_INSTANCE) (n : Z) (lens : list byte)
  : AVRO_INSTANCE :=
  mkROUTER (avrodir r) (binlog_name r) (binlog_position r) (current_pos r)
    (binlog_fd r) n lens (current_gtid r) (gtid r) (active_maps r)
    (table_maps r) (open_tables r) (created_tables r) (trx_count r)
    (trx_target r) (row_count r) (row_target r) (clients r) (effects r).

Definition with_current_gtid (r : AVRO_INSTANCE) (g : string) : AVRO_INSTANCE :=
  mkROUTER (avrodir r) (binlog_name r) (binlog_position r) (current_pos r)
    (binlog_fd r) (event_types r) (event_type_hdr_lens r) g (gtid r)
    (active_maps r) (table_maps r) (open_tables r) (created_tables r)
    (trx_count r) (trx_target r) (row_count r) (row_target r) (clients r)
    (effects r).

Definition with_gtid (r : AVRO_INSTANCE) (g : gtid_pos_t) : AVRO_INSTANCE :=
  mkROUTER (avrodir r) (binlog_name r) (binlog_position r) (current_pos r)
    (binlog_fd r) (event_types r) (event_type_hdr_lens r) (current_gtid r) g
    (active_maps r) (table_maps r) (open_tables r) (created_tables r)
    (trx_count r) (trx_target r) (row_count r) (row_target r) (clients r)
    (effects r).

Definition with_maps (r : AVRO_INSTANCE) (am : list (option TABLE_MAP))
    (tm : gmap string TABLE_MAP) (ot : gmap string AVRO_TABLE) : AVRO_INSTANCE :=
  mkROUTER (avrodir r) (binlog_name r) (binlog_position r) (current_pos r)
    (binlog_fd r) (event_types r) (event_type_hdr_lens r) (current_gtid r)
    (gtid r) am tm ot (created_tables r) (trx_count r) (trx_target r)
    (row_count r) (row_target r) (clients r) (effects r).

Definition with_created (r : AVRO_INSTANCE) (tm : gmap string TABLE_MAP)
    (ct : gmap string TABLE_CREATE) : AVRO_INSTANCE :=
  mkROUTER (avrodir r) (binlog_name r) (binlog_position r) (current_pos r)
    (binlog_fd r) (event_types r) (event_type_hdr_lens r) (current_gtid r)
    (gtid r) (active_maps r) tm (open_tables r) ct (trx_count r) (trx_target r)
    (row_count r) (row_target r) (clients r) (effects r).

Definition with_counts (r : AVRO_INSTANCE) (trx rows : Z) : AVRO_INSTANCE :=
  mkROUTER (avrodir r) (binlog_name r) (binlog_position r) (current_pos r)
    (binlog_fd r) (event_types r) (event_type_hdr_lens r) (current_gtid r)
    (gtid r) (active_maps r) (table_maps r) (open_tables r) (created_tables r)
    trx (trx_target r) rows (row_target r) (clients r) (effects r).

Definition with_clients (r : AVRO_INSTANCE) (cs : list AVRO_CLIENT)
  : AVRO_INSTANCE :=
  mkROUTER (avrodir r) (binlog_name r) (binlog_position r) (current_pos r)
    (binlog_fd r) (event_types r) (event_type_hdr_lens r) (current_gtid r)
    (gtid r) (active_maps r) (table_maps r) (open_tables r) (created_tables r)
    (trx_count r) (trx_target r) (row_count r) (row_target r) cs (effects r).

(** The calls [es] happen after everything recorded so far. *)
Definition emit (r : AVRO_INSTANCE) (es : list effect) : AVRO_INSTANCE :=
  mkROUTER (avrodir r) (binlog_name r) (binlog_position r) (current_pos r)
    (binlog_fd r) (event_types r) (event_type_hdr_lens r) (current_gtid r)
    (gtid r) (active_maps r) (table_maps r) (open_tables r) (created_tables r)
    (trx_count r) (trx_target r) (row_count r) (row_target r) (clients r)
    (effects r ++ es).

(** Results of code that indexes arrays and walks over the buffer of an
    event: the C expression can leave an array of the program
    ([OutOfBounds], with the subscript or the number of bytes), a read or
    the end of a value can lie outside the buffer of the event
    ([OutOfBuffer], with the offset in the buffer), and the handlers of row
    events can fail to terminate. *)
Inductive outcome (A : Type) :=
  | Ret (a : A)
  | OutOfBounds (index : Z)
  | OutOfBuffer (offset : Z)
  | Diverges.
Arguments Ret {A} a.
Arguments OutOfBounds {A} index.
Arguments OutOfBuffer {A} offset.
Arguments Diverges {A}.

(** What the conversion needs from files that are not part of the model:
    the Avro C library, the DDL parser and the regular expressions. *)
Record Externals := mkEXT {
  sizeof_pointer : Z;
  json_new_schema_from_table : TABLE_MAP -> option string;
  avro_table_alloc : string -> string -> option AVRO_TABLE;
  is_create_table_re : list byte -> bool;
  is_alter_table_re : list byte -> bool;
  remove_mysql_comments : list byte -> list byte;
  table_create_alloc : list byte -> list byte -> option TABLE_CREATE;
  table_create_save : TABLE_CREATE -> bool;
  table_create_alter : TABLE_CREATE -> list byte -> TABLE_CREATE;
  read_alter_identifier : list byte -> string;
  next_binlog_file : string -> option string
}.

End Router.

(** ** Table-map and row events (avro_rbr.c) *)

Module Rbr.
Import Bytes Binlog MysqlBinlog Router.

Definition WRITE_EVENT : Z := 0.
Definition UPDATE_EVENT : Z := 1.
Definition UPDATE_EVENT_AFTER : Z := 2.
Definition DELETE_EVENT : Z := 3.

(** Modelled from the spec: [REP_HEADER] is declared in blr.h, the fields
    are those that the conversion loop fills, "timestamp:u32 | type:u8 |
    server_id:u32 | event_size:u32 | next_pos:u32 | flags:u16". *)
Record REP_HEADER := mkHDR {
  hdr_timestamp : Z;
  hdr_event_type : Z;
  hdr_serverid : Z;
  hdr_event_size : Z;
  hdr_next_pos : Z;
  hdr_flags : Z
}.

(** Sequencing: the first step that leaves an array or the buffer, or
    does not return, decides the outcome. *)
#[global] Instance outcome_bind : MBind outcome := fun A B f x =>
  match x with
  | Ret a => f a
  | OutOfBounds i => OutOfBounds i
  | OutOfBuffer o => OutOfBuffer o
  | Diverges => Diverges
  end.

#[global] Instance outcome_fmap : FMap outcome := fun A B f x =>
  match x with
  | Ret a => Ret (f a)
  | OutOfBounds i => OutOfBounds i
  | OutOfBuffer o => OutOfBuffer o
  | Diverges => Diverges
  end.

Definition get_event_type (event : Z) : Z :=
  if one_of event [WRITE_ROWS_EVENTv0; WRITE_ROWS_EVENTv1; WRITE_ROWS_EVENTv2]
  then WRITE_EVENT
  else if one_of event [UPDATE_ROWS_EVENTv0; UPDATE_ROWS_EVENTv1; UPDATE_ROWS_EVENTv2]
  then UPDATE_EVENT
  else if one_of event [DELETE_ROWS_EVENTv0; DELETE_ROWS_EVENTv1; DELETE_ROWS_EVENTv2]
  then DELETE_EVENT
  else -1.

(** [sizeof(router->active_maps)] for [TABLE_MAP *active_maps[MAX_MAPPED_TABLES]]:
    the size of the array in bytes. *)
Definition sizeof_active_maps (ext : Externals) : Z :=
  MAX_MAPPED_TABLES * sizeof_pointer ext.

(** The subscript [id % sizeof(router->active_maps)] of both handlers. *)
Definition active_maps_index (ext : Externals) (id : Z) : Z :=
  id mod sizeof_active_maps ext.

(** [router->active_maps[i]], read and written.  The array has
    [MAX_MAPPED_TABLES] slots; an access with a larger subscript is outside
    of it, which C leaves undefined: the model stops with [OutOfBounds]. *)
Definition active_maps_get (r : AVRO_INSTANCE) (i : Z) : outcome (option TABLE_MAP) :=
  match active_maps r !! Z.to_nat i with
  | Some slot => Ret slot
  | None => OutOfBounds i
  end.

Definition active_maps_set (am : list (option TABLE_MAP)) (i : Z)
    (v : option TABLE_MAP) : outcome (list (option TABLE_MAP)) :=
  if bool_decide (Z.to_nat i < length am)%nat
  then Ret (<[Z.to_nat i := v]> am)
  else OutOfBounds i.

(** [router->event_type_hdr_lens[event]] *)
Definition hdr_len_of (r : AVRO_INSTANCE) (event : Z) : Z :=
  u8 (nth (Z.to_nat event) (event_type_hdr_lens r) Byte.x00).

(** Modelled from the spec: [read_table_info] of avro_schema.c, for a
    table-map payload "table id (4 or 6 bytes per the format description),
    flags (2), db_name_len(1) + db_name + NUL, table_name_len(1) +
    table_name + NUL". *)
Definition read_table_info (ptr : list byte) (post_header_len : Z) : Z * string :=
  let id_size := if post_header_len =? 6 then 4 else 6 in
  let id := le_value (peek_n ptr 0 (Z.to_nat id_size)) in
  let off := id_size + 2 in
  let dblen := u8 (peek ptr off) in
  let db := peek_n ptr (off + 1) (Z.to_nat dblen) in
  let off := off + 1 + dblen + 1 in
  let tbllen := u8 (peek ptr off) in
  let tbl := peek_n ptr (off + 1) (Z.to_nat tbllen) in
  (id, (string_of_list_byte db ++ "." ++ string_of_list_byte tbl)%string).

(** Modelled from the spec: [table_map_alloc] of avro_schema.c; after the
    names come "lenenc column count, column_count bytes of type codes,
    lenenc metadata length + metadata bytes"; the version is copied from
    the create. *)
Definition table_map_alloc (ptr : list byte) (hdr_len : Z) (create : TABLE_CREATE)
  : option TABLE_MAP :=
  let id_size := if hdr_len =? 6 then 4 else 6 in
  let id := le_value (peek_n ptr 0 (Z.to_nat id_size)) in
  let off := id_size + 2 in
  let dblen := u8 (peek ptr off) in
  let db := peek_n ptr (off + 1) (Z.to_nat dblen) in
  let off := off + 1 + dblen + 1 in
  let tbllen := u8 (peek ptr off) in
  let tbl := peek_n ptr (off + 1) (Z.to_nat tbllen) in
  let off := off + 1 + tbllen + 1 in
  let '(ncols, n) := leint_consume (drop (Z.to_nat off) ptr) in
  let off := off + n in
  let types := peek_n ptr off (Z.to_nat ncols) in
  let off := off + ncols in
  let '(mdlen, n) := leint_consume (drop (Z.to_nat off) ptr) in
  let metadata := peek_n ptr (off + n) (Z.to_nat mdlen) in
  Some (mkMAP id ncols types metadata (Some create) (tc_version create)
              (string_of_list_byte tbl) (string_of_list_byte db)).

(** [snprintf(.., "%06d", n)] for a version number, which is not negative. *)
Definition fmt_06d (n : Z) : string :=
  let digits := pretty.pretty (Z.to_N n) in
  (String.concat "" (replicate (6 - String.length digits) "0") ++ digits)%string.

Definition avro_filepath (dir ident : string) (version : Z) : string :=
  (dir ++ "/" ++ ident ++ "." ++ fmt_06d version ++ ".avro")%string.

Definition handle_table_map_event (ext : Externals) (router : AVRO_INSTANCE)
    (hdr : REP_HEADER) (ptr : list byte) : outcome (bool * AVRO_INSTANCE) :=
  let ev_len := hdr_len_of router (hdr_event_type hdr) in
  let '(id, table_ident) := read_table_info ptr ev_len in
  match created_tables router !! table_ident with
  | Some create =>
      let old := table_maps router !! table_ident in
      let changed :=
        match old with
        | None => true
        | Some o => negb (tm_version o =? tc_version create)
        end in
      if changed then
        match table_map_alloc ptr ev_len create with
        | Some map =>
            match json_new_schema_from_table ext map with
            | Some json_schema =>
                let filepath :=
                  avro_filepath (avrodir router) table_ident (tm_version map) in
                match avro_table_alloc ext filepath json_schema with
                | Some avro_table =>
                    am1 ← match old with
                           | Some o =>
                               active_maps_set (active_maps router)
                                 (active_maps_index ext (tm_id o)) None
                           | None => Ret (active_maps router)
                           end;
                    let tm := <[table_ident := map]>
                                (delete table_ident (table_maps router)) in
                    let ot := <[table_ident := avro_table]>
                                (delete table_ident (open_tables router)) in
                    am2 ← active_maps_set am1
                            (active_maps_index ext (tm_id map)) (Some map);
                    Ret (true,
                         with_maps
                           (emit router [SaveAvroSchema table_ident (tm_version map)])
                           am2 tm ot)
                | None => Ret (false, router)
                end
            | None => Ret (false, router)
            end
        | None => Ret (false, router)
        end
      else Ret (true, router)
  | None => Ret (false, router)
  end.

Definition set_common_fields (router : AVRO_INSTANCE) (hdr : REP_HEADER)
    (event_type : Z) (record : avro_value) : avro_value :=
  mkVALUE (current_gtid router) (hdr_timestamp hdr) event_type (columns record).

Definition signed64 (v : Z) : Z := if 2 ^ 63 <=? v then v - 2 ^ 64 else v.

(** The conversion of an integer to [int32_t]: the low 32 bits, signed. *)
Definition signed32 (v : Z) : Z :=
  let w := wrap32 v in if 2 ^ 31 <=? w then w - 2 ^ 32 else w.

(** The value [set_numeric_field_value] stores; [None] for the types that
    its [switch] leaves to [default].  The bytes are copied into the
    [int64_t i]; [avro_value_set_int] takes an [int32_t], so the four bytes
    of a LONG are read as a signed number and the eight bytes of a LONGLONG
    lose their upper half. *)
Definition set_numeric_field_value (type : Z) (value : list byte)
  : option avro_field :=
  if type =? TABLE_COL_TYPE_TINY then Some (AvInt (signed32 (u8 (peek value 0))))
  else if type =? TABLE_COL_TYPE_SHORT
       then Some (AvInt (signed32 (le_value (peek_n value 0 2))))
  else if type =? TABLE_COL_TYPE_INT24
       then Some (AvInt (signed32 (le_value (peek_n value 0 3))))
  else if type =? TABLE_COL_TYPE_LONG
       then Some (AvInt (signed32 (le_value (peek_n value 0 4))))
  else if type =? TABLE_COL_TYPE_LONGLONG
       then Some (AvInt (signed32 (signed64 (le_value (peek_n value 0 8)))))
  else if type =? TABLE_COL_TYPE_FLOAT then Some (AvFloat (le_value (peek_n value 0 4)))
  else if type =? TABLE_COL_TYPE_DOUBLE
       then Some (AvFloat (signed64 (le_value (peek_n value 0 8))))
  else None.

Definition bit_is_set (bitmap : list byte) (current_column : Z) : bool :=
  let '(off, col) :=
    if 8 <=? current_column
    then (current_column / 8, current_column mod 8)
    else (0, current_column) in
  negb (Z.land (u8 (peek bitmap off)) (Z.shiftl 1 col) =? 0).

Definition get_metadata_len (type : Z) : Z :=
  if one_of type [TABLE_COL_TYPE_STRING; TABLE_COL_TYPE_VAR_STRING;
                  TABLE_COL_TYPE_VARCHAR; TABLE_COL_TYPE_DECIMAL;
                  TABLE_COL_TYPE_NEWDECIMAL; TABLE_COL_TYPE_ENUM;
                  TABLE_COL_TYPE_SET; TABLE_COL_TYPE_BIT] then 2
  else if one_of type [TABLE_COL_TYPE_BLOB; TABLE_COL_TYPE_FLOAT;
                       TABLE_COL_TYPE_DOUBLE] then 1
  else 0.

(** The bytes of a C string: everything before the first NUL. *)
Fixpoint c_string (bs : list byte) : list byte :=
  match bs with
  | [] => []
  | b :: rest => if u8 b =? 0 then [] else b :: c_string rest
  end.

(** [snprintf(strval, .., "%hhu", v)] *)
Definition fmt_hhu (v : Z) : list byte :=
  list_byte_of_string (pretty.pretty (Z.to_N v)).

(** The locals of [process_row_event_data] that change from column to
    column, and the record being filled. *)
Record row_state := mkROW {
  rs_ptr : Z;
  rs_npresent : Z;
  rs_metadata_offset : Z;
  rs_extra_bits : Z;
  rs_record : avro_value
}.

Definition set_field (record : avro_value) (name : string) (v : option avro_field)
  : avro_value :=
  match v with
  | Some f => mkVALUE (GTID record) (timestamp record) (event_type record)
                      (<[name := f]> (columns record))
  | None => record
  end.

(** Whether the [n] bytes at offset [off] of [buf] are bytes of [buf].
    Offsets are natural numbers, as [drop] takes them: no pointer of the
    row loop lies before the start of the buffer. *)
Definition inside (buf : list byte) (off n : Z) : bool :=
  (Z.to_nat off + Z.to_nat n <=? length buf)%nat.

(** Whether a C string that begins at [bs] ends in [bs]. *)
Definition terminated (bs : list byte) : bool :=
  existsb (fun b => u8 b =? 0) bs.

(** The value of one column that is present and not NULL: the field to
    store, the bytes consumed and the extra bits left.  [buf] is the buffer
    of the event, the payload and the terminator that [read_event_data]
    stores after it; [ptr] is the offset of the value in it.  A value that
    ends after the last byte of the buffer stops the decoding with
    [OutOfBuffer], a read of [column_metadata] after its last byte with
    [OutOfBounds].
    - An ENUM or SET is copied into [val], an array of [metadata[1]]
      bytes, and [val[0]] is printed: with no byte in the array that is a
      read outside of it.
    - A fixed string is copied with [strncpy] into an array of one byte
      more than its length; the byte after the copy is set only when the
      string has a NUL of its own, otherwise the array is not terminated.
    - A variable string is handed over as a pointer into the buffer, the
      Avro library reads it as a C string, up to the first NUL.
    - A blob length is read with [memcpy(&len, ptr, bytes)] into the eight
      bytes of [len]. *)
Definition unpack_column (map : TABLE_MAP) (buf : list byte) (type : Z)
    (ptr metadata_offset extra_bits : Z) : outcome (option avro_field * Z * Z) :=
  let here := drop (Z.to_nat ptr) buf in
  let metadata := drop (Z.to_nat metadata_offset) (column_metadata map) in
  let value_of (consumed : Z) (field : option avro_field) (extra_bits : Z)
    : outcome (option avro_field * Z * Z) :=
    if inside buf ptr consumed then Ret (field, consumed, extra_bits)
    else OutOfBuffer (Z.of_nat (length buf)) in
  let with_metadata (n : Z) (k : outcome (option avro_field * Z * Z))
    : outcome (option avro_field * Z * Z) :=
    if inside (column_metadata map) metadata_offset n then k
    else OutOfBounds (Z.of_nat (length (column_metadata map))) in
  if column_is_fixed_string type then
    with_metadata 1
      (if fixed_string_is_enum (u8 (peek metadata 0)) then
         with_metadata 2
           (let '(val, bytes) := unpack_enum here metadata in
            if bytes =? 0 then OutOfBounds 0
            else value_of bytes (Some (AvString (fmt_hhu (u8 (peek val 0)))))
                          extra_bits)
       else
         if inside buf ptr 1 then
           let bytes := u8 (peek here 0) in
           let copied := peek_n here 1 (Z.to_nat bytes) in
           value_of (bytes + 1)
                    (Some (if terminated copied then AvString (c_string copied)
                           else AvUnterminated copied))
                    extra_bits
         else OutOfBuffer (Z.of_nat (length buf)))
  else if column_is_bit type then
    with_metadata 2
      (let width := u8 (peek metadata 0) + u8 (peek metadata 1) * 8 in
       let bits_in_nullmap := Z.min width extra_bits in
       let extra_bits := extra_bits - bits_in_nullmap in
       let width := width - bits_in_nullmap in
       let bytes := width / 8 in
       value_of bytes (Some (AvInt 0)) extra_bits)
  else if column_is_variable_string type then
    let '(start, sz, consumed) := lestr_consume here in
    if inside buf ptr start && terminated (drop (Z.to_nat start) here) then
      value_of consumed
               (Some (AvString (c_string (drop (Z.to_nat start) here))))
               extra_bits
    else OutOfBuffer (Z.of_nat (length buf))
  else if column_is_blob type then
    with_metadata 1
      (let bytes := u8 (peek metadata 0) in
       if 8 <? bytes then OutOfBounds bytes
       else if inside buf ptr bytes then
         let len := le_value (peek_n here 0 (Z.to_nat bytes)) in
         value_of (bytes + len)
                  (Some (AvBytes (take (Z.to_nat len) (drop (Z.to_nat bytes) here))))
                  extra_bits
       else OutOfBuffer (Z.of_nat (length buf)))
  else if column_is_temporal type then
    with_metadata 1
      (let '(tm, n) := unpack_temporal_value type here metadata in
       value_of n (Some (AvTemporal type tm)) extra_bits)
  else
    let '(lval, n) := unpack_numeric_field here type in
    value_of n (set_numeric_field_value type lval) extra_bits.

(** One round of the [for] loop of [process_row_event_data], column [i].
    The byte of the NULL bitmap that [bit_is_set] reads has to be a byte of
    the buffer. *)
Definition process_column (map : TABLE_MAP) (create : TABLE_CREATE)
    (buf : list byte) (columns_present : list byte) (null_bitmap : Z)
    (st : row_state) (i : Z) : outcome row_state :=
  let ncolumns := tm_columns map in
  if (i <? tm_columns map) && (rs_npresent st <? ncolumns) then
    let name := nth (Z.to_nat i) (column_names create) ""%string in
    if bit_is_set columns_present i then
      let type := u8 (peek (column_types map) i) in
      if (Z.to_nat null_bitmap + Z.to_nat (i / 8) <? length buf)%nat then
        '(field, consumed, extra_bits) ←
          (if bit_is_set (drop (Z.to_nat null_bitmap) buf) i
           then Ret (Some AvNull, 0, rs_extra_bits st)
           else unpack_column map buf type (rs_ptr st) (rs_metadata_offset st)
                              (rs_extra_bits st));
        Ret (mkROW (rs_ptr st + consumed) (rs_npresent st + 1)
                   (rs_metadata_offset st + get_metadata_len type) extra_bits
                   (set_field (rs_record st) name field))
      else OutOfBuffer (null_bitmap + i / 8)
    else Ret st
  else Ret st.

Definition column_indices (map : TABLE_MAP) : list Z :=
  Z.of_nat <$> seq 0 (Z.to_nat (tm_columns map)).

(** The [for] loop over the columns [cols]. *)
Fixpoint process_columns (map : TABLE_MAP) (create : TABLE_CREATE)
    (buf : list byte) (columns_present : list byte) (null_bitmap : Z)
    (cols : list Z) (st : row_state) : outcome row_state :=
  match cols with
  | [] => Ret st
  | i :: cols' =>
      st' ← process_column map create buf columns_present null_bitmap st i;
      process_columns map create buf columns_present null_bitmap cols' st'
  end.

(** [process_row_event_data]: one row image at offset [ptr] of the buffer
    [buf], decoded under the bitmap [columns_present]; the result is the
    offset after the image and the record. *)
Definition process_row_event_data (map : TABLE_MAP) (create : TABLE_CREATE)
    (record : avro_value) (buf : list byte) (ptr : Z)
    (columns_present : list byte) : outcome (Z * avro_value) :=
  let ncolumns := tm_columns map in
  let extra_bits := ((ncolumns + 7) / 8) * 8 - ncolumns in
  let null_bitmap := ptr in
  let ptr := ptr + (ncolumns + 7) / 8 in
  st ← process_columns map create buf columns_present null_bitmap
         (column_indices map) (mkROW ptr 0 0 extra_bits record);
  Ret (rs_ptr st, rs_record st).

Definition append_value (table : AVRO_TABLE) (record : avro_value) : AVRO_TABLE :=
  mkTABLE (filename table) (json_schema table) (avro_file table ++ [record]).

(** The body of the [while] loop of [handle_row_event]: one row image, and
    for an update event a second one, each appended to the Avro file of
    the table as a record. *)
Definition row_round (router : AVRO_INSTANCE) (hdr : REP_HEADER)
    (map : TABLE_MAP) (create : TABLE_CREATE) (buf col_present : list byte)
    (ptr : Z) (record : avro_value) (table : AVRO_TABLE)
  : outcome (Z * avro_value * AVRO_TABLE) :=
  let event_type := get_event_type (hdr_event_type hdr) in
  let record := set_common_fields router hdr event_type record in
  '(ptr, record) ← process_row_event_data map create record buf ptr col_present;
  let table := append_value table record in
  if event_type =? UPDATE_EVENT then
    let record := set_common_fields router hdr UPDATE_EVENT_AFTER record in
    '(ptr, record) ← process_row_event_data map create record buf ptr col_present;
    Ret (ptr, record, append_value table record)
  else Ret (ptr, record, table).

(** The [while] loop of [handle_row_event].  [bound] is
    [hdr->event_size - BINLOG_EVENT_HDR_LEN]; the result is the offset, the
    record, the table and the number of rows once the loop is left, or the
    access that left the buffer or an array; [None] when [fuel] rounds did
    not leave the loop. *)
Fixpoint row_loop (fuel : nat) (router : AVRO_INSTANCE) (hdr : REP_HEADER)
    (map : TABLE_MAP) (create : TABLE_CREATE) (buf col_present : list byte)
    (bound : Z) (ptr : Z) (record : avro_value) (table : AVRO_TABLE) (rows : Z)
  : option (outcome (Z * avro_value * AVRO_TABLE * Z)) :=
  match fuel with
  | O => None
  | S fuel' =>
      if ptr <? bound then
        match row_round router hdr map create buf col_present ptr record table with
        | Ret (ptr, record, table) =>
            row_loop fuel' router hdr map create buf col_present bound ptr record
                     table (rows + 1)
        | OutOfBounds i => Some (OutOfBounds i)
        | OutOfBuffer o => Some (OutOfBuffer o)
        | Diverges => Some Diverges
        end
      else Some (Ret (ptr, record, table, rows))
  end.

(** What [handle_row_event] has read before it looks for the table map. *)
Record row_prefix := mkPREFIX {
  rp_table_id : Z;
  rp_flags : Z;
  rp_ncolumns : Z;
  rp_col_present : list byte;
  rp_col_update : list byte;
  rp_ptr : Z
}.

Definition read_row_prefix (router : AVRO_INSTANCE) (hdr : REP_HEADER)
    (buf : list byte) : row_prefix :=
  let table_id_size :=
    if hdr_len_of router (hdr_event_type hdr) =? 6 then 4 else 6 in
  let table_id := le_value (peek_n buf 0 (Z.to_nat table_id_size)) in
  let ptr := table_id_size in
  let flags := le_value (peek_n buf ptr 2) in
  let ptr := ptr + 2 in
  let ptr :=
    if DELETE_ROWS_EVENTv1 <? hdr_event_type hdr then
      let extra_len := le_value (peek_n buf ptr 2) in
      ptr + 2 + extra_len
    else ptr in
  let '(ncolumns, n) := leint_consume (drop (Z.to_nat ptr) buf) in
  let ptr := ptr + n in
  let coldata_size := wrap64 (ncolumns + 7) / 8 in
  let col_present := peek_n buf ptr (Z.to_nat coldata_size) in
  let ptr := ptr + coldata_size in
  let '(col_update, ptr) :=
    if (hdr_event_type hdr =? UPDATE_ROWS_EVENTv1)
       || (hdr_event_type hdr =? UPDATE_ROWS_EVENTv2)
    then (peek_n buf ptr (Z.to_nat coldata_size), ptr + coldata_size)
    else ([], ptr) in
  mkPREFIX table_id flags ncolumns col_present col_update ptr.

Definition table_ident_of (map : TABLE_MAP) : string :=
  (tm_database map ++ "." ++ tm_table map)%string.

Definition row_bound (hdr : REP_HEADER) : Z :=
  wrap32 (hdr_event_size hdr - BINLOG_EVENT_HDR_LEN).

(** The fresh record of [avro_generic_value_new]. *)
Definition new_record : avro_value := mkVALUE "" 0 0 ∅.

Definition handle_row_event (ext : Externals) (router : AVRO_INSTANCE)
    (hdr : REP_HEADER) (buf : list byte) : outcome (bool * AVRO_INSTANCE) :=
  let p := read_row_prefix router hdr buf in
  if (rp_table_id p =? TABLE_DUMMY_ID)
     && negb (Z.land (rp_flags p) ROW_EVENT_END_STATEMENT =? 0)
  then Ret (true, router)
  else
    slot ← active_maps_get router (active_maps_index ext (rp_table_id p));
    match slot with
    | Some map =>
        let table_ident := table_ident_of map in
        match open_tables router !! table_ident, table_create map with
        | Some table, Some create =>
            if rp_ncolumns p =? tm_columns map then
              match row_loop (S (Z.to_nat (row_bound hdr))) router hdr map create
                             buf (rp_col_present p) (row_bound hdr) (rp_ptr p)
                             new_record table 0 with
              | Some res =>
                  '(_, _, table', _) ← res;
                  Ret (true,
                       with_maps router (active_maps router) (table_maps router)
                                 (<[table_ident := table']> (open_tables router)))
              | None => Diverges
              end
            else Ret (false, router)
        | _, _ => Ret (false, router)
        end
    | None => Ret (false, router)
    end.

(** The event types of the records of [n] rows of an update event. *)
Definition update_pairs (n : nat) : list Z :=
  concat (replicate n [UPDATE_EVENT; UPDATE_EVENT_AFTER]).

(** The records of table [ident], as event type and columns set. *)
Definition records_of (router : AVRO_INSTANCE) (ident : string)
  : list (Z * list (string * avro_field)) :=
  match open_tables router !! ident with
  | Some table => (fun v => (event_type v, map_to_list (columns v))) <$> avro_file table
  | None => []
  end.

(** Modelled from the spec: the columns of one row image of the row-event
    decoder, "For each column i where columns_present[i] is set: if
    null_bitmap[j] is set, write Avro null; otherwise dispatch by column
    type and metadata"; [j] counts the columns that are present.  The
    result is the offset after the image; the bytes of a value are those
    that [unpack_column] takes for its type. *)
Fixpoint spec_columns (map : TABLE_MAP) (buf bitmap : list byte)
    (null_bitmap : Z) (cols : list Z) (j ptr metadata_offset : Z) : option Z :=
  match cols with
  | [] => Some ptr
  | i :: cols' =>
      if bit_is_set bitmap i then
        let type := u8 (peek (column_types map) i) in
        let metadata_offset' := metadata_offset + get_metadata_len type in
        if bit_is_set (drop (Z.to_nat null_bitmap) buf) j then
          spec_columns map buf bitmap null_bitmap cols' (j + 1) ptr metadata_offset'
        else
          match unpack_column map buf type ptr metadata_offset 0 with
          | Ret (_, consumed, _) =>
              spec_columns map buf bitmap null_bitmap cols' (j + 1)
                           (ptr + consumed) metadata_offset'
          | _ => None
          end
      else spec_columns map buf bitmap null_bitmap cols' j ptr metadata_offset
  end.

(** Modelled from the spec: one row image under [bitmap], "Read
    null_bitmap (ceil(n_present/8) bytes)" and then the columns. *)
Definition spec_row_image (map : TABLE_MAP) (buf : list byte) (ptr : Z)
    (bitmap : list byte) : option Z :=
  let n_present :=
    Z.of_nat (length (List.filter (bit_is_set bitmap) (column_indices map))) in
  spec_columns map buf bitmap ptr (column_indices map) 0
               (ptr + (n_present + 7) / 8) 0.

(** Modelled from the spec: the rows of an UPDATE event, "While cursor has
    not reached event end, decode one row image" under [columns_present],
    and "For UPDATE, decode the after image identically using
    columns_update".  The result is the number of rows between [ptr] and
    [bound]; [None] when [fuel] rows do not reach the end of the event or
    a value leaves the buffer. *)
Fixpoint spec_update_rows (fuel : nat) (map : TABLE_MAP) (buf : list byte)
    (columns_present columns_update : list byte) (bound ptr : Z) : option nat :=
  match fuel with
  | O => None
  | S fuel' =>
      if ptr <? bound then
        ptr ← spec_row_image map buf ptr columns_present;
        ptr ← spec_row_image map buf ptr columns_update;
        S <$> spec_update_rows fuel' map buf columns_present columns_update
                               bound ptr
      else Some 0%nat
  end.

End Rbr.

(** ** The conversion loop over one binlog file (avro_file.c) *)

Module AvroFile.
Import Bytes Binlog MysqlBinlog Router Rbr.

(** [pread(fd, buf, count, offset)] on a file with contents [binlog]: the
    bytes read; fewer than [count] at the end of the file.  A failing read
    (the result -1) is not part of the model. *)
Definition pread (binlog : list byte) (count offset : Z) : list byte :=
  take (Z.to_nat count) (drop (Z.to_nat offset) binlog).

(** Modelled from the spec: [extract_field] of the binlog router, declared
    here as returning [uint32_t]: a little-endian field of [bits] bits. *)
Definition extract_field (src : list byte) (bits : Z) : Z :=
  wrap32 (le_value (peek_n src 0 (Z.to_nat (bits / 8)))).

(** [EXTRACT16] and [EXTRACT32] of blr_defines.h, stored in unsigned fields. *)
Definition EXTRACT16 (x : list byte) : Z :=
  Z.lor (u8 (peek x 0)) (Z.shiftl (u8 (peek x 1)) 8).

Definition EXTRACT32 (x : list byte) : Z :=
  Z.lor (Z.lor (Z.lor (u8 (peek x 0)) (Z.shiftl (u8 (peek x 1)) 8))
               (Z.shiftl (u8 (peek x 2)) 16))
        (Z.shiftl (u8 (peek x 3)) 24).

Definition rotate_to_next_file_if_exists (ext : Externals) (router : AVRO_INSTANCE)
  : avro_binlog_end_t * AVRO_INSTANCE :=
  match next_binlog_file ext (binlog_name router) with
  | Some next_binlog =>
      (AVRO_OK, with_positions (with_binlog_name router next_binlog) 4 4)
  | None => (AVRO_LAST_FILE, router)
  end.

Definition rotate_to_file (router : AVRO_INSTANCE) (next_binlog : list byte)
  : AVRO_INSTANCE :=
  with_positions
    (with_binlog_name router (string_of_list_byte (c_string next_binlog))) 4 4.

(** [read_event_data]: the payload followed by the terminator that the
    function stores after it, [None] on a short read.  The allocation of
    the buffer is taken to succeed. *)
Definition read_event_data (binlog : list byte) (hdr : REP_HEADER) (pos : Z)
  : option (list byte) :=
  let size := wrap32 (hdr_event_size hdr - BINLOG_EVENT_HDR_LEN) in
  let data := pread binlog size (pos + BINLOG_EVENT_HDR_LEN) in
  if Z.of_nat (length data) =? size then Some (data ++ [Byte.x00]) else None.

Definition notify_client (c : AVRO_CLIENT) : AVRO_CLIENT * list effect :=
  if negb (Z.land (cstate c) AVRO_WAIT_DATA =? 0) then
    (mkCLIENT (dcb c) (state c) (uuid c) (format c)
              (Z.land (cstate c) (Z.lnot AVRO_WAIT_DATA)),
     [PollFakeWriteEvent (dcb c)])
  else (c, []).

(** [notify_all_clients]: every client that waits for data gets a fake
    write event and loses its wait flag. *)
Definition notify_all_clients (router : AVRO_INSTANCE) : AVRO_INSTANCE :=
  let results := notify_client <$> clients router in
  emit (with_clients router (fst <$> results)) (concat (snd <$> results)).

(** [avro_flush_all_tables]: one flush per open table, in the order of the
    iterator of the hashtable. *)
Definition avro_flush_all_tables (router : AVRO_INSTANCE) : AVRO_INSTANCE :=
  emit router (AvroFileWriterFlush <$> (fst <$> map_to_list (open_tables router))).

(** [avro_save_conversion_state]: what goes into avro-conversion.ini. *)
Definition avro_save_conversion_state (router : AVRO_INSTANCE) : AVRO_INSTANCE :=
  emit router
    [SaveConversionState (binlog_name router) (current_pos router) (gtid router)].

Definition isspace (b : byte) : bool :=
  one_of (u8 b) [32; 9; 10; 11; 12; 13].

Definition unify_whitespace (sql : list byte) : list byte :=
  (fun b => if isspace b && negb (u8 b =? 32) then Byte.x20 else b) <$> sql.

Definition save_and_replace_table_create (ext : Externals)
    (router : AVRO_INSTANCE) (created : TABLE_CREATE) : bool * AVRO_INSTANCE :=
  if table_create_save ext created then
    let table_ident := (tc_database created ++ "." ++ tc_table created)%string in
    let tm :=
      match created_tables router !! table_ident with
      | Some _ => delete table_ident (table_maps router)
      | None => table_maps router
      end in
    (true, with_created router tm (<[table_ident := created]> (created_tables router)))
  else (false, router).

(** [strncmp(sql, prefix, strlen(prefix)) == 0] *)
Definition starts_with (prefix : string) (sql : list byte) : bool :=
  bytes_eqb (take (String.length prefix) sql) (list_byte_of_string prefix).

Definition DBNM_OFF : Z := 8.
Definition VBLK_OFF : Z := 4 + 4 + 1 + 2.
Definition PHDR_OFF : Z := 4 + 4 + 1 + 2 + 2.

(** [handle_query_event]: the router and the pending-transaction flag
    after the statement. *)
Definition handle_query_event (ext : Externals) (router : AVRO_INSTANCE)
    (hdr : REP_HEADER) (pending_transaction : Z) (ptr : list byte)
  : AVRO_INSTANCE * Z :=
  let dblen := u8 (peek ptr DBNM_OFF) in
  let vblklen := u8 (peek ptr VBLK_OFF) in
  let len := signed32 (hdr_event_size hdr - BINLOG_EVENT_HDR_LEN
                       - (PHDR_OFF + vblklen + 1 + dblen) + 1) in
  let sql := peek_n ptr (PHDR_OFF + vblklen + 1 + dblen) (Z.to_nat len) in
  let db := c_string (peek_n ptr (PHDR_OFF + vblklen) (Z.to_nat (dblen + 1))) in
  let sql := remove_mysql_comments ext (unify_whitespace sql) in
  if is_create_table_re ext sql then
    match table_create_alloc ext sql db with
    | Some created =>
        (snd (save_and_replace_table_create ext router created), pending_transaction)
    | None => (router, pending_transaction)
    end
  else if is_alter_table_re ext sql then
    let ident := read_alter_identifier ext sql in
    let full_ident :=
      if negb (bytes_eqb db [])
         && negb (existsb (Ascii.eqb ".") (list_ascii_of_string ident))
      then (string_of_list_byte db ++ "." ++ ident)%string
      else ident in
    match created_tables router !! full_ident with
    | Some created =>
        (with_created router (table_maps router)
           (<[full_ident := table_create_alter ext created sql]>
              (created_tables router)),
         pending_transaction)
    | None => (router, pending_transaction)
    end
  else if starts_with "BEGIN" sql then (router, 1)
  else if starts_with "COMMIT" sql then (router, 0)
  else (router, pending_transaction).

(** The locals of [avro_read_all_events] that live across iterations.  The
    counters that only feed log messages are left out. *)
Record loop_state := mkLOOP {
  ls_router : AVRO_INSTANCE;
  ls_pos : Z;
  ls_last_known_commit : Z;
  ls_next_binlog : list byte;
  ls_pending_transaction : Z;
  ls_found_chksum : bool;
  ls_rotate_seen : bool;
  ls_stop_seen : bool
}.

Definition with_router (st : loop_state) (r : AVRO_INSTANCE) : loop_state :=
  mkLOOP r (ls_pos st) (ls_last_known_commit st) (ls_next_binlog st)
         (ls_pending_transaction st) (ls_found_chksum st) (ls_rotate_seen st)
         (ls_stop_seen st).

(** One iteration either goes on with the next event or leaves the
    function with its result. *)
Inductive step :=
  | Next (st : loop_state)
  | Return (rval : avro_binlog_end_t) (st : loop_state).

Definition parse_header (hdbuf : list byte) : REP_HEADER :=
  mkHDR (EXTRACT32 hdbuf)
        (u8 (peek hdbuf 4))
        (EXTRACT32 (drop 5 hdbuf))
        (extract_field (drop 9 hdbuf) 32)
        (EXTRACT32 (drop 13 hdbuf))
        (EXTRACT16 (drop 17 hdbuf)).

(** [memcpy(router->event_type_hdr_lens, .., n)].  The array has
    [MAX_EVENT_TYPE_END] bytes and is followed in [AVRO_INSTANCE] by the
    [GTID_MAX_LEN + 1] bytes of [current_gtid]: the bytes that do not fit
    into the first are stored over the start of the second, whose bytes
    after its terminator are taken to be zero.  A copy that goes beyond
    both arrays, or one of a negative number of bytes, is [OutOfBounds]. *)
Definition copy_hdr_lens (router : AVRO_INSTANCE) (copied : list byte) (n : Z)
  : outcome AVRO_INSTANCE :=
  if (n <? 0) || (MAX_EVENT_TYPE_END + GTID_MAX_LEN + 1 <? n) then OutOfBounds n
  else
    let lens :=
      take (Z.to_nat MAX_EVENT_TYPE_END)
           (copied ++ drop (length copied) (event_type_hdr_lens router)) in
    let over := drop (Z.to_nat MAX_EVENT_TYPE_END) copied in
    let gtid_array :=
      take (Z.to_nat (GTID_MAX_LEN + 1))
           (list_byte_of_string (current_gtid router)
              ++ replicate (Z.to_nat (GTID_MAX_LEN + 1)) Byte.x00) in
    let current_gtid' :=
      match over with
      | [] => current_gtid router
      | _ => string_of_list_byte (c_string (over ++ drop (length over) gtid_array))
      end in
    Ret (with_current_gtid (with_hdr_lens router (n mod 256) lens) current_gtid').

(** The FORMAT_DESCRIPTION_EVENT branch: the post-header lengths are copied
    over [event_type_hdr_lens], and the checksum flag is read.  The bytes
    read have to be bytes of the buffer of the event. *)
Definition handle_format_description (st : loop_state) (hdr : REP_HEADER)
    (ptr : list byte) : outcome loop_state :=
  if inside ptr (2 + 50 + 4) 1 then
    let event_header_length := u8 (peek ptr (2 + 50 + 4)) in
    let event_header_ntypes :=
      signed32 (hdr_event_size hdr - event_header_length - (2 + 50 + 4 + 1)) in
    if (0 <=? event_header_ntypes)
       && negb (inside ptr (2 + 50 + 5) event_header_ntypes)
    then OutOfBuffer (Z.of_nat (length ptr))
    else
      let copied := peek_n ptr (2 + 50 + 5) (Z.to_nat event_header_ntypes) in
      router ← copy_hdr_lens (ls_router st) copied event_header_ntypes;
      let event_header_ntypes :=
        if event_header_ntypes =? 168 then event_header_ntypes - 163
        else if event_header_ntypes =? 165 then event_header_ntypes - 160
        else event_header_ntypes - 35 in
      let n_events :=
        signed32 (hdr_event_size hdr - event_header_length - (2 + 50 + 4 + 1)) in
      found_chksum ←
        (if event_header_ntypes <? n_events then
           let at_ := hdr_event_size hdr - event_header_length - event_header_ntypes in
           if inside ptr at_ 1 then
             Ret (if u8 (peek ptr at_) =? 1 then true else ls_found_chksum st)
           else OutOfBuffer at_
         else Ret (ls_found_chksum st));
      Ret (mkLOOP router (ls_pos st) (ls_last_known_commit st) (ls_next_binlog st)
                  (ls_pending_transaction st) found_chksum (ls_rotate_seen st)
                  (ls_stop_seen st))
  else OutOfBuffer (2 + 50 + 4).

Definition handle_rotate (st : loop_state) (hdr : REP_HEADER) (ptr : list byte)
  : loop_state :=
  let len := signed32 (hdr_event_size hdr - BINLOG_EVENT_HDR_LEN - 8) in
  let len := if ls_found_chksum st then len - 4 else len in
  let len := if BINLOG_FNAMELEN <? len then BINLOG_FNAMELEN else len in
  mkLOOP (ls_router st) (ls_pos st) (ls_last_known_commit st)
         (peek_n ptr 8 (Z.to_nat len) ++ [Byte.x00])
         (ls_pending_transaction st) (ls_found_chksum st) true (ls_stop_seen st).

Definition handle_gtid (st : loop_state) (hdr : REP_HEADER) (ptr : list byte)
  : loop_state :=
  let n_sequence := extract_field ptr 64 in
  let domainid := extract_field (drop 8 ptr) 32 in
  let flags := u8 (peek ptr (8 + 4)) in
  mkLOOP (with_gtid (ls_router st) (mkGTID domainid (hdr_serverid hdr) n_sequence 1))
         (ls_pos st) (ls_last_known_commit st) (ls_next_binlog st)
         (if flags =? 0 then 1 else ls_pending_transaction st)
         (ls_found_chksum st) (ls_rotate_seen st) (ls_stop_seen st).

Definition handle_query (ext : Externals) (st : loop_state) (hdr : REP_HEADER)
    (ptr : list byte) : loop_state :=
  let trx_before := ls_pending_transaction st in
  let '(router, pending_transaction) :=
    handle_query_event ext (ls_router st) hdr trx_before ptr in
  let router :=
    if negb (trx_before =? pending_transaction)
    then with_counts router (wrap64 (trx_count router + 1)) (row_count router)
    else router in
  mkLOOP router (ls_pos st) (ls_last_known_commit st) (ls_next_binlog st)
         pending_transaction (ls_found_chksum st) (ls_rotate_seen st)
         (ls_stop_seen st).

Definition handle_xid (st : loop_state) : loop_state :=
  let router := ls_router st in
  let router := with_counts router (wrap64 (trx_count router + 1)) (row_count router) in
  let router :=
    if (row_target router <=? row_count router)
       || (trx_target router <=? trx_count router)
    then
      let router := notify_all_clients router in
      let router := avro_flush_all_tables router in
      let router := avro_save_conversion_state router in
      with_counts router 0 0
    else router in
  mkLOOP router (ls_pos st) (ls_last_known_commit st) (ls_next_binlog st)
         0 (ls_found_chksum st) (ls_rotate_seen st) (ls_stop_seen st).

Definition is_row_event (type : Z) : bool :=
  ((WRITE_ROWS_EVENTv0 <=? type) && (type <=? DELETE_ROWS_EVENTv1))
  || ((WRITE_ROWS_EVENTv2 <=? type) && (type <=? DELETE_ROWS_EVENTv2)).

(** The [if ... else if] chain over the event type. *)
Definition dispatch_event (ext : Externals) (st : loop_state) (hdr : REP_HEADER)
    (ptr : list byte) : outcome loop_state :=
  let type := hdr_event_type hdr in
  if type =? FORMAT_DESCRIPTION_EVENT then handle_format_description st hdr ptr
  else if type =? STOP_EVENT then
    Ret (mkLOOP (ls_router st) (ls_pos st) (ls_last_known_commit st)
                (ls_next_binlog st) (ls_pending_transaction st)
                (ls_found_chksum st) (ls_rotate_seen st) true)
  else if type =? TABLE_MAP_EVENT then
    '(_, router) ← handle_table_map_event ext (ls_router st) hdr ptr;
    Ret (with_router st router)
  else if is_row_event type then
    let router := ls_router st in
    let router := with_counts router (trx_count router) (wrap64 (row_count router + 1)) in
    '(_, router) ← handle_row_event ext router hdr ptr;
    Ret (with_router st router)
  else if type =? ROTATE_EVENT then Ret (handle_rotate st hdr ptr)
  else if type =? MARIADB10_GTID_EVENT then Ret (handle_gtid st hdr ptr)
  else if type =? QUERY_EVENT then Ret (handle_query ext st hdr ptr)
  else if type =? XID_EVENT then Ret (handle_xid st)
  else Ret st.

Definition fail_at (st : loop_state) (pos : Z) : step :=
  Return AVRO_BINLOG_ERROR
         (with_router st (with_positions (ls_router st) (ls_last_known_commit st) pos)).

(** The body of the [while (1)] loop of [avro_read_all_events]. *)
Definition read_event (ext : Externals) (binlog : list byte) (st : loop_state)
  : outcome step :=
  let router := ls_router st in
  let pos := ls_pos st in
  let hdbuf := pread binlog BINLOG_EVENT_HDR_LEN pos in
  let n := Z.of_nat (length hdbuf) in
  if negb (n =? BINLOG_EVENT_HDR_LEN) then
    let router := with_positions router (binlog_position router) pos in
    if 0 <? ls_pending_transaction st then
      Ret (Return AVRO_OPEN_TRANSACTION (with_router st router))
    else if negb (n =? 0) then
      Ret (Return AVRO_BINLOG_ERROR (with_router st router))
    else if ls_rotate_seen st then
      Ret (Return AVRO_OK (with_router st (rotate_to_file router (ls_next_binlog st))))
    else
      let '(rval, router) := rotate_to_next_file_if_exists ext router in
      Ret (Return rval (with_router st router))
  else
    let hdr := parse_header hdbuf in
    if MAX_EVENT_TYPE_MARIADB10 <? hdr_event_type hdr then Ret (fail_at st pos)
    else if hdr_event_size hdr <=? 0 then Ret (fail_at st pos)
    else
      match read_event_data binlog hdr pos with
      | None => Ret (fail_at st pos)
      | Some ptr =>
          let st :=
            if ls_pending_transaction st =? 0
            then mkLOOP (ls_router st) (ls_pos st) pos (ls_next_binlog st)
                        (ls_pending_transaction st) (ls_found_chksum st)
                        (ls_rotate_seen st) (ls_stop_seen st)
            else st in
          st ← dispatch_event ext st hdr ptr;
          if (0 <? hdr_next_pos hdr) && (hdr_next_pos hdr <? pos) then
            Ret (Return AVRO_BINLOG_ERROR st)
          else if (0 <? hdr_next_pos hdr)
                  && negb (hdr_next_pos hdr =? pos + hdr_event_size hdr) then
            Ret (Return AVRO_BINLOG_ERROR st)
          else if 0 <? hdr_next_pos hdr then
            let pos := hdr_next_pos hdr in
            Ret (Next (mkLOOP (with_positions (ls_router st)
                                 (binlog_position (ls_router st)) pos)
                              pos (ls_last_known_commit st) (ls_next_binlog st)
                              (ls_pending_transaction st) (ls_found_chksum st)
                              (ls_rotate_seen st) (ls_stop_seen st)))
          else Ret (Return AVRO_BINLOG_ERROR st)
      end.

Fixpoint read_events (fuel : nat) (ext : Externals) (binlog : list byte)
    (st : loop_state) : outcome (avro_binlog_end_t * loop_state) :=
  match fuel with
  | O => Diverges
  | S fuel' =>
      s ← read_event ext binlog st;
      match s with
      | Next st' => read_events fuel' ext binlog st'
      | Return rval st' => Ret (rval, st')
      end
  end.

(** The clients that [notify_all_clients] wakes up. *)
Definition waits_for_data (c : AVRO_CLIENT) : bool :=
  negb (Z.land (cstate c) AVRO_WAIT_DATA =? 0).

(** The order of the claim on a list of calls: every flush of an Avro file
    comes before every notification of a client. *)
Definition flush_before_notify (es : list effect) : Prop :=
  forall (i j : nat) (table : string) (d : Z),
    es !! i = Some (AvroFileWriterFlush table) ->
    es !! j = Some (PollFakeWriteEvent d) ->
    (i < j)%nat.

Definition initial_state (router : AVRO_INSTANCE) : loop_state :=
  mkLOOP router (current_pos router) 4 [] 0 false false false.

(** [avro_read_all_events] on the open file [binlog].  Every iteration that
    goes on has read a header inside the file and moves [pos] forward, so
    one round per byte of the file and one more is enough. *)
Definition avro_read_all_events (ext : Externals) (binlog : list byte)
    (router : AVRO_INSTANCE) : outcome (avro_binlog_end_t * loop_state) :=
  if binlog_fd router =? -1 then Ret (AVRO_BINLOG_ERROR, initial_state router)
  else read_events (S (length binlog)) ext binlog (initial_state router).

(** The states in which the loop of [avro_read_all_events] begins an
    iteration on [binlog]: the state it starts with, and every state that
    an iteration which goes on has left. *)
Inductive reached (ext : Externals) (binlog : list byte) (router : AVRO_INSTANCE)
  : loop_state -> Prop :=
  | reached_first : reached ext binlog router (initial_state router)
  | reached_next (st st' : loop_state) :
      reached ext binlog router st ->
      read_event ext binlog st = Ret (Next st') ->
      reached ext binlog router st'.

End AvroFile.

(** ** The CDC client protocol: registration (avro_client.c) *)

Module AvroClient.
Import Bytes Binlog Router Rbr.

Definition AVRO_CLIENT_UNREGISTERED : Z := 0x0000.
Definition AVRO_CLIENT_REGISTERED : Z := 0x0001.
Definition AVRO_CLIENT_REQUEST_DATA : Z := 0x0002.
Definition AVRO_CLIENT_ERRORED : Z := 0x0003.

(** Modelled from the spec: [CDC_UUID_LEN] is defined in a header that is
    not part of the sources; "REGISTER UUID=<36-char-uuid>", and the
    comment next to its use reads "36 +1". *)
Definition CDC_UUID_LEN : Z := 36.

(** The descriptor of the client connection: what [dcb_printf] has sent,
    and whether [dcb_close] was called. *)
Record DCB := mkDCB {
  dcb_written : list string;
  dcb_closed : bool
}.

Definition dcb_printf (d : DCB) (msg : string) : DCB :=
  mkDCB (dcb_written d ++ [msg]) (dcb_closed d).

Definition dcb_close (d : DCB) : DCB := mkDCB (dcb_written d) true.

(** C strings over a buffer: a string ends at the first NUL, or where the
    buffer ends. *)
Fixpoint is_prefix (needle hay : list byte) : bool :=
  match needle, hay with
  | [], _ => true
  | n :: ns, h :: hs => Byte.eqb n h && is_prefix ns hs
  | _ :: _, [] => false
  end.

(** [strstr]: the offset of the first occurrence of [needle]. *)
Fixpoint strstr (hay needle : list byte) : option nat :=
  if is_prefix needle hay then Some O
  else match hay with
       | [] => None
       | _ :: hs => S <$> strstr hs needle
       end.

(** [if ((sep = strchr(s, c)) != NULL) *sep = 0]: the string cut at the
    first [c]. *)
Fixpoint cut_at (c : byte) (s : list byte) : list byte :=
  match s with
  | [] => []
  | b :: rest => if Byte.eqb b c then [] else b :: cut_at c rest
  end.

Definition set_state (c : AVRO_CLIENT) (st : Z) : AVRO_CLIENT :=
  mkCLIENT (dcb c) st (uuid c) (format c) (cstate c).

Definition set_uuid (c : AVRO_CLIENT) (u : list byte) : AVRO_CLIENT :=
  mkCLIENT (dcb c) (state c) (Some u) (format c) (cstate c).

Definition register_as (c : AVRO_CLIENT) (f : avro_data_format) : AVRO_CLIENT :=
  mkCLIENT (dcb c) AVRO_CLIENT_REGISTERED (uuid c) f (cstate c).

Definition reg_uuid : list byte := list_byte_of_string "REGISTER UUID=".

(** [avro_client_do_registration]; [data] is the bytes of the request
    buffer, [GWBUF_LENGTH] their number. *)
Definition avro_client_do_registration (client : AVRO_CLIENT) (data : list byte)
  : Z * AVRO_CLIENT :=
  let reg_uuid_len := Z.of_nat (length reg_uuid) in
  let sizeof_reg_uuid := reg_uuid_len + 1 in
  let data_len := Z.of_nat (length data) - reg_uuid_len in
  let request := data in
  match strstr (c_string request) reg_uuid with
  | Some _ =>
      let uuid_len := if CDC_UUID_LEN <? data_len then CDC_UUID_LEN else data_len in
      let uuid :=
        c_string (take (Z.to_nat uuid_len) (drop (Z.to_nat reg_uuid_len) request)) in
      let uuid := cut_at "," uuid in
      (* [strchr(uuid + strlen(uuid), ' ')] searches the empty string at
         the terminator and finds nothing *)
      let uuid := cut_at " " uuid in
      let strlen_uuid := Z.of_nat (length uuid) in
      let data_len :=
        if strlen_uuid <? uuid_len
        then data_len - (uuid_len - strlen_uuid)
        else data_len in
      let uuid_len := strlen_uuid in
      let client := set_uuid client uuid in
      if 0 <? data_len then
        let from := drop (Z.to_nat (sizeof_reg_uuid + uuid_len)) request in
        match strstr (c_string from) (list_byte_of_string "TYPE=") with
        | Some k =>
            let tmp_ptr := drop k from in
            if bytes_eqb (take 4 (drop 5 tmp_ptr)) (list_byte_of_string "AVRO")
            then (1, register_as client AVRO_FORMAT_AVRO)
            else if bytes_eqb (take 4 (drop 5 tmp_ptr)) (list_byte_of_string "JSON")
            then (1, register_as client AVRO_FORMAT_JSON)
            else (0, client)
        | None => (0, client)
        end
      else (0, client)
  | None => (0, client)
  end.

(** A byte that [avro_client_do_registration] keeps in the UUID: not the
    terminator, not a comma, not a space. *)
Definition uuid_byte (b : byte) : Prop :=
  u8 b <> 0 /\ Byte.eqb b "," = false /\ Byte.eqb b " " = false.

(** The request [REGISTER UUID=<uuid>, TYPE=<type>]. *)
Definition register_request (uuid type : list byte) : list byte :=
  reg_uuid ++ uuid ++ list_byte_of_string ", TYPE=" ++ type.

Section HandleRequest.

(** [avro_client_process_command] serves REQUEST-DATA from the files of the
    Avro directory; the registration does not depend on it. *)
Variable avro_client_process_command :
  AVRO_CLIENT -> DCB -> list byte -> AVRO_CLIENT * DCB.

Definition avro_client_handle_request (client : AVRO_CLIENT) (d : DCB)
    (queue : list byte) : Z * AVRO_CLIENT * DCB :=
  if state client =? AVRO_CLIENT_ERRORED then (1, client, d)
  else if state client =? AVRO_CLIENT_UNREGISTERED then
    let '(reg_ret, client) := avro_client_do_registration client queue in
    if reg_ret =? 0 then
      let client := set_state client AVRO_CLIENT_ERRORED in
      let d := dcb_printf d "ERR, code 12, msg: Registration failed" in
      (0, client, dcb_close d)
    else
      let d := dcb_printf d "OK" in
      (0, set_state client AVRO_CLIENT_REGISTERED, d)
  else if (state client =? AVRO_CLIENT_REGISTERED)
          || (state client =? AVRO_CLIENT_REQUEST_DATA) then
    let client :=
      if state client =? AVRO_CLIENT_REGISTERED
      then set_state client AVRO_CLIENT_REQUEST_DATA
      else client in
    let '(client, d) := avro_client_process_command client d queue in
    (0, client, d)
  else (1, set_state client AVRO_CLIENT_ERRORED, d).

End HandleRequest.

End AvroClient.

(** ** Concrete inputs *)

Module Fixtures.
Import Bytes Binlog MysqlBinlog Router Rbr AvroFile AvroClient MaxAvro.

(** An Avro file of three bytes on a device that takes [space] more; the
    stream is positioned at its end, with nothing in its buffer of 4096
    bytes. *)
Definition avro_out (space : nat) : MAXAVRO_FILE :=
  mkAVROFILE (mkFILE [Byte.x01; Byte.x02; Byte.x03] 3 space [] 4096)
             (replicate 16 Byte.xaa).

(** A block of one record of two bytes in a buffer of sixteen. *)
Definition one_record_block (space : nat) : MAXAVRO_DATABLOCK :=
  mkBLOCK (avro_out space) [Byte.x02; Byte.x14] 16 2 1 HeapValid.

Definition empty_block : MAXAVRO_DATABLOCK :=
  mkBLOCK (avro_out 1000) [] 16 0 0 HeapValid.

(** A platform with pointers of eight bytes.  The Avro library gives a
    schema and a table for every map, the DDL recognisers match nothing,
    there is no comment to remove and no next binlog file. *)
Definition lp64 : Externals :=
  mkEXT 8
        (fun _ => Some "{}"%string)
        (fun path schema => Some (mkTABLE path schema []))
        (fun _ => false) (fun _ => false) (fun sql => sql)
        (fun _ _ => None) (fun _ => true) (fun create _ => create)
        (fun _ => ""%string) (fun _ => None).

(** Table [d.t] with two TINY columns, mapped with table id 42. *)
Definition create_d_t : TABLE_CREATE := mkCREATE 2 ["a"; "b"]%string "t" "d" 1.

Definition map_d_t : TABLE_MAP :=
  mkMAP 42 2 [Byte.x01; Byte.x01] [] (Some create_d_t) 1 "t" "d".

Definition table_d_t : AVRO_TABLE := mkTABLE "/avro/d.t.000001.avro" "{}" [].

Definition waiting_client : AVRO_CLIENT :=
  mkCLIENT 7 0x0002 None AVRO_FORMAT_JSON AVRO_WAIT_DATA.

(** A router that has seen the CREATE of [d.t] and nothing else;
    [safe] is its [binlog_position]. *)
Definition router_created (safe : Z) : AVRO_INSTANCE :=
  mkROUTER "/avro" "binlog.000001" safe 4 3 0 (replicate 163 Byte.x08) "0-1-1"
           (mkGTID 0 1 1 1) (replicate 1024 None) ∅ ∅
           {[ "d.t"%string := create_d_t ]} 0 50 0 1000 [waiting_client] [].

(** The same router after the table-map event of [d.t] with id 42. *)
Definition router_d_t : AVRO_INSTANCE :=
  with_maps (router_created 0)
            (<[42%nat := Some map_d_t]> (replicate 1024 None))
            {[ "d.t"%string := map_d_t ]} {[ "d.t"%string := table_d_t ]}.

(** The payload of a table-map event for [d.t] with the six bytes [id]. *)
Definition table_map_payload (id : list byte) : list byte :=
  id ++ [Byte.x00; Byte.x00]
     ++ [Byte.x01; Byte.x64; Byte.x00]
     ++ [Byte.x01; Byte.x74; Byte.x00]
     ++ [Byte.x02; Byte.x01; Byte.x01; Byte.x00; Byte.x00].

Definition table_map_hdr : REP_HEADER :=
  mkHDR 1000 TABLE_MAP_EVENT 1 (19 + 19) 0 0.

(** The buffer that [read_event_data] hands to the handlers: the payload
    of the event and the terminator stored after it. *)
Definition event_buffer (payload : list byte) : list byte :=
  payload ++ [Byte.x00].

(** An UPDATE_ROWS_EVENTv1 for table id 42: two columns, the first bitmap
    names column [a], the second names [a] and [b].  It has two rows: the
    before image [a = 1] with the after image [a = 2, b = 3], and the
    before image [a = 5] with the after image [a = 6, b = 7]. *)
Definition update_payload : list byte :=
  [Byte.x2a; Byte.x00; Byte.x00; Byte.x00; Byte.x00; Byte.x00;
   Byte.x00; Byte.x00;
   Byte.x02; Byte.x01; Byte.x03;
   Byte.x00; Byte.x01;
   Byte.x00; Byte.x02; Byte.x03;
   Byte.x00; Byte.x05;
   Byte.x00; Byte.x06; Byte.x07].

Definition update_hdr : REP_HEADER :=
  mkHDR 1000 UPDATE_ROWS_EVENTv1 1 (19 + 21) 0 0.

Definition update_buffer : list byte := event_buffer update_payload.

(** The same event with its first row only. *)
Definition update_one_row_payload : list byte := take 16 update_payload.

Definition update_one_row_hdr : REP_HEADER :=
  mkHDR 1000 UPDATE_ROWS_EVENTv1 1 (19 + 16) 0 0.

(** The 19 bytes of an event header. *)
Definition event_header (type size next_pos : Z) : list byte :=
  le_bytes 4 1000 ++ [to_byte type] ++ le_bytes 4 1 ++ le_bytes 4 size
    ++ le_bytes 4 next_pos ++ [Byte.x00; Byte.x00].

Definition BINLOG_MAGIC : list byte := [Byte.xfe; Byte.x62; Byte.x69; Byte.x6e].

(** A format description event of MariaDB 10 at offset 4: 163 post-header
    lengths, then the checksum algorithm (1 = CRC32) and the checksum. *)
Definition format_description_crc32 : list byte :=
  event_header FORMAT_DESCRIPTION_EVENT 244 248
    ++ [Byte.x04; Byte.x00] ++ replicate 50 Byte.x00 ++ replicate 4 Byte.x00
    ++ [Byte.x13] ++ replicate 163 Byte.x08
    ++ [Byte.x01] ++ replicate 4 Byte.x00.

(** The payload of a WRITE_ROWS_EVENTv1 for table id 42 with the one row
    [a = 10, b = 11], without its checksum. *)
Definition write_row_payload : list byte :=
  [Byte.x2a; Byte.x00; Byte.x00; Byte.x00; Byte.x00; Byte.x00;
   Byte.x00; Byte.x00;
   Byte.x02; Byte.x03;
   Byte.x00; Byte.x0a; Byte.x0b].

Definition write_row_crc : list byte := [Byte.x00; Byte.x11; Byte.x22; Byte.x03].

(** A binlog file with checksums: the format description, then the row
    event at offset 248 with its 13 bytes of payload and 4 of checksum. *)
Definition checksum_binlog : list byte :=
  BINLOG_MAGIC ++ format_description_crc32
    ++ event_header WRITE_ROWS_EVENTv1 (19 + 13 + 4) (248 + 36)
    ++ write_row_payload ++ write_row_crc.

Definition write_row_hdr (size : Z) : REP_HEADER :=
  mkHDR 1000 WRITE_ROWS_EVENTv1 1 size (248 + 36) 0.

(** A binlog file of two events of type 0x05 with 8 bytes of payload each:
    the first, at offset 4, is well formed; the header of the second, at
    offset 31, names 99 as the next position instead of 58. *)
Definition bad_next_pos_binlog : list byte :=
  BINLOG_MAGIC
    ++ event_header 0x05 27 31 ++ replicate 8 Byte.x00
    ++ event_header 0x05 27 99 ++ replicate 8 Byte.x00.

(** The same file with a second event of the unknown type 0xff. *)
Definition bad_type_binlog : list byte :=
  BINLOG_MAGIC
    ++ event_header 0x05 27 31 ++ replicate 8 Byte.x00
    ++ event_header 0xff 27 58 ++ replicate 8 Byte.x00.

(** The router of the fixture one transaction short of its target of 50,
    inside a transaction that started at offset 4. *)
Definition before_commit : loop_state :=
  mkLOOP (with_counts router_d_t 49 0) 300 4 [] 1 false false false.

Definition xid_hdr : REP_HEADER := mkHDR 1000 XID_EVENT 1 (19 + 8) 327 0.

(** A query event in schema [d] with the statement COMMIT. *)
Definition commit_payload : list byte :=
  replicate 8 Byte.x00 ++ [Byte.x01] ++ replicate 4 Byte.x00
    ++ [Byte.x64; Byte.x00] ++ list_byte_of_string "COMMIT" ++ [Byte.x00].

Definition commit_hdr : REP_HEADER := mkHDR 1000 QUERY_EVENT 1 (19 + 21) 340 0.

(** A client that has just connected. *)
Definition fresh_client : AVRO_CLIENT :=
  mkCLIENT 7 AVRO_CLIENT_UNREGISTERED None AVRO_FORMAT_UNDEFINED 0.

Definition open_dcb : DCB := mkDCB [] false.

Definition no_command (c : AVRO_CLIENT) (d : DCB) (queue : list byte)
  : AVRO_CLIENT * DCB := (c, d).

Definition uuid36 : list byte :=
  list_byte_of_string "11111111-2222-3333-4444-555555555555".

End Fixtures.

(** ** The Avro container writer and reader: whole blocks
    (maxavro_write.c, maxavro_file.c) *)

Module MaxAvroBlocks.
Import Bytes MaxAvro.

(** What [maxavro_datablock_allocate] returns: NULL, a block none of whose
    fields was set (the block was allocated, its buffer was not), or a
    block ready for use. *)
Inductive allocation :=
  | NoBlock
  | UnsetBlock
  | EmptyBlock (block : MAXAVRO_DATABLOCK).

(** [maxavro_datablock_allocate]; [block_ok] and [buffer_ok] are whether
    the two calls of [malloc] return memory.  The fresh buffer holds no
    byte that was written. *)
Definition maxavro_datablock_allocate (block_ok buffer_ok : bool)
    (file : MAXAVRO_FILE) (buffersize : Z) : allocation :=
  if block_ok then
    if buffer_ok then EmptyBlock (mkBLOCK file [] buffersize 0 0 HeapValid)
    else UnsetBlock
  else NoBlock.

(** One call of an append function. *)
Inductive append :=
  | AddInteger (val : Z)
  | AddString (str : list byte)
  | AddFloat (bits : Z)
  | AddDouble (bits : Z).

Definition datablock_append (alloc_ok : bool) (block : MAXAVRO_DATABLOCK)
    (op : append) : bool * MAXAVRO_DATABLOCK :=
  match op with
  | AddInteger val => maxavro_datablock_add_integer alloc_ok block val
  | AddString str => maxavro_datablock_add_string alloc_ok block str
  | AddFloat bits => maxavro_datablock_add_float alloc_ok block bits
  | AddDouble bits => maxavro_datablock_add_double alloc_ok block bits
  end.

(** The bytes that the encoder of an append stores. *)
Definition encoding (op : append) : list byte :=
  match op with
  | AddInteger val => maxavro_encode_integer val
  | AddString str => maxavro_encode_string str
  | AddFloat bits => maxavro_encode_float bits
  | AddDouble bits => maxavro_encode_double bits
  end.

(** The bytes after [datasize] that the append function of [op] wants the
    buffer to have before it stores the value. *)
Definition reserved (op : append) : Z :=
  match op with
  | AddInteger _ => 9
  | AddString str => 9 + Z.of_nat (length str)
  | AddFloat _ => 4
  | AddDouble _ => 8
  end.

(** A run of appends, each with the answer of [realloc] should it be
    asked; the run goes on with the block as a failed append leaves it. *)
Definition datablock_appends (block : MAXAVRO_DATABLOCK)
    (ops : list (bool * append)) : MAXAVRO_DATABLOCK :=
  fold_left (fun b op => (datablock_append op.1 b op.2).2) ops block.

(** [fread(buf, 1, n, file)]: the bytes read, fewer than [n] at the end of
    the file. *)
Definition fread (n : nat) (f : FILE) : list byte * FILE :=
  let bs := take n (drop (f_pos f) (f_data f)) in
  (bs, mkFILE (f_data f) (f_pos f + length bs) (f_space f) (f_buffered f)
              (f_bufsize f)).

(** The fields of [MAXAVRO_FILE] that reading a block keeps up to date.
    The structure is declared in maxavro.h; the counters are kept as
    mathematical integers. *)
Record MAXAVRO_READER := mkREADER {
  rd_file : MAXAVRO_FILE;
  block_size : Z;
  blocks_read : Z;
  bytes_read : Z
}.

(** [maxavro_verify_block] *)
Definition maxavro_verify_block (reader : MAXAVRO_READER)
  : bool * MAXAVRO_READER :=
  let '(sync', f) := fread SYNC_MARKER_SIZE (file (rd_file reader)) in
  let moved := mkAVROFILE f (sync (rd_file reader)) in
  if negb (Nat.eqb (length sync') SYNC_MARKER_SIZE) then
    (false, mkREADER moved (block_size reader) (blocks_read reader)
                     (bytes_read reader))
  else if negb (bytes_eqb (take SYNC_MARKER_SIZE (sync (rd_file reader))) sync') then
    (false, mkREADER moved (block_size reader) (blocks_read reader)
                     (bytes_read reader))
  else
    (true, mkREADER moved (block_size reader) (blocks_read reader + 1)
                    (bytes_read reader + block_size reader)).

End MaxAvroBlocks.

(** ** Statements of query events (avro_file.c) *)

Module QueryEvents.
Import Bytes Binlog Router Rbr AvroFile.


End QueryEvents.

(** ** C library functions on strings *)

Module CLib.
Import Bytes Rbr AvroFile.

(** What a piece of C code comes to: a value, behaviour that C leaves
    undefined, or no end within the rounds given to a loop. *)
Inductive result (A : Type) :=
  | Done (a : A)
  | Undefined
  | Unfinished.
Arguments Done {A} a.
Arguments Undefined {A}.
Arguments Unfinished {A}.

Definition isdigit (b : byte) : bool := (48 <=? u8 b) && (u8 b <=? 57).

(** The longest prefix of bytes that satisfy [p]. *)
Fixpoint leading (p : byte -> bool) (s : list byte) : list byte :=
  match s with
  | b :: rest => if p b then b :: leading p rest else []
  | [] => []
  end.

(** [long] has 64 bits. *)
Definition LONG_MAX : Z := 2 ^ 63 - 1.
Definition LONG_MIN : Z := - 2 ^ 63.

(** The number that a run of decimal digits reads, after [acc]. *)
Fixpoint decimal (acc : Z) (digits : list byte) : Z :=
  match digits with
  | [] => acc
  | d :: rest => decimal (acc * 10 + (u8 d - 48)) rest
  end.

(** [strtol(nptr, &end, 10)]: the value and [end - nptr].  White space and
    one sign may come before the digits; without a digit nothing is
    converted; a value out of range is [LONG_MAX] or [LONG_MIN]. *)
Definition strtol (nptr : list byte) : Z * nat :=
  let spaces := length (leading isspace nptr) in
  let s := drop spaces nptr in
  let '(negative, sign) :=
    match s with
    | b :: _ =>
        if Byte.eqb b "-" then (true, 1%nat)
        else if Byte.eqb b "+" then (false, 1%nat)
        else (false, 0%nat)
    | [] => (false, 0%nat)
    end in
  let digits := leading isdigit (drop sign s) in
  match digits with
  | [] => (0, 0%nat)
  | _ :: _ =>
      let v := decimal 0 digits in
      (if negative then Z.max LONG_MIN (- v) else Z.min LONG_MAX v,
       (spaces + sign + length digits)%nat)
  end.

(** [strchr(s, c)] for a character [c] other than the terminator: the
    offset of its first occurrence in the string. *)
Fixpoint strchr (s : list byte) (c : byte) : option nat :=
  match s with
  | [] => None
  | b :: rest =>
      if Byte.eqb b c then Some O
      else if u8 b =? 0 then None
      else S <$> strchr rest c
  end.

(** [strrchr(s, c)]: the offset of the last occurrence. *)
Fixpoint strrchr (s : list byte) (c : byte) : option nat :=
  match s with
  | [] => None
  | b :: rest =>
      if u8 b =? 0 then None
      else match strrchr rest c with
           | Some k => Some (S k)
           | None => if Byte.eqb b c then Some O else None
           end
  end.

(** [strtok_r(s, delim, &saveptr)]: the next token of the string and what
    is left after the delimiter that ends it; [None] when only delimiters
    are left. *)
Definition strtok_r (s delim : list byte) : option (list byte * list byte) :=
  let is_delim := fun b => existsb (Byte.eqb b) delim in
  let str := c_string s in
  let str := drop (length (leading is_delim str)) str in
  match str with
  | [] => None
  | _ :: _ =>
      let tok := leading (fun b => negb (is_delim b)) str in
      Some (tok, drop (S (length tok)) str)
  end.

(** [snprintf(dest, size, ...)] of a text: what fits before the terminator. *)
Definition snprintf (size : nat) (text : list byte) : list byte :=
  take (size - 1) text.

(** ["%lu"] *)
Definition fmt_lu (v : Z) : list byte :=
  list_byte_of_string (pretty.pretty (Z.to_N v)).

(** ["%06d"]: the sign takes one of the six places. *)
Definition printf_06d (n : Z) : list byte :=
  if n <? 0 then
    let digits := pretty.pretty (Z.to_N (- n)) in
    list_byte_of_string
      ("-" ++ String.concat "" (replicate (5 - String.length digits) "0") ++ digits)
  else list_byte_of_string (fmt_06d n).

End CLib.

(** ** The CDC client protocol: requests for data (avro_client.c) *)

Module ClientRequest.
Import Bytes Binlog Router Rbr AvroFile AvroClient CLib.

Definition AVRO_MAX_FILENAME_LEN : nat := 255.

Definition with_domain (g : gtid_pos_t) (v : Z) : gtid_pos_t :=
  mkGTID v (server_id g) (gtid_seq g) (event_num g).
Definition with_server_id (g : gtid_pos_t) (v : Z) : gtid_pos_t :=
  mkGTID (domain g) v (gtid_seq g) (event_num g).
Definition with_seq (g : gtid_pos_t) (v : Z) : gtid_pos_t :=
  mkGTID (domain g) (server_id g) v (event_num g).

(** The loop of [extract_gtid_request].  [ptr] is the offset from [start].
    A number is converted only where a digit stands, so the value of
    [strtol] is not negative and is stored as it is.  The [switch] has no
    case for a fourth number: [end] is then not set and [ptr = end] reads
    an uninitialised pointer. *)
Fixpoint extract_gtid_loop (fuel : nat) (start : list byte) (len : Z) (ptr : nat)
    (read : Z) (gtid : gtid_pos_t) : result gtid_pos_t :=
  match fuel with
  | O => Unfinished
  | S fuel' =>
      if Z.of_nat ptr <? len then
        let here := drop ptr start in
        if negb (isdigit (peek here 0)) then
          extract_gtid_loop fuel' start len (S ptr) read gtid
        else
          let '(v, n) := strtol here in
          if read =? 0 then
            extract_gtid_loop fuel' start len (ptr + n) (read + 1) (with_domain gtid v)
          else if read =? 1 then
            extract_gtid_loop fuel' start len (ptr + n) (read + 1)
                              (with_server_id gtid v)
          else if read =? 2 then
            extract_gtid_loop fuel' start len (ptr + n) (read + 1) (with_seq gtid v)
          else Undefined
      else Done gtid
  end.

(** [extract_gtid_request]: every round moves at least one byte ahead, one
    round per byte and one more leave the loop. *)
Definition extract_gtid_request (gtid : gtid_pos_t) (start : list byte) (len : Z)
  : result gtid_pos_t :=
  extract_gtid_loop (S (Z.to_nat len)) start len 0 0 gtid.

(** The test of [get_avrofile_name] for a name with its version: a dot, a
    second dot after it, and something after that. *)
Definition has_version (avro_file : list byte) : bool :=
  match strchr avro_file "." with
  | Some i =>
      match strchr (drop (S i) avro_file) "." with
      | Some j => (0 <? length (drop (S i + S j) avro_file))%nat
      | None => false
      end
  | None => false
  end.

(** [get_avrofile_name]: the name stored in [dest] and the result, the
    offset from [file_ptr] of what follows the first space, if there is
    one.  The array [avro_file] has [data_len + 1] bytes, which has to be
    a positive number. *)
Definition get_avrofile_name (file_ptr : list byte) (data_len : Z)
  : result (list byte * option nat) :=
  let spaces := length (leading isspace file_ptr) in
  let data_len := data_len - Z.of_nat spaces in
  if data_len <? 0 then Undefined
  else
    let avro_file := c_string (peek_n (drop spaces file_ptr) 0 (Z.to_nat data_len)) in
    let '(avro_file, rval) :=
      match strchr avro_file " " with
      | Some k => (take k avro_file, Some (spaces + (k + 1))%nat)
      | None => (avro_file, None)
      end in
    let suffix := if has_version avro_file then ".avro" else ".000001.avro" in
    Done (snprintf AVRO_MAX_FILENAME_LEN (avro_file ++ list_byte_of_string suffix),
          rval).

(** The bytes of a file name in a request: no terminator, no white space. *)
Definition name_bytes (s : list byte) : Prop :=
  Forall (fun b => u8 b <> 0 /\ isspace b = false) s.

Definition dotless (s : list byte) : Prop :=
  Forall (fun b => Byte.eqb b "." = false) s.

(** [while (ptr > buffer && *(ptr) != '.') ptr--] *)
Fixpoint walk_back (buffer : list byte) (ptr : nat) : nat :=
  match ptr with
  | O => O
  | S p =>
      if Byte.eqb (peek buffer (Z.of_nat (S p))) "." then S p
      else walk_back buffer p
  end.

Definition INT_MAX : Z := 2 ^ 31 - 1.

(** [print_next_filename]: what is printed into [dest], [None] for a name
    without a dot.  A dot in the first place makes [ptr--] leave the array
    and [*ptr = '\0'] write before it; [filenum + 1] overflows for
    [INT_MAX]. *)
Definition print_next_filename (file dir : list byte) (len : nat)
  : result (option (list byte)) :=
  let buffer := c_string file in
  match strrchr buffer "." with
  | None => Done None
  | Some O => Undefined
  | Some (S k) =>
      let ptr := walk_back buffer k in
      let filenum := signed32 (strtol (drop (S ptr) buffer)).1 in
      if filenum =? INT_MAX then Undefined
      else
        Done (Some (snprintf len
                      (c_string dir ++ list_byte_of_string "/" ++ take ptr buffer
                       ++ list_byte_of_string "." ++ printf_06d (filenum + 1)
                       ++ list_byte_of_string ".avro")))
  end.

(** [avro_notify_client] *)
Definition avro_notify_client (client : AVRO_CLIENT) : AVRO_CLIENT * list effect :=
  (mkCLIENT (dcb client) (state client) (uuid client) (format client)
            (Z.land (cstate client) (Z.lnot AVRO_WAIT_DATA)),
   [PollFakeWriteEvent (dcb client)]).

Definition set_cstate (client : AVRO_CLIENT) (cs : Z) : AVRO_CLIENT :=
  mkCLIENT (dcb client) (state client) (uuid client) (format client) cs.

(** [avro_client_callback], the flags of [cstate].  [drained] is whether
    the reason is [DCB_REASON_DRAINED]; [read_more] is the result of
    [avro_client_stream_data] and [next_file] whether the file that
    [print_next_filename] names can be read.  What the streaming sends to
    the client is not part of the model. *)
Definition avro_client_callback (drained read_more next_file : bool)
    (client : AVRO_CLIENT) : AVRO_CLIENT * list effect :=
  if drained then
    if negb (Z.land (cstate client) AVRO_CS_BUSY =? 0) then (client, [])
    else
      let client := set_cstate client (Z.lor (cstate client) AVRO_CS_BUSY) in
      let client := set_cstate client (Z.land (cstate client) (Z.lnot AVRO_CS_BUSY)) in
      let client := set_cstate client (Z.lor (cstate client) AVRO_WAIT_DATA) in
      if next_file || read_more then avro_notify_client client
      else (client, [])
  else (client, []).

(** The fields of [AVRO_CLIENT] that a request for data sets, next to those
    of the registration. *)
Record CLIENT_SESSION := mkSESSION {
  ses_client : AVRO_CLIENT;
  avro_binfile : list byte;
  requested_gtid : bool;
  ses_gtid : gtid_pos_t;
  gtid_start : gtid_pos_t
}.

(** What [avro_client_process_command] asks of the descriptor besides
    writing to it. *)
Inductive dcb_call :=
  | DcbAddCallback (dcb : Z)
  | PollFakeWrite (dcb : Z).

(** [client->dcb->func.write(client->dcb, buffer)] *)
Definition dcb_write (d : DCB) (buffer : list byte) : DCB :=
  mkDCB (dcb_written d ++ [string_of_list_byte buffer]) (dcb_closed d).

Definition req_data : list byte := list_byte_of_string "REQUEST-DATA".

Section ProcessCommand.

(** The files of the Avro directory: [file_in_dir] for [router->avrodir],
    and the schema that [read_avro_json_schema] and
    [read_avro_binary_schema] read for a file, if any. *)
Variable file_in_dir : list byte -> bool.
Variable read_avro_json_schema : list byte -> option (list byte).
Variable read_avro_binary_schema : list byte -> option (list byte).

(** [avro_client_process_command]; [queue] is the bytes of the request
    buffer, [GWBUF_LENGTH] their number. *)
Definition avro_client_process_command (client : CLIENT_SESSION) (d : DCB)
    (queue : list byte) : result (CLIENT_SESSION * DCB * list dcb_call) :=
  let req_data_len := length req_data in
  match strstr (c_string queue) req_data with
  | Some command_ptr =>
      let file_ptr := drop (command_ptr + req_data_len) queue in
      let data_len := signed32 (Z.of_nat (length queue) - Z.of_nat req_data_len) in
      if 1 <? data_len then
        match get_avrofile_name file_ptr data_len with
        | Done (binfile, gtid_ptr) =>
            let requested :=
              match gtid_ptr with
              | Some off =>
                  match extract_gtid_request (ses_gtid client) (drop off file_ptr)
                                             (data_len - Z.of_nat off) with
                  | Done g =>
                      Done (mkSESSION (ses_client client) binfile true g g)
                  | Undefined => Undefined
                  | Unfinished => Unfinished
                  end
              | None =>
                  Done (mkSESSION (ses_client client) binfile
                                  (requested_gtid client) (ses_gtid client)
                                  (gtid_start client))
              end in
            match requested with
            | Done client =>
                if file_in_dir (avro_binfile client) then
                  let schema :=
                    match format (ses_client client) with
                    | AVRO_FORMAT_JSON => read_avro_json_schema (avro_binfile client)
                    | AVRO_FORMAT_AVRO => read_avro_binary_schema (avro_binfile client)
                    | AVRO_FORMAT_UNDEFINED => None
                    end in
                  let d := match schema with
                           | Some buffer => dcb_write d buffer
                           | None => d
                           end in
                  Done (client, d,
                        [DcbAddCallback (dcb (ses_client client));
                         PollFakeWrite (dcb (ses_client client))])
                else
                  Done (client,
                        dcb_printf d ("ERR NO-FILE File '"
                                      ++ string_of_list_byte (avro_binfile client)
                                      ++ "' not found."),
                        [])
            | Undefined => Undefined
            | Unfinished => Unfinished
            end
        | Undefined => Undefined
        | Unfinished => Unfinished
        end
      else Done (client, dcb_printf d "ERR REQUEST-DATA with no data", [])
  | None =>
      Done (client, dcb_write d (list_byte_of_string "ECHO:" ++ queue), [])
  end.

End ProcessCommand.

End ClientRequest.

(** ** The stored conversion state (avro_file.c) *)

Module ConversionState.
Import Bytes Binlog Router Rbr AvroFile CLib.

Definition statefile_section : string := "avro-conversion".

(** [strcmp(a, b) == 0] *)
Definition streq (a : list byte) (b : string) : bool :=
  bytes_eqb (c_string a) (list_byte_of_string b).

(** The lines that [avro_save_conversion_state] prints after the section
    header, as key and value. *)
Definition conversion_state_lines (router : AVRO_INSTANCE)
  : list (list byte * list byte) :=
  [(list_byte_of_string "position", fmt_lu (current_pos router));
   (list_byte_of_string "gtid",
    fmt_lu (domain (gtid router)) ++ list_byte_of_string "-"
      ++ fmt_lu (server_id (gtid router)) ++ list_byte_of_string "-"
      ++ fmt_lu (gtid_seq (gtid router)) ++ list_byte_of_string ":"
      ++ fmt_lu (event_num (gtid router)));
   (list_byte_of_string "file", list_byte_of_string (binlog_name router))].

(** The delimiters [":-\n"] of the parts of a stored GTID. *)
Definition gtid_delimiters : list byte := [Byte.x3a; Byte.x2d; Byte.x0a].

Definition is_gtid_delimiter (b : byte) : bool :=
  existsb (Byte.eqb b) gtid_delimiters.

(** [conv_state_handler]: the value returned and the router.  When the
    GTID has three parts and no fourth, [strtol] is called with NULL.
    [binlog_name] is an array of [BINLOG_FNAMELEN + 1] bytes filled by
    [strncpy]: a longer value is cut there (and the array is left without
    a terminator). *)
Definition conv_state_handler (router : AVRO_INSTANCE) (section key value : list byte)
  : result (Z * AVRO_INSTANCE) :=
  if streq section statefile_section then
    if streq key "gtid" then
      let tempval := c_string value in
      let tok1 := strtok_r tempval gtid_delimiters in
      let tok2 := tok ← tok1; strtok_r tok.2 gtid_delimiters in
      let tok3 := tok ← tok2; strtok_r tok.2 gtid_delimiters in
      let tok4 := tok ← tok3; strtok_r tok.2 gtid_delimiters in
      match tok1, tok2, tok3 with
      | Some (domain, _), Some (serv_id, _), Some (seq, _) =>
          match tok4 with
          | Some (subseq, _) =>
              Done (1, with_gtid router
                         (mkGTID (strtol domain).1 (strtol serv_id).1
                                 (strtol seq).1 (strtol subseq).1))
          | None => Undefined
          end
      | _, _, _ => Done (1, router)
      end
    else if streq key "position" then
      Done (1, with_positions router (binlog_position router)
                 (wrap64 (strtol value).1))
    else if streq key "file" then
      Done (1, with_binlog_name router
                 (string_of_list_byte
                    (take (Z.to_nat (BINLOG_FNAMELEN + 1)) (c_string value))))
    else Done (0, router)
  else Done (1, router).

(** [ini_parse] with this handler, for the lines of one section in their
    order.  [stop_on_error] is whether the parser was built to stop at the
    first line for which the handler returns 0. *)
Fixpoint handle_lines (stop_on_error : bool) (router : AVRO_INSTANCE)
    (section : list byte) (lines : list (list byte * list byte))
  : result AVRO_INSTANCE :=
  match lines with
  | [] => Done router
  | (key, value) :: rest =>
      match conv_state_handler router section key value with
      | Done (rc, router') =>
          if (rc =? 0) && stop_on_error then Done router'
          else handle_lines stop_on_error router' section rest
      | Undefined => Undefined
      | Unfinished => Unfinished
      end
  end.

End ConversionState.

(** ** More concrete inputs *)

Module MoreFixtures.
Import Bytes Binlog MysqlBinlog Router Rbr AvroFile AvroClient MaxAvro.
Import MaxAvroBlocks CLib ClientRequest ConversionState Fixtures.

(** A router that has seen no CREATE at all. *)
Definition router_blank : AVRO_INSTANCE :=
  with_created (router_created 0) ∅ ∅.

(** The six bytes of the table ids 42 and 43. *)
Definition id_42 : list byte :=
  [Byte.x2a; Byte.x00; Byte.x00; Byte.x00; Byte.x00; Byte.x00].



(** Table [d.t] as a CREATE without columns left it, mapped with id 42. *)
Definition create_empty : TABLE_CREATE := mkCREATE 0 [] "t" "d" 1.

Definition map_empty : TABLE_MAP :=
  mkMAP 42 0 [] [] (Some create_empty) 1 "t" "d".

Definition router_empty : AVRO_INSTANCE :=
  with_maps (with_created (router_created 0) ∅ {[ "d.t"%string := create_empty ]})
            (<[42%nat := Some map_empty]> (replicate 1024 None))
            {[ "d.t"%string := map_empty ]} {[ "d.t"%string := table_d_t ]}.

(** The payload of a WRITE_ROWS_EVENTv1 for table id 42 that names no
    column and has one more byte. *)
Definition no_column_payload : list byte :=
  id_42 ++ [Byte.x00; Byte.x00; Byte.x00; Byte.x00].

Definition no_column_hdr : REP_HEADER :=
  mkHDR 1000 WRITE_ROWS_EVENTv1 1 (19 + 10) 33 0.

(** A binlog file with that event at offset 4. *)
Definition no_column_binlog : list byte :=
  BINLOG_MAGIC ++ event_header WRITE_ROWS_EVENTv1 (19 + 10) 33 ++ no_column_payload.




(** 2016-05-17 10:20:30 as DATETIME2, 2016-05-17 as DATE, 10:20:30 as
    TIME. *)
Definition datetime2_bytes : list byte :=
  [Byte.x99; Byte.x99; Byte.x62; Byte.xa5; Byte.x1e].
Definition date_bytes : list byte := [Byte.xb1; Byte.xc0; Byte.x0f].
Definition time_bytes : list byte := [Byte.x01; Byte.x8e; Byte.x8e].

(** A reader of the file that the flushed stream [written] has left on
    the device, standing where the last sync marker begins. *)
Definition reader_at_sync (written : FILE) (marker : list byte) : MAXAVRO_READER :=
  mkREADER (mkAVROFILE (mkFILE (f_data written)
                               (f_pos written - SYNC_MARKER_SIZE) 0 [] 0)
                       marker)
           7 0 100.





End MoreFixtures.

(** ** Proof automation *)

(** Case analysis on a column type, one type constant after the other. *)
Ltac split_type type :=
  repeat match goal with
         | |- context [type =? ?c] =>
             destruct (Z.eqb_spec type c) as [->|?]; [by vm_compute|]
         end.

(** * Properties *)

(** ** Bytes *)

Section BytesFacts.
Import Bytes.

Lemma u8_range (b : byte) : 0 <= u8 b < 256.
Proof. unfold u8. pose proof (Byte.to_N_bounded b) as H. lia. Qed.

Lemma le_value_nonneg (bs : list byte) : 0 <= le_value bs.
Proof.
  induction bs as [|b bs IH]; simpl; [lia|].
  pose proof (u8_range b). lia.
Qed.

Lemma wrap64_nonneg (z : Z) : 0 <= wrap64 z.
Proof. unfold wrap64. apply Z.mod_pos_bound. lia. Qed.

Lemma wrap64_small (z : Z) : 0 <= z < 2 ^ 64 -> wrap64 z = z.
Proof. intros H. unfold wrap64. by apply Z.mod_small. Qed.

End BytesFacts.

(** ** Datablocks of the Avro writer *)
Section MaxAvroFacts.
Import Bytes MaxAvro.

Lemma cut_to_full (d : list byte) : cut_to (length d) d = d.
Proof.
  unfold cut_to. rewrite firstn_all, Nat.sub_diag. simpl. by rewrite app_nil_r.
Qed.

(** The part of [store_at] in front of the bytes stored has [pos] bytes. *)
Lemma store_at_front (data : list byte) (pos : nat) :
  length (take pos data ++ replicate (pos - length data) Byte.x00) = pos.
Proof. rewrite length_app, length_take, length_replicate. lia. Qed.

Lemma store_at_cons (data : list byte) (pos : nat) (bs : list byte) :
  bs <> [] ->
  store_at data pos bs
  = take pos data ++ replicate (pos - length data) Byte.x00 ++ bs
      ++ drop (pos + length bs) data.
Proof. by destruct bs. Qed.

(** Two writes one after the other are one write of both. *)
Lemma store_at_store_at (data : list byte) (pos : nat) (a b : list byte) :
  store_at (store_at data pos a) (pos + length a) b = store_at data pos (a ++ b).
Proof.
  destruct (decide (b = [])) as [->|Hb]; [by rewrite app_nil_r|].
  destruct (decide (a = [])) as [->|Ha]; [by rewrite Nat.add_0_r|].
  rewrite (store_at_cons _ _ b), (store_at_cons _ _ (a ++ b)) by (by destruct a).
  set (P := take pos data ++ replicate (pos - length data) Byte.x00).
  assert (HP : length P = pos) by apply store_at_front.
  assert (HX : store_at data pos a = (P ++ a) ++ drop (pos + length a) data).
  { rewrite store_at_cons by done. subst P. by rewrite <- !app_assoc. }
  rewrite HX.
  assert (Hlen : length (P ++ a) = (pos + length a)%nat)
    by (rewrite length_app; lia).
  rewrite take_app_length' by done.
  replace (pos + length a - length ((P ++ a) ++ drop (pos + length a) data))%nat
    with 0%nat by (rewrite length_app; lia).
  replace (pos + length a + length b)%nat
    with (length (P ++ a) + length b)%nat by lia.
  rewrite drop_app_add', drop_drop by done.
  cbn [replicate app].
  rewrite length_app, Nat.add_assoc. subst P. by rewrite <- !app_assoc.
Qed.

Lemma store_at_end (data bs : list byte) :
  store_at data (length data) bs = data ++ bs.
Proof.
  destruct (decide (bs = [])) as [->|Hb]; [by rewrite app_nil_r|].
  rewrite store_at_cons by done.
  rewrite firstn_all, Nat.sub_diag, drop_ge by lia.
  cbn [replicate app]. by rewrite app_nil_r.
Qed.

(** A [write] that the device takes whole. *)
Lemma device_write_all (bs : list byte) (f : FILE) :
  (length bs <= f_space f)%nat ->
  device_write bs f
  = (length bs, mkFILE (store_at (f_data f) (f_pos f) bs) (f_pos f + length bs)
                       (f_space f - length bs) (f_buffered f) (f_bufsize f)).
Proof.
  intros H. unfold device_write. rewrite Nat.min_l by done.
  by rewrite firstn_all.
Qed.

Lemma device_write_count (bs : list byte) (f : FILE) :
  (device_write bs f).1 = Nat.min (length bs) (f_space f).
Proof. reflexivity. Qed.

(** Bytes that fit into the buffer stay there. *)
Lemma fwrite_fits (bs : list byte) (f : FILE) :
  (length (f_buffered f) + length bs <= f_bufsize f)%nat ->
  fwrite bs f = (length bs, with_buffered f (f_buffered f ++ bs)).
Proof.
  intros H. unfold fwrite.
  destruct (Nat.leb_spec (length bs) (f_bufsize f - length (f_buffered f)));
    [done|lia].
Qed.

(** A flush that succeeds leaves on the device what the program has
    written. *)
Lemma fflush_view (f f' : FILE) :
  fflush f = (true, f') ->
  f_data f' = stream_view f /\ f_pos f' = ftell f /\ f_buffered f' = []
  /\ f_bufsize f' = f_bufsize f.
Proof.
  unfold fflush, device_write, stream_view, ftell.
  destruct (Nat.eqb_spec (Nat.min (length (f_buffered f)) (f_space f))
                         (length (f_buffered f))) as [Hn|]; [|discriminate].
  intros E. injection E as <-. cbn [with_buffered f_data f_pos f_buffered f_bufsize].
  by rewrite Hn, firstn_all.
Qed.

(** A write that the stream counts in full has put its bytes where the
    stream stood, in the buffer or on the device. *)
Lemma fwrite_view (bs : list byte) (f f' : FILE) :
  fwrite bs f = (length bs, f') ->
  stream_view f' = store_at (stream_view f) (ftell f) bs
  /\ ftell f' = (ftell f + length bs)%nat
  /\ f_bufsize f' = f_bufsize f.
Proof.
  unfold fwrite, stream_view, ftell.
  set (room := (f_bufsize f - length (f_buffered f))%nat).
  destruct (Nat.leb_spec (length bs) room) as [Hfit|Hover].
  - intros E. injection E as <-.
    cbn [with_buffered f_data f_pos f_buffered f_bufsize].
    rewrite store_at_store_at, length_app. split; [done|]. split; [lia|done].
  - unfold fflush, device_write.
    cbn [with_buffered f_data f_pos f_buffered f_bufsize f_space].
    set (pending := f_buffered f ++ take room bs).
    destruct (Nat.eqb_spec (Nat.min (length pending) (f_space f)) (length pending))
      as [Hn|]; cbn [negb].
    2: { intros E. injection E as E _. lia. }
    rewrite Hn, firstn_all.
    set (rest := drop room bs).
    set (direct := if (128 <=? f_bufsize f)%nat
                   then (length rest - length rest mod f_bufsize f)%nat
                   else length rest).
    assert (Hdirect : (direct <= length rest)%nat).
    { subst direct. destruct (128 <=? f_bufsize f)%nat; lia. }
    assert (Htake : length (take direct rest) = direct)
      by (rewrite length_take; lia).
    rewrite Htake.
    destruct (Nat.ltb_spec (Nat.min direct (f_space f - length pending)) direct)
      as [Hshort|Hall].
    { intros E. injection E as E _.
      assert (length rest = (length bs - room)%nat)
        by (subst rest; apply length_drop).
      lia. }
    intros E. injection E as <-.
    cbn [with_buffered f_data f_pos f_buffered f_bufsize].
    replace (Nat.min direct (f_space f - length pending)) with direct by lia.
    rewrite (take_ge (take direct rest)) by lia.
    assert (Hrest : length rest = (length bs - room)%nat)
      by (subst rest; apply length_drop).
    assert (Hpend : length pending = (length (f_buffered f) + room)%nat).
    { subst pending. rewrite length_app, length_take. lia. }
    split.
    + rewrite !store_at_store_at.
      replace (f_pos f + length pending + direct)%nat
        with (f_pos f + length (pending ++ take direct rest))%nat
        by (rewrite length_app; lia).
      rewrite store_at_store_at. f_equal.
      subst pending rest. by rewrite <- !app_assoc, !take_drop.
    + split; [|done]. rewrite length_drop. lia.
Qed.

(** A write never counts more bytes than it was given. *)
Lemma fwrite_count_le (bs : list byte) (f : FILE) :
  ((fwrite bs f).1 <= length bs)%nat.
Proof.
  unfold fwrite.
  set (room := (f_bufsize f - length (f_buffered f))%nat).
  destruct (Nat.leb_spec (length bs) room) as [Hfit|Hover]; cbn [fst]; [lia|].
  destruct (fflush _) as [ok fa]. destruct ok; cbn [negb fst]; [|lia].
  set (rest := drop room bs).
  assert (Hrest : length rest = (length bs - room)%nat)
    by (subst rest; apply length_drop).
  set (direct := if (128 <=? f_bufsize f)%nat
                 then (length rest - length rest mod f_bufsize f)%nat
                 else length rest).
  assert (Hdirect : (direct <= length rest)%nat).
  { subst direct. destruct (128 <=? f_bufsize f)%nat; lia. }
  destruct (device_write _ fa) as [n fb].
  destruct (Nat.ltb_spec n direct); cbn [fst]; lia.
Qed.

Lemma write_integer_view (f f' : FILE) (val : Z) :
  maxavro_write_integer f val = (true, f') ->
  stream_view f' = store_at (stream_view f) (ftell f) (maxavro_encode_integer val)
  /\ ftell f' = (ftell f + length (maxavro_encode_integer val))%nat
  /\ f_bufsize f' = f_bufsize f.
Proof.
  unfold maxavro_write_integer.
  destruct (fwrite _ f) as [n f1] eqn:E.
  destruct (Nat.eqb_spec n (length (maxavro_encode_integer val))) as [->|];
    [|discriminate].
  intros E'. injection E' as <-. by apply fwrite_view.
Qed.

Lemma buffer_read_length (block : MAXAVRO_DATABLOCK) (n : nat) :
  length (buffer_read block n).1 = n.
Proof.
  unfold buffer_read. cbn [fst]. rewrite length_app, length_take, length_replicate.
  lia.
Qed.

(** A read of bytes that were stored, from memory that is valid, gives
    them and leaves the memory valid. *)
Lemma buffer_read_valid (block : MAXAVRO_DATABLOCK) (n : nat) :
  heap block = HeapValid -> (n <= length (buffer block))%nat ->
  buffer_read block n = (take n (buffer block), HeapValid).
Proof.
  intros Hheap Hn. unfold buffer_read. rewrite Hheap.
  replace (n - length (buffer block))%nat with 0%nat by lia.
  cbn [replicate]. rewrite app_nil_r.
  destruct (Nat.leb_spec n (length (buffer block))); [|lia].
  by destruct (n =? 0)%nat.
Qed.

(** A successful finalization sets [buffersize] and [records] to zero and
    leaves [datasize] and the buffer as they were. *)
Lemma finalize_success_shape (block block' : MAXAVRO_DATABLOCK) :
  maxavro_datablock_finalize block = (true, block') ->
  records block' = 0 /\ buffersize block' = 0
  /\ datasize block' = datasize block /\ buffer block' = buffer block.
Proof.
  unfold maxavro_datablock_finalize.
  destruct (maxavro_write_integer _ (records block)) as [ok1 f1].
  destruct (if ok1 then _ else _) as [ok2 f2].
  destruct (if ok2 then _ else _) as [[ok3 f3] heap3].
  destruct (if ok3 then _ else _) as [ok4 f4].
  destruct ok4; intros E; [|discriminate].
  by inversion E; subst.
Qed.

(** A successful finalization has put the bytes of the block where the
    stream stood, in its buffer or on the device. *)
Lemma finalize_success_view (block block' : MAXAVRO_DATABLOCK) :
  maxavro_datablock_finalize block = (true, block') ->
  let f := file (avrofile block) in
  let f' := file (avrofile block') in
  stream_view f' = store_at (stream_view f) (ftell f) (block_bytes block)
  /\ ftell f' = (ftell f + length (block_bytes block))%nat
  /\ length (take SYNC_MARKER_SIZE (sync (avrofile block))) = SYNC_MARKER_SIZE
  /\ sync (avrofile block') = sync (avrofile block)
  /\ heap block' = (buffer_read block (Z.to_nat (datasize block))).2.
Proof.
  unfold maxavro_datablock_finalize, block_bytes.
  set (f0 := file (avrofile block)).
  destruct (maxavro_write_integer f0 (records block)) as [ok1 f1] eqn:E1.
  destruct ok1.
  2: { intros E. discriminate E. }
  destruct (write_integer_view _ _ _ E1) as (V1 & T1 & _).
  destruct (maxavro_write_integer f1 (datasize block)) as [ok2 f2] eqn:E2.
  destruct ok2.
  2: { intros E. discriminate E. }
  destruct (write_integer_view _ _ _ E2) as (V2 & T2 & _).
  destruct (buffer_read block (Z.to_nat (datasize block))) as [payload heap'] eqn:Er.
  assert (Hpay : length payload = Z.to_nat (datasize block)).
  { pose proof (buffer_read_length block (Z.to_nat (datasize block))) as H.
    by rewrite Er in H. }
  destruct (fwrite payload f2) as [n3 f3] eqn:E3.
  destruct (Z.eqb_spec (Z.of_nat n3) (datasize block)) as [H3|].
  2: { intros E. discriminate E. }
  assert (n3 = length payload) by lia. subst n3.
  destruct (fwrite_view _ _ _ E3) as (V3 & T3 & _).
  destruct (fwrite (take SYNC_MARKER_SIZE (sync (avrofile block))) f3)
    as [n4 f4] eqn:E4.
  destruct (Nat.eqb_spec n4 SYNC_MARKER_SIZE) as [H4|].
  2: { intros E. discriminate E. }
  assert (Hsync : length (take SYNC_MARKER_SIZE (sync (avrofile block)))
                  = SYNC_MARKER_SIZE).
  { pose proof (fwrite_count_le (take SYNC_MARKER_SIZE (sync (avrofile block))) f3)
      as Hc.
    rewrite E4 in Hc. cbn [fst] in Hc. subst n4.
    rewrite length_take in Hc |- *. lia. }
  assert (E4' : fwrite (take SYNC_MARKER_SIZE (sync (avrofile block))) f3
                = (length (take SYNC_MARKER_SIZE (sync (avrofile block))), f4))
    by (rewrite Hsync, E4; by f_equal).
  destruct (fwrite_view _ _ _ E4') as (V4 & T4 & _).
  intros E. injection E as <-. cbn [file avrofile sync heap].
  rewrite V4, V3, V2, V1, T3, T2, T1, !store_at_store_at.
  cbn [fst snd]. split; [done|]. split; [|done].
  rewrite T4, T3, T2, T1, !length_app. lia.
Qed.

(** A finalization whose bytes all fit into the buffer of the stream
    succeeds without a byte going to the device. *)
Lemma finalize_buffered (block : MAXAVRO_DATABLOCK) :
  let f := file (avrofile block) in
  0 <= datasize block ->
  (SYNC_MARKER_SIZE <= length (sync (avrofile block)))%nat ->
  (length (f_buffered f) + length (block_bytes block) <= f_bufsize f)%nat ->
  maxavro_datablock_finalize block
  = (true,
     mkBLOCK (mkAVROFILE (with_buffered f (f_buffered f ++ block_bytes block))
                         (sync (avrofile block)))
             (buffer block) 0 (datasize block) 0
             (buffer_read block (Z.to_nat (datasize block))).2).
Proof.
  intros f Hsize Hsync Hfit. unfold maxavro_datablock_finalize, block_bytes in *.
  fold f. rewrite !length_app in Hfit.
  unfold maxavro_write_integer.
  rewrite fwrite_fits by lia. rewrite Nat.eqb_refl.
  rewrite fwrite_fits
    by (cbn [with_buffered f_buffered f_bufsize]; rewrite length_app; lia).
  rewrite Nat.eqb_refl.
  destruct (buffer_read block (Z.to_nat (datasize block))) as [payload heap'] eqn:Er.
  cbn [fst snd] in *.
  assert (Hpay : length payload = Z.to_nat (datasize block)).
  { pose proof (buffer_read_length block (Z.to_nat (datasize block))) as H.
    by rewrite Er in H. }
  rewrite fwrite_fits
    by (cbn [with_buffered f_buffered f_bufsize]; rewrite !length_app; lia).
  rewrite Hpay, Z2Nat.id, Z.eqb_refl by done.
  assert (Hmark : length (take SYNC_MARKER_SIZE (sync (avrofile block)))
                  = SYNC_MARKER_SIZE) by (rewrite length_take; lia).
  rewrite fwrite_fits
    by (cbn [with_buffered f_buffered f_bufsize]; rewrite !length_app; lia).
  rewrite Hmark, Nat.eqb_refl.
  unfold with_buffered. cbn [f_data f_pos f_space f_buffered f_bufsize].
  by rewrite <- !app_assoc.
Qed.

(** A finalization whose bytes fit into the buffer of the stream does not
    see a write fail.  On a device that has no room for the whole block it
    returns true all the same, truncates nothing and resets the block;
    when the stream is flushed later, the device takes the bytes it has
    room for: the file ends in a part of the block. *)
Lemma buffered_finalize_hides_write_failure (block : MAXAVRO_DATABLOCK) :
  let f := file (avrofile block) in
  heap block = HeapValid ->
  datasize block = Z.of_nat (length (buffer block)) ->
  (SYNC_MARKER_SIZE <= length (sync (avrofile block)))%nat ->
  f_buffered f = [] ->
  f_pos f = length (f_data f) ->
  (length (block_bytes block) <= f_bufsize f)%nat ->
  (0 < f_space f < length (block_bytes block))%nat ->
  exists (block' : MAXAVRO_DATABLOCK) (f' : FILE),
    maxavro_datablock_finalize block = (true, block')
    /\ records block' = 0
    /\ f_data (file (avrofile block')) = f_data f
    /\ fflush (file (avrofile block')) = (false, f')
    /\ f_data f' = f_data f ++ take (f_space f) (block_bytes block)
    /\ (length (f_data f) < length (f_data f')
        < length (f_data f) + length (block_bytes block))%nat.
Proof.
  intros f Hheap Hsize Hsync Hbuf Hpos Hfit Hspace.
  pose proof (finalize_buffered block) as Hfin. cbv zeta in Hfin. fold f in Hfin.
  rewrite Hbuf in Hfin. cbn [app length] in Hfin.
  rewrite Hfin by (done || lia). clear Hfin.
  eexists. eexists. split; [reflexivity|].
  cbn [records file avrofile with_buffered f_data].
  split; [done|]. split; [done|].
  unfold fflush, device_write.
  cbn [with_buffered f_data f_pos f_space f_buffered f_bufsize].
  rewrite Nat.min_r by lia.
  destruct (Nat.eqb_spec (f_space f) (length (block_bytes block))); [lia|].
  split; [reflexivity|]. cbn [f_data].
  rewrite Hpos, store_at_end. split; [done|].
  cbn [with_buffered f_data]. rewrite length_app, length_take. lia.
Qed.

(** C5: the block of one record of two bytes takes twenty bytes in the
    file.  On a stream with a buffer of 4096 bytes that stands at the end
    of a file of three bytes, over a device that accepts five more, the
    finalization returns true: the writes have failed for nobody yet, the
    file is as it was, and the block is reset.  The flush of the stream
    then fails, and leaves in the file the three bytes and the first five
    of the block: a partial block, and a size that is not the one from
    before the finalization. *)
Theorem finalize_write_failure_goes_unnoticed :
  exists (block' : MAXAVRO_DATABLOCK) (f' : FILE),
    maxavro_datablock_finalize (Fixtures.one_record_block 5) = (true, block')
    /\ records block' = 0
    /\ f_data (file (avrofile block')) = [Byte.x01; Byte.x02; Byte.x03]
    /\ fflush (file (avrofile block')) = (false, f')
    /\ f_data f' = [Byte.x01; Byte.x02; Byte.x03]
                     ++ [Byte.x02; Byte.x04; Byte.x02; Byte.x14; Byte.xaa]
    /\ length (block_bytes (Fixtures.one_record_block 5)) = 20%nat
    /\ (3 < length (f_data f') < 3 + 20)%nat.
Proof.
  destruct (buffered_finalize_hides_write_failure (Fixtures.one_record_block 5))
    as (block' & f' & Hfin & Hrec & Hdata & Hflush & Hdata' & Hlen).
  - reflexivity.
  - reflexivity.
  - vm_compute. lia.
  - reflexivity.
  - reflexivity.
  - vm_compute. lia.
  - vm_compute. lia.
  - exists block', f'. split; [exact Hfin|]. split; [exact Hrec|].
    split; [exact Hdata|]. split; [exact Hflush|]. split; [exact Hdata'|].
    split; [reflexivity|exact Hlen].
Qed.

(** The same block on a stream without a buffer, positioned after the
    third of ten bytes: the short write is seen, and the truncation cuts
    the file at the position of the stream, seven bytes that were not
    part of the block with it. *)
Lemma finalize_failure_in_mid_file :
  let block :=
    mkBLOCK (mkAVROFILE (mkFILE (replicate 10 Byte.x01) 3 5 [] 0)
                        (replicate 16 Byte.xaa))
            [Byte.x02; Byte.x14] 16 2 1 HeapValid in
  exists block',
    maxavro_datablock_finalize block = (false, block')
    /\ f_data (file (avrofile block')) = replicate 3 Byte.x01.
Proof. eexists. split; vm_compute; reflexivity. Qed.

(** C6: the finalization of a block of one record of two bytes succeeds
    and resets [records], but what it sets to zero next to it is
    [buffersize]: [datasize] is still 2, so the two bytes are part of the
    payload of the next finalization as well. *)
Theorem finalize_success_keeps_datasize :
  exists block' : MAXAVRO_DATABLOCK,
    maxavro_datablock_finalize (Fixtures.one_record_block 1000) = (true, block')
    /\ records block' = 0
    /\ buffersize block' = 0
    /\ datasize block' = 2
    /\ datasize block' <> 0
    /\ buffer block' = [Byte.x02; Byte.x14].
Proof.
  eexists. split; [vm_compute; reflexivity|].
  cbn [records buffersize datasize buffer]. repeat split; lia.
Qed.

Lemma emit_groups_length (fuel : nat) (v : Z) :
  (length (emit_groups fuel v) <= fuel)%nat.
Proof.
  revert v. induction fuel as [|fuel IH]; intros v; simpl; [lia|].
  destruct (v <=? 127); simpl; [lia|]. specialize (IH (Z.shiftr v 7)). lia.
Qed.

Lemma encode_string_length (str : list byte) :
  (length str <= length (maxavro_encode_string str) <= 10 + length str)%nat.
Proof.
  unfold maxavro_encode_string, maxavro_encode_integer.
  rewrite length_app.
  pose proof (emit_groups_length 10 (encode_long (Z.of_nat (length str)))). lia.
Qed.

(** One doubling is all [maxavro_datablock_add_string] asks for: a string
    longer than twice the buffer is handed to the encoder all the same,
    the size of the data ends up beyond the size of the buffer and the
    memory after the buffer has been overrun. *)
Lemma add_string_long_overflows (block : MAXAVRO_DATABLOCK) (str : list byte) :
  0 <= datasize block -> 0 < buffersize block ->
  datasize block + 10 + Z.of_nat (length str) < 2 ^ 64 ->
  2 * buffersize block < Z.of_nat (length str) ->
  exists block',
    maxavro_datablock_add_string true block str = (true, block')
    /\ buffersize block' = 2 * buffersize block
    /\ buffersize block' < datasize block'
    /\ heap block' = HeapBroken.
Proof.
  intros Hd Hb Hfit Hlong.
  unfold maxavro_datablock_add_string, datablock_add, reallocate_datablock.
  rewrite (wrap64_small (datasize block + 9 + _)) by lia.
  destruct (Z.leb_spec (buffersize block) (datasize block + 9 + Z.of_nat (length str)));
    [|lia].
  rewrite (wrap64_small (buffersize block * 2)) by lia.
  destruct (Z.eqb_spec (buffersize block * 2) 0); [lia|].
  eexists. split; [reflexivity|].
  unfold store_encoded. cbn [buffersize datasize heap buffer].
  pose proof (encode_string_length str) as Hlen.
  rewrite wrap64_small by lia.
  split; [lia|]. split; [lia|].
  destruct (Z.leb_spec (datasize block + Z.of_nat (length (maxavro_encode_string str)))
                       (buffersize block * 2)); [lia|].
  by destruct (heap block).
Qed.

(** C10: appending a string of 40 bytes to an empty block with a buffer of
    16 bytes returns true; the buffer has been doubled once, to 32 bytes,
    and the 41 encoded bytes are counted in [datasize], past the end of it. *)
Theorem add_string_overflows_buffer :
  exists block' : MAXAVRO_DATABLOCK,
    maxavro_datablock_add_string true Fixtures.empty_block (replicate 40 Byte.x61)
      = (true, block')
    /\ buffersize block' = 32
    /\ datasize block' = 41
    /\ ~ datasize block' <= buffersize block'.
Proof.
  eexists. split; [vm_compute; reflexivity|].
  cbn [buffersize datasize]. repeat split; lia.
Qed.

End MaxAvroFacts.

(** ** Row events *)


Section RbrFacts.
Import Bytes Binlog MysqlBinlog Router Rbr.

Lemma leint_consume_bounds (ptr : list byte) :
  0 <= (leint_consume ptr).1 /\ 1 <= (leint_consume ptr).2.
Proof.
  unfold leint_consume. pose proof (u8_range (peek ptr 0)).
  repeat case_match; cbn [fst snd]; split; try lia; apply le_value_nonneg.
Qed.

Lemma temporal_field_size_nonneg (type : Z) (decimals : byte) :
  0 <= temporal_field_size type (u8 decimals).
Proof.
  unfold temporal_field_size. pose proof (u8_range decimals).
  repeat case_match; try lia;
    assert (0 <= (u8 decimals + 1) / 2) by (apply Z.div_pos; lia); lia.
Qed.

(** No column moves the read position backwards, and decoding never fails
    to return. *)
Lemma unpack_column_consumed (map : TABLE_MAP) (buf : list byte)
    (type ptr metadata_offset extra_bits : Z) :
  match unpack_column map buf type ptr metadata_offset extra_bits with
  | Ret (_, consumed, _) => 0 <= consumed
  | Diverges => False
  | _ => True
  end.
Proof.
  unfold unpack_column.
  set (here := drop (Z.to_nat ptr) buf).
  set (metadata := drop (Z.to_nat metadata_offset) (column_metadata map)).
  pose proof (u8_range (peek metadata 0)).
  pose proof (u8_range (peek metadata 1)).
  pose proof (u8_range (peek here 0)).
  assert (Hv : forall c f e,
             0 <= c ->
             match (if inside buf ptr c then Ret (f, c, e)
                    else OutOfBuffer (Z.of_nat (length buf)))
                   : outcome (option avro_field * Z * Z) with
             | Ret (_, consumed, _) => 0 <= consumed
             | Diverges => False
             | _ => True
             end).
  { intros c f e Hc. by destruct (inside buf ptr c). }
  destruct (column_is_fixed_string type).
  { destruct (inside (column_metadata map) metadata_offset 1); [|done].
    destruct (fixed_string_is_enum _).
    - destruct (inside (column_metadata map) metadata_offset 2); [|done].
      unfold unpack_enum. destruct (u8 (peek metadata 1) =? 0); [done|].
      apply Hv. lia.
    - destruct (inside buf ptr 1); [|done]. apply Hv. lia. }
  destruct (column_is_bit type).
  { destruct (inside (column_metadata map) metadata_offset 2); [|done].
    apply Hv. apply Z.div_pos; lia. }
  destruct (column_is_variable_string type).
  { unfold lestr_consume. pose proof (leint_consume_bounds here) as [? ?].
    destruct (leint_consume here) as [sz n]. cbn [fst snd] in *.
    destruct (inside buf ptr n && _); [|done]. apply Hv. lia. }
  destruct (column_is_blob type).
  { destruct (inside (column_metadata map) metadata_offset 1); [|done].
    destruct (8 <? u8 (peek metadata 0)); [done|].
    destruct (inside buf ptr (u8 (peek metadata 0))); [|done].
    apply Hv.
    pose proof (le_value_nonneg (peek_n here 0 (Z.to_nat (u8 (peek metadata 0))))).
    lia. }
  destruct (column_is_temporal type).
  { destruct (inside (column_metadata map) metadata_offset 1); [|done].
    unfold unpack_temporal_value. apply Hv. apply temporal_field_size_nonneg. }
  unfold unpack_numeric_field. apply Hv. repeat case_match; lia.
Qed.

Lemma set_field_event_type (record : avro_value) (name : string)
    (v : option avro_field) :
  event_type (set_field record name v) = event_type record.
Proof. by destruct v. Qed.

(** A column leaves the event type of the record alone and does not move
    the read position backwards. *)
Lemma process_column_keeps (map : TABLE_MAP) (create : TABLE_CREATE)
    (buf columns_present : list byte) (null_bitmap : Z) (st : row_state) (i : Z) :
  match process_column map create buf columns_present null_bitmap st i with
  | Ret st' => event_type (rs_record st') = event_type (rs_record st)
               /\ rs_ptr st <= rs_ptr st'
  | Diverges => False
  | _ => True
  end.
Proof.
  unfold process_column.
  destruct ((i <? tm_columns map) && (rs_npresent st <? tm_columns map));
    [|split; [done|lia]].
  destruct (bit_is_set columns_present i); [|split; [done|lia]].
  destruct (_ <? length buf)%nat; [|done].
  destruct (bit_is_set (drop (Z.to_nat null_bitmap) buf) i).
  { cbn. split; [done|lia]. }
  pose proof (unpack_column_consumed map buf
    (u8 (peek (column_types map) i)) (rs_ptr st) (rs_metadata_offset st)
    (rs_extra_bits st)) as Hc.
  destruct (unpack_column _ _ _ _ _ _) as [[[field consumed] extra]| | |];
    cbn [mbind outcome_bind]; try done.
  cbn. split; [apply set_field_event_type|lia].
Qed.

Lemma process_columns_keep (map : TABLE_MAP) (create : TABLE_CREATE)
    (buf columns_present : list byte) (null_bitmap : Z) (cols : list Z)
    (st : row_state) :
  match process_columns map create buf columns_present null_bitmap cols st with
  | Ret st' => event_type (rs_record st') = event_type (rs_record st)
               /\ rs_ptr st <= rs_ptr st'
  | Diverges => False
  | _ => True
  end.
Proof.
  revert st. induction cols as [|i cols IH]; intros st; cbn [process_columns];
    [split; [done|lia]|].
  pose proof (process_column_keeps map create buf columns_present null_bitmap st i)
    as H1.
  destruct (process_column map create buf columns_present null_bitmap st i)
    as [st1| | |]; cbn [mbind outcome_bind]; try done.
  specialize (IH st1).
  destruct (process_columns map create buf columns_present null_bitmap cols st1)
    as [st2| | |]; try done.
  destruct H1 as [He1 Hp1], IH as [He2 Hp2]. split; [congruence|lia].
Qed.

(** A row image keeps the event type set before it was decoded and takes
    at least the bytes of its NULL bitmap. *)
Lemma process_row_event_data_keeps (map : TABLE_MAP) (create : TABLE_CREATE)
    (record : avro_value) (buf : list byte) (ptr : Z) (columns_present : list byte) :
  match process_row_event_data map create record buf ptr columns_present with
  | Ret (ptr', record') =>
      event_type record' = event_type record
      /\ ptr + (tm_columns map + 7) / 8 <= ptr'
  | Diverges => False
  | _ => True
  end.
Proof.
  unfold process_row_event_data.
  pose proof (process_columns_keep map create buf columns_present ptr
                (column_indices map)
                (mkROW (ptr + (tm_columns map + 7) / 8) 0 0
                       ((tm_columns map + 7) / 8 * 8 - tm_columns map) record))
    as H.
  destruct (process_columns _ _ _ _ _ _ _) as [st| | |];
    cbn [mbind outcome_bind]; done.
Qed.

Lemma update_pairs_S (n : nat) :
  update_pairs (S n) = [UPDATE_EVENT; UPDATE_EVENT_AFTER] ++ update_pairs n.
Proof. reflexivity. Qed.

(** One round of the row loop moves ahead by the NULL bitmap of the
    images it decodes; for an update event it appends two records, the
    first marked [UPDATE_EVENT] and the second [UPDATE_EVENT_AFTER]. *)
Lemma row_round_keeps (router : AVRO_INSTANCE) (hdr : REP_HEADER)
    (map : TABLE_MAP) (create : TABLE_CREATE) (buf col_present : list byte)
    (ptr : Z) (record : avro_value) (table : AVRO_TABLE) :
  match row_round router hdr map create buf col_present ptr record table with
  | Ret (ptr', record', table') =>
      (0 <= (tm_columns map + 7) / 8 -> ptr + (tm_columns map + 7) / 8 <= ptr')
      /\ (get_event_type (hdr_event_type hdr) = UPDATE_EVENT ->
          exists rec1 rec2,
            table' = mkTABLE (filename table) (json_schema table)
                             (avro_file table ++ [rec1; rec2])
            /\ event_type rec1 = UPDATE_EVENT
            /\ event_type rec2 = UPDATE_EVENT_AFTER)
  | Diverges => False
  | _ => True
  end.
Proof.
  unfold row_round.
  set (r1 := set_common_fields router hdr _ record).
  pose proof (process_row_event_data_keeps map create r1 buf ptr col_present)
    as H1.
  destruct (process_row_event_data map create r1 buf ptr col_present)
    as [[ptr1 rec1]| | |]; cbn [mbind outcome_bind]; try done.
  destruct H1 as [He1 Hp1].
  destruct (Z.eqb_spec (get_event_type (hdr_event_type hdr)) UPDATE_EVENT)
    as [Hupd|Hno].
  - set (r2 := set_common_fields router hdr UPDATE_EVENT_AFTER rec1).
    pose proof (process_row_event_data_keeps map create r2 buf ptr1 col_present)
      as H2.
    destruct (process_row_event_data map create r2 buf ptr1 col_present)
      as [[ptr2 rec2]| | |]; cbn [mbind outcome_bind]; try done.
    destruct H2 as [He2 Hp2].
    split; [lia|]. intros _. exists rec1, rec2.
    split; [unfold append_value; cbn; by rewrite <- app_assoc|].
    split; [rewrite He1; subst r1; cbn; done|done].
  - split; [lia|]. intros Hupd. by destruct Hno.
Qed.

(** Every round of the row loop of an update event appends two records,
    the first marked [UPDATE_EVENT] and the second [UPDATE_EVENT_AFTER]. *)
Lemma row_loop_update_pairs (fuel : nat) (router : AVRO_INSTANCE) (hdr : REP_HEADER)
    (map : TABLE_MAP) (create : TABLE_CREATE) (buf col_present : list byte)
    (bound ptr : Z) (record : avro_value) (table : AVRO_TABLE) (rows : Z)
    (ptr' : Z) (record' : avro_value) (table' : AVRO_TABLE) (rows' : Z) :
  get_event_type (hdr_event_type hdr) = UPDATE_EVENT ->
  row_loop fuel router hdr map create buf col_present bound ptr record table rows
    = Some (Ret (ptr', record', table', rows')) ->
  exists (n : nat) (written : list avro_value),
    rows' = rows + Z.of_nat n
    /\ table' = mkTABLE (filename table) (json_schema table)
                        (avro_file table ++ written)
    /\ event_type <$> written = update_pairs n.
Proof.
  intros Hupd. revert ptr record table rows.
  induction fuel as [|fuel IH]; intros ptr record table rows; cbn [row_loop];
    [discriminate|].
  destruct (ptr <? bound).
  - pose proof (row_round_keeps router hdr map create buf col_present ptr record
                  table) as Hround.
    destruct (row_round router hdr map create buf col_present ptr record table)
      as [[[ptr1 rec1] table1]| | |]; try discriminate.
    destruct Hround as [_ Hpair].
    destruct (Hpair Hupd) as (r1 & r2 & -> & He1 & He2).
    intros E. destruct (IH _ _ _ _ E) as (n & written & Hrows & Htable & Htypes).
    exists (S n), (r1 :: r2 :: written). split; [lia|]. split.
    + rewrite Htable. cbn. by rewrite <- !app_assoc.
    + rewrite update_pairs_S. cbn. rewrite He1, He2. by rewrite Htypes.
  - intros E. inversion E; subst. exists 0%nat, []. split; [lia|]. split.
    + destruct table'. cbn. by rewrite app_nil_r.
    + done.
Qed.



(** Whatever an update event finds in the router, what it leaves behind
    when it returns is the open tables as they were, but for the records
    of the rounds of its loop, each a record marked [UPDATE_EVENT] and then
    one marked [UPDATE_EVENT_AFTER], appended to one of them. *)
Lemma update_event_appends_pairs (ext : Externals) (router router' : AVRO_INSTANCE)
    (hdr : REP_HEADER) (buf : list byte) (rval : bool) :
  get_event_type (hdr_event_type hdr) = UPDATE_EVENT ->
  handle_row_event ext router hdr buf = Ret (rval, router') ->
  router' = router
  \/ exists (ident : string) (table : AVRO_TABLE) (rounds : nat)
            (written : list avro_value),
       open_tables router !! ident = Some table
       /\ open_tables router'
          = <[ident := mkTABLE (filename table) (json_schema table)
                               (avro_file table ++ written)]> (open_tables router)
       /\ event_type <$> written = update_pairs rounds.
Proof.
  intros Hupd. unfold handle_row_event.
  set (p := read_row_prefix router hdr buf).
  destruct ((rp_table_id p =? TABLE_DUMMY_ID) && _).
  { intros E. inversion E. by left. }
  destruct (active_maps_get router _) as [[map|]| | |]; cbn [mbind outcome_bind];
    try discriminate.
  2: { intros E. inversion E. by left. }
  destruct (open_tables router !! table_ident_of map) as [table|] eqn:Htable.
  2: { intros E. inversion E. by left. }
  destruct (table_create map) as [create|].
  2: { intros E. inversion E. by left. }
  destruct (rp_ncolumns p =? tm_columns map).
  2: { intros E. inversion E. by left. }
  destruct (row_loop _ router hdr map create buf _ _ _ _ _ _)
    as [[[[[ptr' record'] table'] rows']| | |]|] eqn:Eloop;
    cbn [mbind outcome_bind]; try discriminate.
  intros E. inversion E; subst. right.
  destruct (row_loop_update_pairs _ _ _ _ _ _ _ _ _ _ _ _ _ _ _ _ Hupd Eloop)
    as (n & written & _ & -> & Htypes).
  exists (table_ident_of map), table, n, written. by repeat split.
Qed.

(** C8: the update event of the fixture has two rows, each a before image
    under the first bitmap (column [a]) and an after image under the second
    (columns [a] and [b]): that is what the decoder of the specification
    counts between the bitmaps and the end of the event.
    [handle_row_event] returns true for it and has appended six records to
    the Avro file of the table, three pairs marked [UPDATE_EVENT] and
    [UPDATE_EVENT_AFTER]: three records per row, not two, and the values of
    the second row are spread over the second and the third pair. *)
Theorem update_event_writes_six_records_for_two_rows :
  spec_update_rows 21 Fixtures.map_d_t Fixtures.update_buffer
    (rp_col_present (read_row_prefix Fixtures.router_d_t Fixtures.update_hdr
                                     Fixtures.update_buffer))
    (rp_col_update (read_row_prefix Fixtures.router_d_t Fixtures.update_hdr
                                    Fixtures.update_buffer))
    (row_bound Fixtures.update_hdr)
    (rp_ptr (read_row_prefix Fixtures.router_d_t Fixtures.update_hdr
                             Fixtures.update_buffer))
  = Some 2%nat
  /\ exists router',
       handle_row_event Fixtures.lp64 Fixtures.router_d_t Fixtures.update_hdr
                        Fixtures.update_buffer = Ret (true, router')
       /\ records_of router' "d.t"
          = [(UPDATE_EVENT, [("a"%string, AvInt 1)]);
             (UPDATE_EVENT_AFTER, [("a"%string, AvInt 2)]);
             (UPDATE_EVENT, [("a"%string, AvNull)]);
             (UPDATE_EVENT_AFTER, [("a"%string, AvInt 5)]);
             (UPDATE_EVENT, [("a"%string, AvInt 6)]);
             (UPDATE_EVENT_AFTER, [("a"%string, AvNull)])]
       /\ length (records_of router' "d.t") = 6%nat
       /\ length (records_of router' "d.t") <> (2 * 2)%nat.
Proof.
  split; [vm_compute; reflexivity|].
  eexists. split; [vm_compute; reflexivity|].
  split; [vm_compute; reflexivity|]. split; [vm_compute; reflexivity|].
  vm_compute. discriminate.
Qed.

(** C3: the update event of the fixture names column [a] in its first
    bitmap and [a] and [b] in its second.  [handle_row_event] reads both,
    and decodes the after image [a = 2, b = 3] of the first row under the
    first: the record marked [UPDATE_EVENT_AFTER] that follows the before
    image carries [a = 2] and nothing for [b], the byte of [b] is taken for
    the start of a further row, and six records are written for the two
    rows of the event.  Decoded under the second bitmap the same after
    image gives [a = 2, b = 3] and ends where the second row begins. *)
Theorem update_after_image_decoded_with_columns_present :
  rp_col_present (read_row_prefix Fixtures.router_d_t Fixtures.update_hdr
                                  Fixtures.update_buffer) = [Byte.x01]
  /\ rp_col_update (read_row_prefix Fixtures.router_d_t Fixtures.update_hdr
                                    Fixtures.update_buffer) = [Byte.x03]
  /\ (exists router',
        handle_row_event Fixtures.lp64 Fixtures.router_d_t Fixtures.update_hdr
                         Fixtures.update_buffer = Ret (true, router')
        /\ records_of router' "d.t"
           = [(UPDATE_EVENT, [("a"%string, AvInt 1)]);
              (UPDATE_EVENT_AFTER, [("a"%string, AvInt 2)]);
              (UPDATE_EVENT, [("a"%string, AvNull)]);
              (UPDATE_EVENT_AFTER, [("a"%string, AvInt 5)]);
              (UPDATE_EVENT, [("a"%string, AvInt 6)]);
              (UPDATE_EVENT_AFTER, [("a"%string, AvNull)])])
  /\ (exists after,
        process_row_event_data Fixtures.map_d_t Fixtures.create_d_t new_record
          Fixtures.update_buffer 13 [Byte.x03] = Ret (16, after)
        /\ map_to_list (columns after)
           = [("a"%string, AvInt 2); ("b"%string, AvInt 3)]).
Proof.
  split; [reflexivity|]. split; [reflexivity|]. split.
  - eexists. split; [vm_compute; reflexivity|]. vm_compute. reflexivity.
  - eexists. split; [vm_compute; reflexivity|]. vm_compute. reflexivity.
Qed.

(** The same event with its first row only: the byte of [b] is taken for
    the NULL bitmap of a second row, whose after image begins at the
    terminator of the buffer and has its value after it. *)
Lemma update_one_row_leaves_buffer :
  handle_row_event Fixtures.lp64 Fixtures.router_d_t Fixtures.update_one_row_hdr
                   (Fixtures.event_buffer Fixtures.update_one_row_payload)
  = OutOfBuffer 17.
Proof. vm_compute. reflexivity. Qed.

(** The subscript of [active_maps] is the table id modulo the size of the
    array in bytes.  Below 1024 that is the id itself, as in the claim. *)
Lemma active_maps_index_small (ext : Externals) (id : Z) :
  1 <= sizeof_pointer ext -> 0 <= id < MAX_MAPPED_TABLES ->
  active_maps_index ext id = id mod MAX_MAPPED_TABLES.
Proof.
  intros Hp Hid. unfold active_maps_index, sizeof_active_maps.
  rewrite !Z.mod_small; unfold MAX_MAPPED_TABLES in *; nia.
Qed.

(** With pointers of more than one byte, id 1024 is its own subscript. *)
Lemma active_maps_index_1024 (ext : Externals) :
  2 <= sizeof_pointer ext -> active_maps_index ext 1024 = 1024.
Proof.
  intros Hp. unfold active_maps_index, sizeof_active_maps, MAX_MAPPED_TABLES.
  apply Z.mod_small. lia.
Qed.

(** A slot that was written inside the array is the slot that a row event
    with the same subscript reads. *)
Lemma active_maps_set_get (router : AVRO_INSTANCE) (i : Z) (v : option TABLE_MAP)
    (am : list (option TABLE_MAP)) :
  active_maps_set (active_maps router) i v = Ret am ->
  active_maps_get (with_maps router am (table_maps router) (open_tables router)) i
    = Ret v.
Proof.
  unfold active_maps_set, active_maps_get. case_bool_decide as Hlt; [|discriminate].
  intros E. inversion E; subst. cbn [with_maps active_maps].
  by rewrite list_lookup_insert_eq.
Qed.

(** C1: on a platform with pointers of eight bytes the subscript for table
    id 1024 is 1024 mod 8192 = 1024, not 1024 mod 1024 = 0.  The array has
    the slots 0 to 1023: the table-map event writes past its end. *)
Theorem table_map_slot_outside_active_maps :
  active_maps_index Fixtures.lp64 1024 = 1024
  /\ 1024 mod MAX_MAPPED_TABLES = 0
  /\ length (active_maps (Fixtures.router_created 0)) = 1024%nat
  /\ handle_table_map_event Fixtures.lp64 (Fixtures.router_created 0)
       Fixtures.table_map_hdr
       (Fixtures.table_map_payload
          [Byte.x00; Byte.x04; Byte.x00; Byte.x00; Byte.x00; Byte.x00])
     = OutOfBounds 1024.
Proof.
  split; [reflexivity|]. split; [reflexivity|]. split; [reflexivity|].
  vm_compute. reflexivity.
Qed.

(** The same event with table id 42 is stored in slot 42, where the row
    event of the fixture finds it. *)
Lemma table_map_slot_42 :
  exists router',
    handle_table_map_event Fixtures.lp64 (Fixtures.router_created 0)
      Fixtures.table_map_hdr
      (Fixtures.table_map_payload
         [Byte.x2a; Byte.x00; Byte.x00; Byte.x00; Byte.x00; Byte.x00])
    = Ret (true, router')
    /\ active_maps router' !! 42%nat = Some (Some Fixtures.map_d_t)
    /\ active_maps_get router'
         (active_maps_index Fixtures.lp64
            (rp_table_id (read_row_prefix router' Fixtures.update_hdr
                                          Fixtures.update_buffer)))
       = Ret (Some Fixtures.map_d_t).
Proof.
  eexists. split; [vm_compute; reflexivity|]. split; vm_compute; reflexivity.
Qed.

End RbrFacts.

(** ** The conversion loop *)

Section AvroFileFacts.
Import Bytes Binlog MysqlBinlog Router Rbr AvroFile.

(** The three checks on an event that reject it before it is dispatched:
    the type, a size of zero, and a payload that cannot be read in full.
    Each of them stores the last known commit as the safe position. *)
Lemma read_event_rejected (ext : Externals) (binlog : list byte) (st : loop_state) :
  let hdbuf := pread binlog BINLOG_EVENT_HDR_LEN (ls_pos st) in
  let hdr := parse_header hdbuf in
  length hdbuf = 19%nat ->
  MAX_EVENT_TYPE_MARIADB10 < hdr_event_type hdr
  \/ hdr_event_size hdr = 0
  \/ read_event_data binlog hdr (ls_pos st) = None ->
  exists st',
    read_event ext binlog st = Ret (Return AVRO_BINLOG_ERROR st')
    /\ binlog_position (ls_router st') = ls_last_known_commit st
    /\ current_pos (ls_router st') = ls_pos st.
Proof.
  intros hdbuf hdr Hlen Hbad. unfold read_event. fold hdbuf. fold hdr.
  rewrite Hlen. cbn [Z.of_nat Pos.of_succ_nat Pos.succ Z.eqb BINLOG_EVENT_HDR_LEN
                     Pos.eqb negb].
  exists (with_router st (with_positions (ls_router st) (ls_last_known_commit st)
                                         (ls_pos st))).
  split; [|done].
  destruct (Z.ltb_spec MAX_EVENT_TYPE_MARIADB10 (hdr_event_type hdr)); [done|].
  destruct (Z.leb_spec (hdr_event_size hdr) 0); [done|].
  destruct Hbad as [?|[?|Hread]]; [lia|lia|]. by rewrite Hread.
Qed.

(** The size check of the loop is [event_size <= 0].  A size of 1 to 18 is
    smaller than the header itself; the unsigned payload length wraps
    around to nearly 4 GiB, and in a file that is not that long the read of
    the payload comes up short. *)
Lemma short_event_size_unreadable (binlog : list byte) (hdr : REP_HEADER) (pos : Z) :
  0 < hdr_event_size hdr < BINLOG_EVENT_HDR_LEN ->
  Z.of_nat (length binlog) < 2 ^ 32 - 19 ->
  read_event_data binlog hdr pos = None.
Proof.
  intros Hsize Hfile. unfold read_event_data, pread, wrap32, BINLOG_EVENT_HDR_LEN in *.
  replace ((hdr_event_size hdr - 19) mod 2 ^ 32)
    with (hdr_event_size hdr - 19 + 2 ^ 32).
  2: { rewrite <- (Z_mod_plus_full (hdr_event_size hdr - 19) 1 (2 ^ 32)).
       symmetry. apply Z.mod_small. lia. }
  destruct (Z.eqb_spec (Z.of_nat (length (take (Z.to_nat (hdr_event_size hdr - 19 + 2 ^ 32))
                                   (drop (Z.to_nat (pos + 19)) binlog))))
                       (hdr_event_size hdr - 19 + 2 ^ 32)) as [E|_]; [|done].
  rewrite length_take, length_drop in E. lia.
Qed.

(** The checks on [next_pos] come after the event has been dispatched, and
    leave the loop without touching the safe position: the router is the
    one that the dispatch of the event left. *)
Lemma read_event_next_pos_rejected (ext : Externals) (binlog : list byte)
    (st st1 : loop_state) (ptr : list byte) :
  let hdbuf := pread binlog BINLOG_EVENT_HDR_LEN (ls_pos st) in
  let hdr := parse_header hdbuf in
  let seen :=
    if ls_pending_transaction st =? 0
    then mkLOOP (ls_router st) (ls_pos st) (ls_pos st) (ls_next_binlog st)
                (ls_pending_transaction st) (ls_found_chksum st)
                (ls_rotate_seen st) (ls_stop_seen st)
    else st in
  length hdbuf = 19%nat ->
  hdr_event_type hdr <= MAX_EVENT_TYPE_MARIADB10 ->
  0 < hdr_event_size hdr ->
  read_event_data binlog hdr (ls_pos st) = Some ptr ->
  dispatch_event ext seen hdr ptr = Ret st1 ->
  0 < hdr_next_pos hdr ->
  hdr_next_pos hdr < ls_pos st
  \/ hdr_next_pos hdr <> ls_pos st + hdr_event_size hdr ->
  read_event ext binlog st = Ret (Return AVRO_BINLOG_ERROR st1).
Proof.
  intros hdbuf hdr seen Hlen Htype Hsize Hread Hdisp Hnext Hbad.
  unfold read_event. fold hdbuf. fold hdr. rewrite Hlen.
  cbn [Z.of_nat Pos.of_succ_nat Pos.succ Z.eqb BINLOG_EVENT_HDR_LEN Pos.eqb negb].
  destruct (Z.ltb_spec MAX_EVENT_TYPE_MARIADB10 (hdr_event_type hdr)); [lia|].
  destruct (Z.leb_spec (hdr_event_size hdr) 0); [lia|].
  rewrite Hread. fold seen. rewrite Hdisp. cbn [mbind outcome_bind].
  destruct (Z.ltb_spec 0 (hdr_next_pos hdr)); [|lia]. cbn [andb].
  destruct (Z.ltb_spec (hdr_next_pos hdr) (ls_pos st)); [done|].
  destruct (Z.eqb_spec (hdr_next_pos hdr) (ls_pos st + hdr_event_size hdr));
    [lia|done].
Qed.

(** An iteration that goes on has read a whole header inside the file and
    moves to the end of its event, which lies after its start. *)
Lemma read_event_next_advances (ext : Externals) (binlog : list byte)
    (st st' : loop_state) :
  0 <= ls_pos st ->
  read_event ext binlog st = Ret (Next st') ->
  ls_pos st < ls_pos st'
  /\ ls_pos st + BINLOG_EVENT_HDR_LEN <= Z.of_nat (length binlog).
Proof.
  intros Hpos. unfold read_event.
  set (hdbuf := pread binlog BINLOG_EVENT_HDR_LEN (ls_pos st)).
  generalize (parse_header hdbuf). intros hdr.
  destruct (Z.eqb_spec (Z.of_nat (length hdbuf)) BINLOG_EVENT_HDR_LEN) as [Hlen|_];
    cbn [negb].
  2: { repeat case_match; intros E; inversion E. }
  assert (ls_pos st + BINLOG_EVENT_HDR_LEN <= Z.of_nat (length binlog)) as Hin.
  { subst hdbuf. unfold pread, BINLOG_EVENT_HDR_LEN in *.
    rewrite length_take, length_drop in Hlen. lia. }
  destruct (MAX_EVENT_TYPE_MARIADB10 <? hdr_event_type hdr); [intros E; inversion E|].
  destruct (Z.leb_spec (hdr_event_size hdr) 0) as [|Hsize]; [intros E; inversion E|].
  destruct (read_event_data binlog hdr (ls_pos st)) as [ptr|]; [|intros E; inversion E].
  destruct (dispatch_event ext _ hdr ptr) as [st1| | |]; cbn [mbind outcome_bind];
    [|discriminate|discriminate|discriminate].
  destruct (Z.ltb_spec 0 (hdr_next_pos hdr)); cbn [andb]; [|intros E; inversion E].
  destruct (hdr_next_pos hdr <? ls_pos st); [intros E; inversion E|].
  destruct (Z.eqb_spec (hdr_next_pos hdr) (ls_pos st + hdr_event_size hdr)) as [Hnext|];
    cbn [negb]; intros E; [|discriminate].
  injection E as <-. cbn [ls_pos]. split; [lia|exact Hin].
Qed.

(** The fuel of [avro_read_all_events] is never what ends the loop: when
    the result is [Diverges], the loop has come to an iteration that does
    not return. *)
Lemma read_events_fuel (ext : Externals) (binlog : list byte)
    (router : AVRO_INSTANCE) (fuel : nat) (st : loop_state) :
  reached ext binlog router st ->
  0 <= ls_pos st ->
  (Z.to_nat (Z.of_nat (length binlog) - ls_pos st) < fuel)%nat ->
  read_events fuel ext binlog st = Diverges ->
  exists st1,
    reached ext binlog router st1 /\ read_event ext binlog st1 = Diverges.
Proof.
  revert st. induction fuel as [|fuel IH]; intros st Hreach Hpos Hfuel; [lia|].
  cbn [read_events].
  destruct (read_event ext binlog st) as [[st'|rval st']| | |] eqn:E;
    cbn [mbind outcome_bind]; try discriminate.
  - destruct (read_event_next_advances ext binlog st st' Hpos E) as [Hadv Hin].
    unfold BINLOG_EVENT_HDR_LEN in Hin.
    apply IH; [by eapply reached_next|lia|lia].
  - intros _. by exists st.
Qed.

(** C4: the second event of the file names a next position that is not
    its own end.  The loop returns AVRO_BINLOG_ERROR, but unlike the checks
    on the event type, the event size and the payload it stores nothing
    in [binlog_position]: the safe position is still the one the router
    came with, whatever that was, while the last known commit is at 31.
    In the same file with a second event of an unknown type, the safe
    position is set to the last known commit. *)
Theorem next_pos_error_keeps_safe_position (safe : Z) :
  (exists st,
    avro_read_all_events Fixtures.lp64 Fixtures.bad_next_pos_binlog
                         (Fixtures.router_created safe)
    = Ret (AVRO_BINLOG_ERROR, st)
    /\ binlog_position (ls_router st) = safe
    /\ ls_last_known_commit st = 31)
  /\ (exists st,
    avro_read_all_events Fixtures.lp64 Fixtures.bad_type_binlog
                         (Fixtures.router_created safe)
    = Ret (AVRO_BINLOG_ERROR, st)
    /\ binlog_position (ls_router st) = ls_last_known_commit st
    /\ ls_last_known_commit st = 4).
Proof.
  split; eexists; (split; [vm_compute; reflexivity|]); split; reflexivity.
Qed.

(** C2: the format description of the file announces CRC32 checksums and
    the loop notes it, but the row event that follows is decoded up to
    [event_size - 19]: the four bytes of its checksum are read as rows, and
    three records are appended for an event of one row.  With a bound
    four bytes shorter the same buffer gives the one row. *)
Theorem checksum_bytes_decoded_as_rows :
  (exists st,
    avro_read_all_events Fixtures.lp64 Fixtures.checksum_binlog Fixtures.router_d_t
    = Ret (AVRO_LAST_FILE, st)
    /\ ls_found_chksum st = true
    /\ records_of (ls_router st) "d.t"
       = [(WRITE_EVENT, [("a"%string, AvInt 10); ("b"%string, AvInt 11)]);
          (WRITE_EVENT, [("a"%string, AvInt 17); ("b"%string, AvInt 34)]);
          (WRITE_EVENT, [("a"%string, AvNull); ("b"%string, AvNull)])])
  /\ (exists router',
    handle_row_event Fixtures.lp64 Fixtures.router_d_t
      (Fixtures.write_row_hdr (19 + 13 + 4 - 4))
      (Fixtures.event_buffer (Fixtures.write_row_payload ++ Fixtures.write_row_crc))
    = Ret (true, router')
    /\ records_of router' "d.t"
       = [(WRITE_EVENT, [("a"%string, AvInt 10); ("b"%string, AvInt 11)])]).
Proof.
  split; eexists; (split; [vm_compute; reflexivity|]).
  - split; vm_compute; reflexivity.
  - vm_compute; reflexivity.
Qed.

(** With a checksum whose last byte does not mark both columns as NULL the
    decoding of the checksum goes on after the end of the buffer: the byte
    00 is the NULL bitmap of a third row, whose first value is the
    terminator and whose second lies after it. *)
Lemma checksum_bytes_can_leave_the_buffer :
  handle_row_event Fixtures.lp64 Fixtures.router_d_t
    (Fixtures.write_row_hdr (19 + 13 + 4))
    (Fixtures.event_buffer
       (Fixtures.write_row_payload ++ [Byte.x00; Byte.x11; Byte.x22; Byte.x00]))
  = OutOfBuffer 18.
Proof. vm_compute. reflexivity. Qed.

(** The format description of the fixture carries 168 bytes after its
    fixed part, the 163 post-header lengths and the five bytes of the
    checksum.  All of them are copied to [event_type_hdr_lens], which has
    room for 163: the last five land in [current_gtid], which is 0x01 and
    a terminator from then on. *)
Lemma format_description_overruns_hdr_lens :
  exists st,
    dispatch_event Fixtures.lp64 (initial_state Fixtures.router_d_t)
      (parse_header (take 19 Fixtures.format_description_crc32))
      (Fixtures.event_buffer (drop 19 Fixtures.format_description_crc32))
    = Ret st
    /\ event_types (ls_router st) = 168
    /\ length (event_type_hdr_lens (ls_router st)) = 163%nat
    /\ current_gtid (ls_router Fixtures.before_commit) = "0-1-1"%string
    /\ current_gtid (ls_router st) = string_of_list_byte [Byte.x01].
Proof.
  eexists. split; [vm_compute; reflexivity|].
  repeat split; vm_compute; reflexivity.
Qed.

(** The checksum flag of the loop reaches the rotate event only: the row
    events are handled the same with and without it. *)
Lemma row_event_ignores_checksum_flag (ext : Externals) (st : loop_state)
    (hdr : REP_HEADER) (ptr : list byte) (flag : bool) :
  is_row_event (hdr_event_type hdr) = true ->
  ls_router <$> dispatch_event ext
       (mkLOOP (ls_router st) (ls_pos st) (ls_last_known_commit st)
               (ls_next_binlog st) (ls_pending_transaction st) flag
               (ls_rotate_seen st) (ls_stop_seen st)) hdr ptr
  = ls_router <$> dispatch_event ext st hdr ptr.
Proof.
  intros Hrow. unfold dispatch_event, is_row_event in *.
  destruct (Z.eqb_spec (hdr_event_type hdr) FORMAT_DESCRIPTION_EVENT) as [E|_].
  { rewrite E in Hrow. discriminate. }
  destruct (Z.eqb_spec (hdr_event_type hdr) STOP_EVENT) as [E|_].
  { rewrite E in Hrow. discriminate. }
  destruct (Z.eqb_spec (hdr_event_type hdr) TABLE_MAP_EVENT) as [E|_].
  { rewrite E in Hrow. discriminate. }
  rewrite Hrow. cbn [ls_router].
  destruct (handle_row_event ext _ hdr ptr) as [[b r]| | |]; reflexivity.
Qed.

Lemma notify_clients_effects (cs : list AVRO_CLIENT) :
  concat ((notify_client <$> cs).*2)
  = (fun c => PollFakeWriteEvent (dcb c)) <$> List.filter waits_for_data cs.
Proof.
  induction cs as [|c cs IH]; [done|].
  cbn [fmap list_fmap concat List.filter]. rewrite IH.
  unfold notify_client at 1, waits_for_data at 2.
  by destruct (negb _).
Qed.

(** The order of the calls as the code has it: an XID event that brings
    [row_count] or [trx_count] to its target first notifies the clients
    that wait for data, then flushes the open Avro tables, then saves the
    conversion state, and leaves both counters at zero. *)
Lemma xid_calls_in_order (ext : Externals) (st : loop_state)
    (hdr : REP_HEADER) (ptr : list byte) :
  hdr_event_type hdr = XID_EVENT ->
  row_target (ls_router st) <= row_count (ls_router st)
  \/ trx_target (ls_router st) <= wrap64 (trx_count (ls_router st) + 1) ->
  exists st',
    dispatch_event ext st hdr ptr = Ret st'
    /\ effects (ls_router st')
       = effects (ls_router st)
         ++ ((fun c => PollFakeWriteEvent (dcb c))
               <$> List.filter waits_for_data (clients (ls_router st)))
         ++ (AvroFileWriterFlush <$> (map_to_list (open_tables (ls_router st))).*1)
         ++ [SaveConversionState (binlog_name (ls_router st))
                                 (current_pos (ls_router st))
                                 (gtid (ls_router st))]
    /\ trx_count (ls_router st') = 0
    /\ row_count (ls_router st') = 0
    /\ ls_pending_transaction st' = 0.
Proof.
  intros Htype Hreach. unfold dispatch_event. rewrite Htype.
  cbn [Z.eqb Pos.eqb XID_EVENT FORMAT_DESCRIPTION_EVENT STOP_EVENT
       TABLE_MAP_EVENT ROTATE_EVENT MARIADB10_GTID_EVENT QUERY_EVENT
       is_row_event WRITE_ROWS_EVENTv0 DELETE_ROWS_EVENTv1 WRITE_ROWS_EVENTv2
       DELETE_ROWS_EVENTv2 Z.leb Z.compare Pos.compare Pos.compare_cont
       andb orb].
  eexists. split; [reflexivity|].
  unfold handle_xid. cbn [ls_router ls_pending_transaction].
  set (r := ls_router st) in *.
  cbn [with_counts row_target row_count trx_target trx_count].
  assert ((row_target r <=? row_count r)
          || (trx_target r <=? wrap64 (trx_count r + 1)) = true) as ->.
  { apply orb_true_iff. destruct Hreach; [left|right]; by apply Z.leb_le. }
  cbn [with_counts trx_count row_count effects avro_save_conversion_state
       avro_flush_all_tables notify_all_clients emit with_clients binlog_name
       current_pos gtid open_tables clients].
  rewrite notify_clients_effects, <- !app_assoc. done.
Qed.

(** C7: the XID event that completes the fiftieth transaction wakes the
    waiting client before it flushes the Avro file of [d.t]: the
    notification is the first call, the flush the second, so a flush does
    not come before every notification.  And the COMMIT of a query event
    that completes the fiftieth transaction just counts it: nothing is
    flushed, notified or saved, and [trx_count] stays at its target. *)
Theorem xid_notifies_before_flush :
  (exists st',
    dispatch_event Fixtures.lp64 Fixtures.before_commit Fixtures.xid_hdr
                   (replicate 9 Byte.x00) = Ret st'
    /\ effects (ls_router st')
       = [PollFakeWriteEvent 7; AvroFileWriterFlush "d.t";
          SaveConversionState "binlog.000001" 4 (mkGTID 0 1 1 1)]
    /\ ~ flush_before_notify (effects (ls_router st'))
    /\ trx_count (ls_router st') = 0
    /\ row_count (ls_router st') = 0)
  /\ (exists st',
    dispatch_event Fixtures.lp64 Fixtures.before_commit Fixtures.commit_hdr
                   Fixtures.commit_payload = Ret st'
    /\ ls_pending_transaction st' = 0
    /\ trx_count (ls_router st') = 50
    /\ trx_target (ls_router st') <= trx_count (ls_router st')
    /\ effects (ls_router st') = []).
Proof.
  split.
  - eexists. split; [vm_compute; reflexivity|].
    split; [vm_compute; reflexivity|]. split.
    + intros Horder.
      specialize (Horder 1%nat 0%nat "d.t"%string 7).
      assert (1 < 0)%nat; [|lia].
      apply Horder; vm_compute; reflexivity.
    + split; vm_compute; reflexivity.
  - eexists. split; [vm_compute; reflexivity|].
    repeat split; vm_compute; congruence.
Qed.

End AvroFileFacts.

(** ** The registration of a CDC client *)

Section AvroClientFacts.
Import Bytes Binlog Router Rbr AvroClient.

Lemma c_string_app (a b : list byte) :
  Forall (fun x => u8 x <> 0) a -> c_string (a ++ b) = a ++ c_string b.
Proof.
  induction 1 as [|x a Hx _ IH]; [done|].
  cbn [app c_string]. destruct (Z.eqb_spec (u8 x) 0); [done|]. by rewrite IH.
Qed.

Lemma c_string_id (a : list byte) :
  Forall (fun x => u8 x <> 0) a -> c_string a = a.
Proof.
  intros H. rewrite <- (app_nil_r a) at 1. rewrite c_string_app by done.
  cbn. by rewrite app_nil_r.
Qed.

Lemma cut_at_id (c : byte) (s : list byte) :
  Forall (fun x => Byte.eqb x c = false) s -> cut_at c s = s.
Proof.
  induction 1 as [|x s Hx _ IH]; [done|]. cbn [cut_at]. by rewrite Hx, IH.
Qed.

Lemma is_prefix_app (a b : list byte) : is_prefix a (a ++ b) = true.
Proof.
  induction a as [|x a IH]; [done|]. cbn [app is_prefix].
  rewrite IH, andb_true_r. by apply Byte.byte_dec_lb.
Qed.

Lemma strstr_prefix (hay needle : list byte) :
  is_prefix needle hay = true -> strstr hay needle = Some O.
Proof. intros H. destruct hay; cbn [strstr]; by rewrite H. Qed.

(** A request with a UUID of 36 bytes and a type that is AVRO or JSON
    registers the client with that format. *)
Lemma do_registration_with_type (client : AVRO_CLIENT) (uuid type : list byte)
    (fmt : avro_data_format) :
  length uuid = 36%nat ->
  Forall uuid_byte uuid ->
  type = list_byte_of_string "AVRO" /\ fmt = AVRO_FORMAT_AVRO
  \/ type = list_byte_of_string "JSON" /\ fmt = AVRO_FORMAT_JSON ->
  avro_client_do_registration client (register_request uuid type)
  = (1, register_as (set_uuid client uuid) fmt).
Proof.
  intros Hlen Hbytes Htype.
  assert (Forall (fun x => u8 x <> 0) uuid) as Hnul
    by (eapply Forall_impl; [exact Hbytes|]; by intros x (? & _)).
  assert (Forall (fun x => Byte.eqb x "," = false) uuid) as Hcomma
    by (eapply Forall_impl; [exact Hbytes|]; by intros x (_ & ? & _)).
  assert (Forall (fun x => Byte.eqb x " " = false) uuid) as Hspace
    by (eapply Forall_impl; [exact Hbytes|]; by intros x (_ & _ & ?)).
  assert (length type = 4%nat) as Htlen
    by (destruct Htype as [[-> _]|[-> _]]; reflexivity).
  unfold avro_client_do_registration, register_request.
  set (tail := list_byte_of_string ", TYPE=" ++ type).
  assert (length tail = 11%nat) as Htail
    by (subst tail; rewrite length_app, Htlen; reflexivity).
  assert (c_string (reg_uuid ++ uuid ++ tail)
          = reg_uuid ++ c_string (uuid ++ tail)) as ->.
  { apply c_string_app. repeat constructor; vm_compute; discriminate. }
  rewrite (strstr_prefix _ reg_uuid) by apply is_prefix_app.
  rewrite !length_app, Hlen, Htail.
  change (length reg_uuid) with 14%nat.
  change (Z.of_nat 14) with 14.
  change (Z.of_nat (14 + (36 + 11)) - 14) with 47.
  change (CDC_UUID_LEN <? 47) with true. cbv iota.
  change (Z.to_nat CDC_UUID_LEN) with 36%nat.
  change (Z.to_nat 14) with (length reg_uuid).
  rewrite drop_app_length.
  rewrite (take_app_length' uuid tail 36) by done.
  rewrite (c_string_id uuid Hnul), (cut_at_id _ uuid Hcomma),
    (cut_at_id _ uuid Hspace), Hlen.
  change (Z.of_nat 36 <? CDC_UUID_LEN) with false. cbv iota.
  change (0 <? 47) with true. cbv iota.
  change (Z.to_nat (14 + 1 + Z.of_nat 36)) with (14 + 37)%nat.
  rewrite (drop_app_add' reg_uuid (uuid ++ tail) 14 37) by reflexivity.
  change (drop 37 (uuid ++ tail)) with (drop (36 + 1) (uuid ++ tail)).
  rewrite (drop_app_add' uuid tail 36 1) by done.
  subst tail. destruct Htype as [[-> ->]|[-> ->]]; vm_compute; reflexivity.
Qed.

(** Without a TYPE field after the UUID the registration fails. *)
Lemma do_registration_without_type (client : AVRO_CLIENT) (uuid : list byte) :
  length uuid = 36%nat ->
  Forall uuid_byte uuid ->
  avro_client_do_registration client (reg_uuid ++ uuid)
  = (0, set_uuid client uuid).
Proof.
  intros Hlen Hbytes.
  assert (Forall (fun x => u8 x <> 0) uuid) as Hnul
    by (eapply Forall_impl; [exact Hbytes|]; by intros x (? & _)).
  assert (Forall (fun x => Byte.eqb x "," = false) uuid) as Hcomma
    by (eapply Forall_impl; [exact Hbytes|]; by intros x (_ & ? & _)).
  assert (Forall (fun x => Byte.eqb x " " = false) uuid) as Hspace
    by (eapply Forall_impl; [exact Hbytes|]; by intros x (_ & _ & ?)).
  unfold avro_client_do_registration.
  assert (c_string (reg_uuid ++ uuid) = reg_uuid ++ c_string uuid) as ->.
  { apply c_string_app. repeat constructor; vm_compute; discriminate. }
  rewrite (strstr_prefix _ reg_uuid) by apply is_prefix_app.
  rewrite !length_app, Hlen.
  change (length reg_uuid) with 14%nat.
  change (Z.of_nat 14) with 14.
  change (Z.of_nat (14 + 36) - 14) with 36.
  change (CDC_UUID_LEN <? 36) with false. cbv iota.
  change (Z.to_nat 36) with 36%nat.
  change (Z.to_nat 14) with (length reg_uuid).
  rewrite drop_app_length.
  rewrite (take_ge uuid 36) by lia.
  rewrite (c_string_id uuid Hnul), (cut_at_id _ uuid Hcomma),
    (cut_at_id _ uuid Hspace), Hlen.
  change (Z.of_nat 36 <? 36) with false. cbv iota.
  change (0 <? 36) with true. cbv iota.
  rewrite drop_ge; [reflexivity|].
  rewrite length_app, Hlen. vm_compute. lia.
Qed.

(** C9, as the code has it: for a client that has not registered yet, a
    REGISTER request with a UUID of 36 bytes that names TYPE=AVRO or
    TYPE=JSON is answered with OK and leaves the session registered with
    that format; the same request without a TYPE field is a failed
    registration; and every failed registration is answered with
    "ERR, code 12, msg: Registration failed", after which the connection
    is closed and the session is in the errored state. *)
Theorem registration_needs_type
    (process_command : AVRO_CLIENT -> DCB -> list byte -> AVRO_CLIENT * DCB)
    (client : AVRO_CLIENT) (d : DCB) :
  state client = AVRO_CLIENT_UNREGISTERED ->
  (forall (id type : list byte) (fmt : avro_data_format),
     length id = 36%nat -> Forall uuid_byte id ->
     type = list_byte_of_string "AVRO" /\ fmt = AVRO_FORMAT_AVRO
     \/ type = list_byte_of_string "JSON" /\ fmt = AVRO_FORMAT_JSON ->
     exists client',
       avro_client_handle_request process_command client d
                                  (register_request id type)
       = (0, client', dcb_printf d "OK")
       /\ state client' = AVRO_CLIENT_REGISTERED
       /\ format client' = fmt
       /\ uuid client' = Some id)
  /\ (forall id : list byte,
     length id = 36%nat -> Forall uuid_byte id ->
     (avro_client_do_registration client (reg_uuid ++ id)).1 = 0)
  /\ (forall queue : list byte,
     (avro_client_do_registration client queue).1 = 0 ->
     exists client',
       avro_client_handle_request process_command client d queue
       = (0, client',
          dcb_close (dcb_printf d "ERR, code 12, msg: Registration failed"))
       /\ state client' = AVRO_CLIENT_ERRORED).
Proof.
  intros Hstate. unfold avro_client_handle_request. rewrite Hstate.
  change (AVRO_CLIENT_UNREGISTERED =? AVRO_CLIENT_ERRORED) with false.
  change (AVRO_CLIENT_UNREGISTERED =? AVRO_CLIENT_UNREGISTERED) with true.
  cbv iota. split; [|split].
  - intros id type fmt Hlen Hbytes Htype.
    rewrite (do_registration_with_type client id type fmt Hlen Hbytes Htype).
    change (1 =? 0) with false. cbv iota. eexists. split; [reflexivity|]. done.
  - intros id Hlen Hbytes.
    by rewrite (do_registration_without_type client id Hlen Hbytes).
  - intros queue Hfail.
    destruct (avro_client_do_registration client queue) as [reg_ret client1].
    cbn [fst] in Hfail. subst reg_ret.
    change (0 =? 0) with true. cbv iota. eexists. split; [reflexivity|]. done.
Qed.

Lemma registration_needs_type_witness :
  (exists client',
     avro_client_handle_request Fixtures.no_command Fixtures.fresh_client
       Fixtures.open_dcb
       (register_request Fixtures.uuid36 (list_byte_of_string "JSON"))
     = (0, client', dcb_printf Fixtures.open_dcb "OK")
     /\ state client' = AVRO_CLIENT_REGISTERED
     /\ format client' = AVRO_FORMAT_JSON
     /\ uuid client' = Some Fixtures.uuid36)
  /\ (avro_client_do_registration Fixtures.fresh_client
        (reg_uuid ++ Fixtures.uuid36)).1 = 0.
Proof.
  destruct (registration_needs_type Fixtures.no_command Fixtures.fresh_client
              Fixtures.open_dcb eq_refl) as (Hok & Hnone & _).
  assert (Forall uuid_byte Fixtures.uuid36) as Hbytes
    by (repeat constructor; vm_compute; discriminate).
  split.
  - apply Hok; [reflexivity|exact Hbytes|]. right. split; reflexivity.
  - apply Hnone; [reflexivity|exact Hbytes].
Defined.

(** C9 as stated fails: a REGISTER request that carries a UUID of 36
    characters and no TYPE field is not registered.  The reply is the
    error line, the connection is closed and the session is errored. *)
Lemma register_without_type_fails :
  exists client',
    avro_client_handle_request Fixtures.no_command Fixtures.fresh_client
      Fixtures.open_dcb
      (list_byte_of_string "REGISTER UUID=11111111-2222-3333-4444-555555555555")
    = (0, client',
       mkDCB ["ERR, code 12, msg: Registration failed"%string] true)
    /\ state client' = AVRO_CLIENT_ERRORED
    /\ state client' <> AVRO_CLIENT_REGISTERED.
Proof.
  eexists. split; [vm_compute; reflexivity|]. split; [reflexivity|].
  vm_compute. discriminate.
Qed.

End AvroClientFacts.

(** ** Table-map and row events (avro_rbr.c) *)

Section RowEventFacts.
Import Bytes MaxAvro Binlog MysqlBinlog Router Rbr AvroFile AvroClient.

Lemma land_pow2_testbit (x n : Z) :
  0 <= n -> (Z.land x (Z.shiftl 1 n) =? 0) = negb (Z.testbit x n).
Proof.
  intros Hn. rewrite Z.shiftl_1_l.
  destruct (Z.testbit x n) eqn:E; simpl.
  - apply Z.eqb_neq. intros H0.
    assert (H : Z.testbit (Z.land x (2 ^ n)) n = true).
    { rewrite Z.land_spec, E, Z.pow2_bits_true; auto. }
    rewrite H0, Z.bits_0 in H. discriminate.
  - apply Z.eqb_eq. apply Z.bits_inj'. intros m Hm.
    rewrite Z.land_spec, Z.bits_0.
    destruct (Z.eq_dec n m) as [<-|Hne].
    + rewrite E. reflexivity.
    + rewrite Z.pow2_bits_false by auto. apply andb_false_r.
Qed.

Lemma peek_cons (b : byte) (bs : list byte) (off : Z) :
  1 <= off -> peek (b :: bs) off = peek bs (off - 1).
Proof.
  intros H. unfold peek.
  destruct (off <? 0) eqn:E1; [lia|]. destruct (off - 1 <? 0) eqn:E2; [lia|].
  replace (Z.to_nat off) with (S (Z.to_nat (off - 1))) by lia. reflexivity.
Qed.

Lemma peek_nil (off : Z) : peek [] off = Byte.x00.
Proof. unfold peek. destruct (off <? 0); [done|]. by destruct (Z.to_nat off). Qed.

Lemma le_value_testbit (bs : list byte) (c : Z) :
  0 <= c ->
  Z.testbit (le_value bs) c = Z.testbit (u8 (peek bs (c / 8))) (c mod 8).
Proof.
  revert c. induction bs as [|b bs IH]; intros c Hc.
  - rewrite peek_nil. simpl. change (u8 Byte.x00) with 0. by rewrite !Z.bits_0.
  - cbn [le_value]. pose proof (u8_range b) as Hb.
    destruct (Z_lt_dec c 8) as [Hlt|Hge].
    + rewrite (Z.div_small c 8), (Z.mod_small c 8) by lia.
      change (peek (b :: bs) 0) with b.
      rewrite <- (Z.mod_pow2_bits_low (u8 b + 256 * le_value bs) 8 c) by lia.
      f_equal. change (2 ^ 8) with 256.
      symmetry. apply (Z.mod_unique_pos _ _ (le_value bs)); lia.
    + replace c with ((c - 8) + 8) at 1 by lia.
      rewrite <- (Z.div_pow2_bits (u8 b + 256 * le_value bs) 8 (c - 8)) by lia.
      change (2 ^ 8) with 256.
      replace ((u8 b + 256 * le_value bs) / 256) with (le_value bs).
      2:{ apply (Z.div_unique_pos _ _ _ (u8 b)); lia. }
      rewrite IH by lia.
      rewrite peek_cons by (assert (8 / 8 <= c / 8) by (apply Z.div_le_mono; lia);
                            change (8 / 8) with 1 in *; lia).
      replace ((c - 8) / 8) with (c / 8 - 1).
      2:{ replace c with ((c - 8) + 1 * 8) at 1 by lia.
          rewrite Z.div_add by lia. lia. }
      replace ((c - 8) mod 8) with (c mod 8).
      2:{ replace c with ((c - 8) + 1 * 8) at 1 by lia.
          by rewrite Z_mod_plus_full. }
      reflexivity.
Qed.

(** X1: [bit_is_set] reads bit [current_column] of the bitmap taken as a
    little-endian number; columns past the end of the bitmap read as the
    bytes that follow it, which the model takes to be zero. *)
Theorem bit_is_set_reads_bitmap_bit (bitmap : list byte) (current_column : Z) :
  0 <= current_column ->
  bit_is_set bitmap current_column = Z.testbit (le_value bitmap) current_column.
Proof.
  intros Hc. rewrite le_value_testbit by done. unfold bit_is_set.
  destruct (8 <=? current_column) eqn:E.
  - rewrite land_pow2_testbit by (apply Z.mod_pos_bound; lia).
    by rewrite negb_involutive.
  - apply Z.leb_gt in E.
    rewrite (Z.div_small current_column 8), (Z.mod_small current_column 8) by lia.
    rewrite land_pow2_testbit by done. by rewrite negb_involutive.
Qed.

Lemma bit_is_set_reads_bitmap_bit_witness :
  bit_is_set [Byte.x00; Byte.x04] 10 = Z.testbit (le_value [Byte.x00; Byte.x04]) 10
  /\ bit_is_set [Byte.x00; Byte.x04] 10 = true.
Proof.
  split; [apply (bit_is_set_reads_bitmap_bit [Byte.x00; Byte.x04] 10); lia
         |reflexivity].
Defined.

(** X2: the event types that the conversion loop hands to
    [handle_row_event] are exactly those that [get_event_type] knows: the
    row loop never works with the event type -1. *)
Theorem row_events_have_a_type (type : Z) :
  is_row_event type = true <-> get_event_type type <> -1.
Proof.
  unfold is_row_event, get_event_type, one_of, existsb,
    WRITE_ROWS_EVENTv0, WRITE_ROWS_EVENTv1, WRITE_ROWS_EVENTv2,
    UPDATE_ROWS_EVENTv0, UPDATE_ROWS_EVENTv1, UPDATE_ROWS_EVENTv2,
    DELETE_ROWS_EVENTv0, DELETE_ROWS_EVENTv1, DELETE_ROWS_EVENTv2,
    WRITE_EVENT, UPDATE_EVENT, DELETE_EVENT.
  split.
  - intros H.
    assert (Hc : type = 20 \/ type = 21 \/ type = 22 \/ type = 23 \/ type = 24
            \/ type = 25 \/ type = 30 \/ type = 31 \/ type = 32) by lia.
    destruct Hc as [->|[->|[->|[->|[->|[->|[->|[->| ->]]]]]]]]; by compute.
  - intros H.
    repeat match type of H with
           | context [?a =? ?b] => destruct (Z.eqb_spec a b); [subst; by compute|]
           end.
    simpl in H. done.
Qed.

(** X3: a row event that [handle_row_event] reports as failed has left the
    router as it was: no record is appended on any failing path. *)
Theorem failed_row_event_changes_nothing (ext : Externals)
    (router router' : AVRO_INSTANCE) (hdr : REP_HEADER) (buf : list byte) :
  handle_row_event ext router hdr buf = Ret (false, router') -> router' = router.
Proof.
  unfold handle_row_event.
  set (p := read_row_prefix router hdr buf).
  destruct ((rp_table_id p =? TABLE_DUMMY_ID) && _); [discriminate|].
  destruct (active_maps_get router _) as [[map|]| | |]; cbn [mbind outcome_bind];
    try discriminate.
  2: { intros E. by inversion E. }
  destruct (open_tables router !! table_ident_of map) as [table|].
  2: { intros E. by inversion E. }
  destruct (table_create map) as [create|].
  2: { intros E. by inversion E. }
  destruct (rp_ncolumns p =? tm_columns map).
  2: { intros E. by inversion E. }
  destruct (row_loop _ router hdr map create buf _ _ _ _ _ _)
    as [[[[[ptr' record'] table'] rows']| | |]|]; discriminate.
Qed.

Lemma failed_row_event_changes_nothing_witness :
  handle_row_event Fixtures.lp64 (Fixtures.router_created 0) Fixtures.update_hdr
                   Fixtures.update_payload
    = Ret (false, Fixtures.router_created 0)
  /\ Fixtures.router_created 0 = Fixtures.router_created 0.
Proof.
  assert (E : handle_row_event Fixtures.lp64 (Fixtures.router_created 0)
                Fixtures.update_hdr Fixtures.update_payload
              = Ret (false, Fixtures.router_created 0)) by (vm_compute; reflexivity).
  split; [exact E|].
  exact (failed_row_event_changes_nothing _ _ _ _ _ E).
Defined.

(** X4: a table-map event that [handle_table_map_event] reports as failed
    (no CREATE seen for the table, no map, no schema or no Avro file) has
    left the router as it was. *)
Theorem failed_table_map_event_changes_nothing (ext : Externals)
    (router router' : AVRO_INSTANCE) (hdr : REP_HEADER) (ptr : list byte) :
  handle_table_map_event ext router hdr ptr = Ret (false, router') ->
  router' = router.
Proof.
  unfold handle_table_map_event.
  destruct (read_table_info ptr _) as [id table_ident].
  destruct (created_tables router !! table_ident) as [create|].
  2: { intros E. by inversion E. }
  destruct (match table_maps router !! table_ident with
            | Some o => negb (tm_version o =? tc_version create)
            | None => true
            end); [|discriminate].
  destruct (table_map_alloc ptr _ create) as [map|].
  2: { intros E. by inversion E. }
  destruct (json_new_schema_from_table ext map) as [json|].
  2: { intros E. by inversion E. }
  destruct (avro_table_alloc ext _ json) as [table|].
  2: { intros E. by inversion E. }
  destruct (match table_maps router !! table_ident with
            | Some o => active_maps_set _ _ None
            | None => Ret (active_maps router)
            end) as [am1| | |]; cbn [mbind outcome_bind]; try discriminate.
  destruct (active_maps_set am1 _ _) as [am2| | |]; cbn [mbind outcome_bind];
    discriminate.
Qed.

Lemma failed_table_map_event_changes_nothing_witness :
  handle_table_map_event Fixtures.lp64 MoreFixtures.router_blank
                         Fixtures.table_map_hdr
                         (Fixtures.table_map_payload MoreFixtures.id_42)
    = Ret (false, MoreFixtures.router_blank)
  /\ MoreFixtures.router_blank = MoreFixtures.router_blank.
Proof.
  assert (E : handle_table_map_event Fixtures.lp64 MoreFixtures.router_blank
                Fixtures.table_map_hdr
                (Fixtures.table_map_payload MoreFixtures.id_42)
              = Ret (false, MoreFixtures.router_blank)) by (vm_compute; reflexivity).
  split; [exact E|].
  exact (failed_table_map_event_changes_nothing _ _ _ _ _ E).
Defined.


Lemma hdr_len_of_with_maps (r : AVRO_INSTANCE) am tm ot (e : list effect) (event : Z) :
  hdr_len_of (with_maps (emit r e) am tm ot) event = hdr_len_of r event.
Proof. reflexivity. Qed.









(** With no column a row image takes no byte: the loop does not move. *)
Lemma row_loop_no_columns (fuel : nat) (router : AVRO_INSTANCE) (hdr : REP_HEADER)
    (map : TABLE_MAP) (create : TABLE_CREATE) (buf col_present : list byte)
    (bound ptr : Z) (record : avro_value) (table : AVRO_TABLE) (rows : Z) :
  tm_columns map = 0 -> ptr < bound ->
  row_loop fuel router hdr map create buf col_present bound ptr record table rows
  = None.
Proof.
  intros Hzero Hlt.
  assert (Hrow : forall rec, process_row_event_data map create rec buf ptr
                               col_present = Ret (ptr, rec)).
  { intros rec. unfold process_row_event_data, column_indices.
    rewrite Hzero. change ((0 + 7) / 8) with 0. change (Z.to_nat 0) with O.
    cbn [seq fmap list_fmap process_columns mbind outcome_bind rs_ptr rs_record].
    by rewrite Z.add_0_r. }
  revert record table rows.
  induction fuel as [|fuel IH]; intros record table rows; [done|].
  cbn [row_loop]. destruct (Z.ltb_spec ptr bound) as [_|]; [|lia].
  unfold row_round. rewrite Hrow. cbn [mbind outcome_bind].
  destruct (get_event_type (hdr_event_type hdr) =? UPDATE_EVENT).
  - rewrite Hrow. cbn [mbind outcome_bind]. apply IH.
  - apply IH.
Qed.



(** X9: for a table map without columns a row event with bytes left after
    its header never ends: the row loop stays where it is for any number of
    rounds, and [handle_row_event] does not return. *)
Theorem zero_column_row_event_never_ends (ext : Externals) (router : AVRO_INSTANCE)
    (hdr : REP_HEADER) (buf : list byte) (map : TABLE_MAP) (table : AVRO_TABLE)
    (create : TABLE_CREATE) :
  let p := read_row_prefix router hdr buf in
  (rp_table_id p =? TABLE_DUMMY_ID)
    && negb (Z.land (rp_flags p) ROW_EVENT_END_STATEMENT =? 0) = false ->
  active_maps_get router (active_maps_index ext (rp_table_id p)) = Ret (Some map) ->
  open_tables router !! table_ident_of map = Some table ->
  table_create map = Some create ->
  rp_ncolumns p = 0 ->
  tm_columns map = 0 ->
  rp_ptr p < row_bound hdr ->
  handle_row_event ext router hdr buf = Diverges
  /\ forall fuel : nat,
       row_loop fuel router hdr map create buf (rp_col_present p) (row_bound hdr)
                (rp_ptr p) new_record table 0 = None.
Proof.
  intros p Hdummy Hslot Htable Hcreate Hcols Hzero Hlt.
  assert (Hloop : forall fuel : nat,
             row_loop fuel router hdr map create buf (rp_col_present p)
                      (row_bound hdr) (rp_ptr p) new_record table 0 = None).
  { intros fuel. by apply row_loop_no_columns. }
  split; [|exact Hloop].
  unfold handle_row_event. fold p. rewrite Hdummy, Hslot. cbn [mbind outcome_bind].
  by rewrite Htable, Hcreate, Hcols, Hzero, Z.eqb_refl, Hloop.
Qed.

Lemma zero_column_row_event_never_ends_witness :
  handle_row_event Fixtures.lp64 MoreFixtures.router_empty MoreFixtures.no_column_hdr
                   MoreFixtures.no_column_payload = Diverges.
Proof.
  apply (zero_column_row_event_never_ends Fixtures.lp64 MoreFixtures.router_empty
           MoreFixtures.no_column_hdr MoreFixtures.no_column_payload
           MoreFixtures.map_empty Fixtures.table_d_t MoreFixtures.create_empty).
  - vm_compute. reflexivity.
  - vm_compute. reflexivity.
  - reflexivity.
  - reflexivity.
  - vm_compute. reflexivity.
  - reflexivity.
  - vm_compute. reflexivity.
Defined.

Lemma le_value_bound (bs : list byte) : le_value bs < 256 ^ Z.of_nat (length bs).
Proof.
  induction bs as [|b bs IH]; [done|].
  cbn [le_value length]. rewrite Nat2Z.inj_succ, Z.pow_succ_r by lia.
  pose proof (u8_range b). lia.
Qed.

Lemma length_peek_n (buf : list byte) (off : Z) (n : nat) :
  length (peek_n buf off n) = n.
Proof. revert off. induction n as [|n IH]; intros off; [done|]. cbn. by rewrite IH. Qed.

Lemma peek_peek_n (buf : list byte) (off : Z) (n : nat) (i : Z) :
  0 <= i < Z.of_nat n -> peek (peek_n buf off n) i = peek buf (off + i).
Proof.
  revert off i. induction n as [|n IH]; intros off i Hi; [lia|].
  cbn [peek_n]. destruct (Z.eq_dec i 0) as [->|Hne].
  - by rewrite Z.add_0_r.
  - rewrite peek_cons by lia. rewrite IH by lia. f_equal. lia.
Qed.

Lemma peek_n_peek_n (buf : list byte) (n m : nat) (off : Z) :
  (m <= n)%nat -> 0 <= off ->
  peek_n (peek_n buf 0 n) off (m - Z.to_nat off) = peek_n buf off (m - Z.to_nat off).
Proof.
  intros Hmn. remember (m - Z.to_nat off)%nat as k eqn:Hk.
  revert off Hk. induction k as [|k IH]; intros off Hk Hoff; [done|].
  cbn [peek_n]. rewrite peek_peek_n by lia. rewrite Z.add_0_l. f_equal.
  apply IH; lia.
Qed.

Lemma peek_n_prefix (buf : list byte) (n : nat) :
  peek_n (peek_n buf 0 n) 0 n = peek_n buf 0 n.
Proof.
  pose proof (peek_n_peek_n buf n n 0) as H. rewrite Nat.sub_0_r in H.
  apply H; lia.
Qed.

Lemma signed32_small (v : Z) : 0 <= v < 2 ^ 31 -> signed32 v = v.
Proof.
  intros Hv. unfold signed32, wrap32. rewrite Z.mod_small by lia.
  destruct (Z.leb_spec (2 ^ 31) v); lia.
Qed.

(** X10: the integer that a TINY, SHORT or INT24 column gives is the
    unsigned little-endian number of its 1, 2 or 3 bytes: it is never
    negative, whatever the sign of the column in the table. *)
Theorem small_integers_are_read_unsigned (src : list byte) (type : Z) :
  type = TABLE_COL_TYPE_TINY \/ type = TABLE_COL_TYPE_SHORT
  \/ type = TABLE_COL_TYPE_INT24 ->
  let lval := (unpack_numeric_field src type).1 in
  let size := (unpack_numeric_field src type).2 in
  1 <= size <= 3
  /\ set_numeric_field_value type lval
     = Some (AvInt (le_value (peek_n src 0 (Z.to_nat size))))
  /\ 0 <= le_value (peek_n src 0 (Z.to_nat size)) < 256 ^ size.
Proof.
  intros Htype.
  assert (Hrange : forall n : nat,
             0 <= le_value (peek_n src 0 n) < 256 ^ Z.of_nat n).
  { intros n. split; [apply le_value_nonneg|].
    pose proof (le_value_bound (peek_n src 0 n)) as H.
    by rewrite length_peek_n in H. }
  destruct Htype as [->|[->| ->]]; cbv zeta;
    unfold unpack_numeric_field, set_numeric_field_value; cbn [fst snd one_of existsb];
    cbv [Z.eqb TABLE_COL_TYPE_TINY TABLE_COL_TYPE_SHORT TABLE_COL_TYPE_INT24
         TABLE_COL_TYPE_LONG TABLE_COL_TYPE_FLOAT TABLE_COL_TYPE_LONGLONG
         TABLE_COL_TYPE_DOUBLE Pos.eqb orb];
    (split; [lia|]);
    (split; [|match goal with
              | |- context [Z.to_nat ?k] => exact (Hrange (Z.to_nat k))
              end]).
  - change (Z.to_nat 1) with 1%nat. cbn [peek_n le_value].
    change (peek [peek src 0] 0) with (peek src 0).
    pose proof (u8_range (peek src 0)).
    rewrite signed32_small by lia. do 2 f_equal. lia.
  - change (Z.to_nat 2) with 2%nat. rewrite peek_n_prefix.
    pose proof (Hrange 2%nat). rewrite signed32_small; [done|]. cbn in *. lia.
  - change (Z.to_nat 3) with 3%nat. rewrite peek_n_prefix.
    pose proof (Hrange 3%nat). rewrite signed32_small; [done|]. cbn in *. lia.
Qed.

Lemma small_integers_are_read_unsigned_witness :
  set_numeric_field_value TABLE_COL_TYPE_SHORT
    (unpack_numeric_field [Byte.xff; Byte.xff] TABLE_COL_TYPE_SHORT).1
  = Some (AvInt 65535).
Proof.
  destruct (small_integers_are_read_unsigned [Byte.xff; Byte.xff]
              TABLE_COL_TYPE_SHORT) as (_ & Hval & _).
  - right. left. reflexivity.
  - exact Hval.
Defined.

(** The four bytes of a LONG column come out as a signed number, and of
    the eight bytes of a LONGLONG column the lower four. *)
Lemma wide_integers_are_cut_to_32_bits :
  set_numeric_field_value TABLE_COL_TYPE_LONG
    [Byte.xff; Byte.xff; Byte.xff; Byte.xff] = Some (AvInt (-1))
  /\ set_numeric_field_value TABLE_COL_TYPE_LONGLONG
       [Byte.x01; Byte.x00; Byte.x00; Byte.x00;
        Byte.x01; Byte.x00; Byte.x00; Byte.x00] = Some (AvInt 1).
Proof. split; vm_compute; reflexivity. Qed.

End RowEventFacts.

(** ** Column values (mysql_binlog.c) *)

Section ColumnValueFacts.
Import Bytes MaxAvro Binlog MysqlBinlog Router Rbr AvroFile AvroClient.

(** X11: the column classes that [process_row_event_data] tests one after
    the other overlap in one place only: a BIT column is also a variable
    string (so the test for BIT has to come first, as it does); fixed
    strings, variable strings, blobs and temporal types exclude each
    other. *)
Theorem column_classes_overlap_only_for_bit (type : Z) :
  implb (column_is_bit type) (column_is_variable_string type) = true
  /\ (length (List.filter (fun b : bool => b)
                [column_is_fixed_string type; column_is_variable_string type;
                 column_is_blob type; column_is_temporal type]) <= 1)%nat.
Proof.
  unfold column_is_bit, column_is_variable_string, column_is_fixed_string,
    column_is_blob, column_is_temporal, one_of, existsb.
  split.
  - split_type type. done.
  - split_type type. cbn. lia.
Qed.

(** X12: [unpack_datetime2] takes the five bytes as a big-endian number
    that holds, above the offset 0x8000000000, the fields
    year*13+month | day (5 bits) | hour (5) | minute (6) | second (6), and
    gives them back one by one: [tm_year] is the year itself and [tm_mon]
    the month as stored. *)
Theorem unpack_datetime2_fields (ptr : list byte)
    (year mon mday hour min sec : Z) :
  0 <= year -> 0 <= mon < 13 -> 0 <= mday < 32 -> 0 <= hour < 32 ->
  0 <= min < 64 -> 0 <= sec < 64 ->
  unpack5 ptr = DATETIME2_OFFSET
                + ((year * 13 + mon) * 32 + mday) * 2 ^ 17
                + hour * 2 ^ 12 + min * 2 ^ 6 + sec ->
  unpack_datetime2 ptr = TmFields sec min hour mday mon year.
Proof.
  intros Hy Hmo Hd Hh Hmi Hs Hval. unfold unpack_datetime2. rewrite Hval.
  set (v := DATETIME2_OFFSET + _ + _ + _ + _ - DATETIME2_OFFSET).
  assert (Hv : v = ((year * 13 + mon) * 32 + mday) * 131072
                   + hour * 4096 + min * 64 + sec) by (subst v; lia).
  assert (0 <= v) by lia.
  destruct (Z.ltb_spec v 0) as [|_]; [lia|].
  rewrite !Z.shiftr_div_pow2, !Z.shiftl_1_l by lia.
  change (2 ^ 17) with 131072. change (2 ^ 5) with 32. change (2 ^ 6) with 64.
  change (2 ^ 12) with 4096.
  assert (Hdate : v / 131072 = (year * 13 + mon) * 32 + mday).
  { symmetry. apply (Z.div_unique_pos _ _ _ (hour * 4096 + min * 64 + sec)); lia. }
  assert (Htime : v mod 131072 = hour * 4096 + min * 64 + sec).
  { symmetry. apply (Z.mod_unique_pos _ _ ((year * 13 + mon) * 32 + mday)); lia. }
  rewrite Hdate, Htime.
  assert (Hym : ((year * 13 + mon) * 32 + mday) / 32 = year * 13 + mon).
  { symmetry. apply (Z.div_unique_pos _ _ _ mday); lia. }
  rewrite Hym. f_equal.
  - symmetry. apply (Z.mod_unique_pos _ _ (hour * 64 + min)); lia.
  - replace ((hour * 4096 + min * 64 + sec) / 64) with (hour * 64 + min)
      by (apply (Z.div_unique_pos _ _ _ sec); lia).
    symmetry. apply (Z.mod_unique_pos _ _ hour); lia.
  - symmetry. apply (Z.div_unique_pos _ _ _ (min * 64 + sec)); lia.
  - symmetry. apply (Z.mod_unique_pos _ _ (year * 13 + mon)); lia.
  - symmetry. apply (Z.mod_unique_pos _ _ year); lia.
  - symmetry. apply (Z.div_unique_pos _ _ _ mon); lia.
Qed.

Lemma unpack_datetime2_fields_witness :
  unpack_datetime2 MoreFixtures.datetime2_bytes = TmFields 30 20 10 17 5 2016.
Proof.
  apply unpack_datetime2_fields; try lia. vm_compute. reflexivity.
Defined.

(** X13: [unpack_date] takes the three bytes as a little-endian number
    year | month (4 bits) | day (5 bits): [tm_mday] is the day, [tm_mon]
    the month as stored and [tm_year] the year less 1900. *)
Theorem unpack_date_fields (ptr : list byte) (year mon mday : Z) :
  0 <= year -> 0 <= mon < 16 -> 0 <= mday < 32 ->
  le_value (peek_n ptr 0 3) = year * 512 + mon * 32 + mday ->
  unpack_date ptr = TmFields 0 0 0 mday mon (year - 1900).
Proof.
  intros Hy Hmo Hd Hval. unfold unpack_date.
  cbn [peek_n le_value] in Hval. change (0 + 1) with 1 in Hval.
  change (1 + 1) with 2 in Hval.
  rewrite !Z.shiftl_mul_pow2 by lia.
  replace (u8 (peek ptr 0) + u8 (peek ptr 1) * 2 ^ 8 + u8 (peek ptr 2) * 2 ^ 16)
    with (year * 512 + mon * 32 + mday) by lia.
  change 31 with (Z.ones 5). change 15 with (Z.ones 4).
  rewrite !Z.land_ones, !Z.shiftr_div_pow2 by lia.
  change (2 ^ 5) with 32. change (2 ^ 4) with 16. change (2 ^ 9) with 512.
  f_equal.
  - symmetry. apply (Z.mod_unique_pos _ _ (year * 16 + mon)); lia.
  - replace ((year * 512 + mon * 32 + mday) / 32) with (year * 16 + mon)
      by (apply (Z.div_unique_pos _ _ _ mday); lia).
    symmetry. apply (Z.mod_unique_pos _ _ year); lia.
  - f_equal. symmetry. apply (Z.div_unique_pos _ _ _ (mon * 32 + mday)); lia.
Qed.

Lemma unpack_date_fields_witness :
  unpack_date MoreFixtures.date_bytes = TmFields 0 0 0 17 5 (2016 - 1900).
Proof.
  apply unpack_date_fields; try lia. vm_compute. reflexivity.
Defined.

(** X14: [unpack_time] takes the three bytes as a big-endian number that
    reads HHMMSS in decimal. *)
Theorem unpack_time_fields (ptr : list byte) (hour min sec : Z) :
  0 <= hour -> 0 <= min < 100 -> 0 <= sec < 100 ->
  unpack3 ptr = hour * 10000 + min * 100 + sec ->
  unpack_time ptr = TmFields sec min hour 0 0 0.
Proof.
  intros Hh Hm Hs Hval. unfold unpack_time. rewrite Hval.
  assert (H1 : (hour * 10000 + min * 100 + sec) / 100 = hour * 100 + min).
  { symmetry. apply (Z.div_unique_pos _ _ _ sec); lia. }
  assert (H2 : (hour * 100 + min) / 100 = hour).
  { symmetry. apply (Z.div_unique_pos _ _ _ min); lia. }
  rewrite !H1, !H2. f_equal; lia.
Qed.

Lemma unpack_time_fields_witness :
  unpack_time MoreFixtures.time_bytes = TmFields 30 20 10 0 0 0.
Proof.
  apply unpack_time_fields; try lia. vm_compute. reflexivity.
Defined.

End ColumnValueFacts.

(** ** Datablocks and their sync marker (maxavro_write.c, maxavro_file.c) *)

Section DatablockFacts.
Import Bytes MaxAvro Binlog MysqlBinlog Router Rbr AvroFile AvroClient.
Import MaxAvroBlocks.

Lemma datablock_add_records (alloc_ok : bool) (block : MAXAVRO_DATABLOCK)
    (required : Z) (enc : list byte) :
  records (datablock_add alloc_ok block required enc).2 = records block.
Proof.
  unfold datablock_add, reallocate_datablock.
  destruct (buffersize block <=? wrap64 required); [|done].
  destruct (wrap64 (buffersize block * 2) =? 0); [done|].
  by destruct alloc_ok.
Qed.

Lemma datablock_append_records (alloc_ok : bool) (block : MAXAVRO_DATABLOCK)
    (op : append) :
  records (datablock_append alloc_ok block op).2 = records block.
Proof. destruct op; apply datablock_add_records. Qed.

(** X15: none of the append functions counts the value it adds: after any
    run of appends, successful or not, [records] is what it was, and a
    block that comes from [maxavro_datablock_allocate] still has a record
    count of zero. *)
Theorem appends_do_not_count_records (block : MAXAVRO_DATABLOCK)
    (ops : list (bool * append)) (file : MAXAVRO_FILE) (buffersize : Z) :
  records (datablock_appends block ops) = records block
  /\ match maxavro_datablock_allocate true true file buffersize with
     | EmptyBlock fresh => records (datablock_appends fresh ops) = 0
     | _ => False
     end.
Proof.
  assert (H : forall b, records (datablock_appends b ops) = records b).
  { unfold datablock_appends. induction ops as [|op ops IH]; intros b; [done|].
    cbn [fold_left]. by rewrite IH, datablock_append_records. }
  split; [apply H|]. cbn. by rewrite H.
Qed.

(** An append that finds the room it asks for stores its encoding after
    the bytes of the block and leaves the buffer as large as it was. *)
Lemma datablock_add_in_capacity (alloc_ok : bool) (block : MAXAVRO_DATABLOCK)
    (required : Z) (enc : list byte) :
  heap block = HeapValid ->
  datasize block = Z.of_nat (length (buffer block)) ->
  0 <= required < buffersize block -> buffersize block < 2 ^ 64 ->
  datasize block + Z.of_nat (length enc) <= buffersize block ->
  datablock_add alloc_ok block required enc
  = (true, mkBLOCK (avrofile block) (buffer block ++ enc) (buffersize block)
                   (datasize block + Z.of_nat (length enc)) (records block)
                   HeapValid).
Proof.
  intros Hheap Hsize Hreq Hcap Hfit. unfold datablock_add.
  rewrite wrap64_small by lia.
  destruct (Z.leb_spec (buffersize block) required); [lia|].
  unfold store_encoded. rewrite Hheap, Hsize, Nat2Z.id, firstn_all, Nat.sub_diag.
  cbn [replicate app].
  rewrite wrap64_small by lia.
  rewrite take_ge by (rewrite length_app; lia).
  destruct (Z.leb_spec (Z.of_nat (length (buffer block)) + Z.of_nat (length enc))
                       (buffersize block)); [|lia].
  by rewrite Nat.leb_refl.
Qed.

Lemma encode_integer_length (val : Z) :
  (length (maxavro_encode_integer val) <= 10)%nat.
Proof. apply emit_groups_length. Qed.

Lemma le_bytes_length (n : nat) (v : Z) : length (le_bytes n v) = n.
Proof.
  revert v. induction n as [|n IH]; intros v; [done|].
  cbn [le_bytes length]. by rewrite IH.
Qed.

(** No encoding is more than one byte longer than the room its append
    function asks for. *)
Lemma encoding_length (op : append) :
  Z.of_nat (length (encoding op)) <= reserved op + 1.
Proof.
  destruct op as [val|str|bits|bits]; cbn [encoding reserved].
  - pose proof (encode_integer_length val). lia.
  - pose proof (encode_string_length str). lia.
  - unfold maxavro_encode_float. rewrite le_bytes_length. lia.
  - unfold maxavro_encode_double. rewrite le_bytes_length. lia.
Qed.

Lemma datablock_append_in_capacity (alloc_ok : bool) (block : MAXAVRO_DATABLOCK)
    (op : append) :
  heap block = HeapValid ->
  datasize block = Z.of_nat (length (buffer block)) ->
  datasize block + reserved op + 1 <= buffersize block ->
  buffersize block < 2 ^ 64 ->
  datablock_append alloc_ok block op
  = (true, mkBLOCK (avrofile block) (buffer block ++ encoding op)
                   (buffersize block)
                   (datasize block + Z.of_nat (length (encoding op)))
                   (records block) HeapValid).
Proof.
  intros Hheap Hsize Hroom Hcap.
  pose proof (encoding_length op) as Hlen.
  destruct op as [val|str|bits|bits]; cbn [encoding reserved] in *;
    apply datablock_add_in_capacity; try done; lia.
Qed.

(** X16: a run of appends to a block whose [datasize] bytes are all in
    its buffer, and whose buffer has the room that every append asks for
    and one byte more, never calls [realloc]: whatever that call would
    answer, the buffer holds afterwards the bytes that were there followed
    by the encodings of the values, in the order of the calls, [datasize]
    is their number, the capacity is what it was and no byte was stored
    outside the buffer. *)
Theorem appends_concatenate_encodings (block : MAXAVRO_DATABLOCK)
    (ops : list (bool * append)) :
  heap block = HeapValid ->
  datasize block = Z.of_nat (length (buffer block)) ->
  buffersize block < 2 ^ 64 ->
  datasize block + foldr (fun op acc => reserved op.2 + 1 + acc) 0 ops
    <= buffersize block ->
  let b' := datablock_appends block ops in
  buffer b' = buffer block ++ concat ((fun op => encoding op.2) <$> ops)
  /\ datasize b' = Z.of_nat (length (buffer b'))
  /\ buffersize b' = buffersize block
  /\ heap b' = HeapValid.
Proof.
  revert block. induction ops as [|[ok op] ops IH];
    intros block Hheap Hsize Hcap Hroom.
  - cbn. by rewrite app_nil_r.
  - cbn [foldr snd] in Hroom.
    assert (Hpos : 0 <= foldr (fun op acc => reserved op.2 + 1 + acc) 0 ops).
    { clear. induction ops as [|[? op] ops IH]; cbn [foldr snd]; [lia|].
      pose proof (encoding_length op). lia. }
    pose proof (encoding_length op) as Hlen.
    unfold datablock_appends. cbn [fold_left fst snd fmap list_fmap concat].
    rewrite (datablock_append_in_capacity ok block op) by (done || lia).
    cbn [snd].
    set (b1 := mkBLOCK _ _ _ _ _ _).
    destruct (IH b1) as (Hb & Hd & Hc & Hh).
    + done.
    + subst b1. cbn [datasize buffer]. rewrite length_app. lia.
    + done.
    + subst b1. cbn [datasize buffersize]. lia.
    + cbv zeta in Hb, Hd, Hc, Hh. unfold datablock_appends in Hb, Hd, Hc, Hh.
      split; [|split; [exact Hd|split; [exact Hc|exact Hh]]].
      rewrite Hb. subst b1. cbn [buffer]. by rewrite <- app_assoc.
Qed.

Lemma appends_concatenate_encodings_witness :
  buffer (datablock_appends Fixtures.empty_block
            [(false, AddInteger 1); (false, AddFloat 1065353216)])
  = [Byte.x02; Byte.x00; Byte.x00; Byte.x80; Byte.x3f]
  /\ heap (datablock_appends Fixtures.empty_block
             [(false, AddInteger 1); (false, AddFloat 1065353216)])
     = HeapValid.
Proof.
  destruct (appends_concatenate_encodings Fixtures.empty_block
              [(false, AddInteger 1); (false, AddFloat 1065353216)])
    as (Hbuf & _ & _ & Hheap).
  - reflexivity.
  - reflexivity.
  - vm_compute. reflexivity.
  - vm_compute. discriminate.
  - split; [exact Hbuf|exact Hheap].
Defined.

(** X17: a block that was finalized with success has a capacity of zero:
    every later append finds the buffer full and asks [realloc] for twice
    zero bytes, which frees the buffer and gives no memory.  The append
    fails whatever the allocator would have answered to another request,
    nothing is stored, and the block keeps the address of a buffer that
    was freed. *)
Theorem appends_after_finalize_have_no_capacity (block block' : MAXAVRO_DATABLOCK)
    (alloc_ok : bool) (op : append) :
  maxavro_datablock_finalize block = (true, block') ->
  let res := datablock_append alloc_ok block' op in
  res.1 = false
  /\ buffersize res.2 = 0
  /\ datasize res.2 = datasize block
  /\ buffer res.2 = buffer block
  /\ heap res.2 <> HeapValid.
Proof.
  intros Hfin.
  destruct (finalize_success_shape _ _ Hfin) as (_ & Hcap & Hsize & Hbuf).
  assert (Hadd : forall required enc,
             let res := datablock_add alloc_ok block' required enc in
             res.1 = false /\ buffersize res.2 = 0
             /\ datasize res.2 = datasize block
             /\ buffer res.2 = buffer block
             /\ heap res.2 <> HeapValid).
  { intros required enc. unfold datablock_add, reallocate_datablock.
    rewrite Hcap. pose proof (wrap64_nonneg required).
    destruct (Z.leb_spec 0 (wrap64 required)) as [_|]; [|lia].
    change (wrap64 (0 * 2) =? 0) with true.
    cbn [fst snd set_heap buffersize datasize buffer heap].
    repeat split; try done. by destruct (heap block'). }
  destruct op; apply Hadd.
Qed.

Lemma appends_after_finalize_have_no_capacity_witness :
  maxavro_datablock_finalize (Fixtures.one_record_block 1000)
    = (true, (maxavro_datablock_finalize (Fixtures.one_record_block 1000)).2)
  /\ (datablock_append true
        (maxavro_datablock_finalize (Fixtures.one_record_block 1000)).2
        (AddInteger 1)).1 = false.
Proof.
  assert (E : maxavro_datablock_finalize (Fixtures.one_record_block 1000)
              = (true, (maxavro_datablock_finalize (Fixtures.one_record_block 1000)).2))
    by (vm_compute; reflexivity).
  split; [exact E|].
  destruct (appends_after_finalize_have_no_capacity _ _ true (AddInteger 1) E)
    as (Hres & _).
  exact Hres.
Defined.

Lemma store_at_read (data : list byte) (pos : nat) (bs : list byte) :
  take (length bs) (drop pos (store_at data pos bs)) = bs.
Proof.
  destruct (decide (bs = [])) as [->|Hbs]; [done|].
  rewrite store_at_cons by done.
  assert (Hlen : length (take pos data ++ replicate (pos - length data) Byte.x00)
                 = pos) by apply store_at_front.
  rewrite (app_assoc (take pos data)).
  rewrite <- Hlen at 1. rewrite drop_app_length.
  by rewrite take_app_length.
Qed.

(** After a successful finalization the last sixteen bytes that the
    program has written are the sync marker of the file. *)
Lemma finalize_success_sync (block block' : MAXAVRO_DATABLOCK) :
  maxavro_datablock_finalize block = (true, block') ->
  let f' := file (avrofile block') in
  (SYNC_MARKER_SIZE <= ftell f')%nat
  /\ take SYNC_MARKER_SIZE (drop (ftell f' - SYNC_MARKER_SIZE) (stream_view f'))
     = take SYNC_MARKER_SIZE (sync (avrofile block))
  /\ length (take SYNC_MARKER_SIZE (sync (avrofile block))) = SYNC_MARKER_SIZE
  /\ sync (avrofile block') = sync (avrofile block).
Proof.
  intros Hfin f'.
  destruct (finalize_success_view _ _ Hfin) as (Hview & Htell & Hlen & Hsync & _).
  cbv zeta in Hview, Htell. fold f' in Hview, Htell.
  unfold block_bytes in Hview, Htell.
  set (mark := take SYNC_MARKER_SIZE (sync (avrofile block))) in *.
  rewrite !app_assoc in Hview, Htell.
  set (front := (_ ++ _) ++ (buffer_read _ _).1) in *.
  rewrite length_app, Hlen in Htell.
  split; [lia|]. split; [|done].
  rewrite Hview, <- store_at_store_at.
  replace (ftell f' - SYNC_MARKER_SIZE)%nat
    with (ftell (file (avrofile block)) + length front)%nat by lia.
  rewrite <- Hlen at 1. apply store_at_read.
Qed.

Lemma bytes_eqb_refl (a : list byte) : bytes_eqb a a = true.
Proof.
  induction a as [|x a IH]; [done|]. cbn. rewrite IH, andb_true_r.
  by apply Byte.byte_dec_lb.
Qed.

(** X18: the sync marker that ends a block written by
    [maxavro_datablock_finalize] is the one that [maxavro_verify_block]
    looks for: once the stream has been flushed with success, a reader of
    the file with the marker of the file that stands sixteen bytes before
    the end of the block accepts the block, counts it and adds its size to
    the bytes read. *)
Theorem finalized_block_is_verified (block block' : MAXAVRO_DATABLOCK)
    (written : FILE) (reader : MAXAVRO_READER) :
  maxavro_datablock_finalize block = (true, block') ->
  fflush (file (avrofile block')) = (true, written) ->
  sync (rd_file reader) = sync (avrofile block) ->
  f_data (file (rd_file reader)) = f_data written ->
  f_pos (file (rd_file reader)) = (f_pos written - SYNC_MARKER_SIZE)%nat ->
  exists reader',
    maxavro_verify_block reader = (true, reader')
    /\ f_pos (file (rd_file reader')) = f_pos written
    /\ blocks_read reader' = blocks_read reader + 1
    /\ bytes_read reader' = bytes_read reader + block_size reader.
Proof.
  intros Hfin Hflush Hsync Hdata Hpos.
  destruct (finalize_success_sync _ _ Hfin) as (Hge & Hmark & Hlen & _).
  destruct (fflush_view _ _ Hflush) as (Hview & Htell & _).
  cbv zeta in Hge, Hmark. rewrite <- Hview, <- Htell in Hmark.
  rewrite <- Htell in Hge.
  unfold maxavro_verify_block, fread. rewrite Hdata, Hpos, Hmark, Hsync, Hlen.
  rewrite Nat.eqb_refl, bytes_eqb_refl. cbn [negb].
  eexists. split; [reflexivity|]. cbn [rd_file file f_pos blocks_read bytes_read].
  split; [lia|done].
Qed.

Lemma finalized_block_is_verified_witness :
  exists reader',
    maxavro_verify_block
      (MoreFixtures.reader_at_sync
         (fflush (file (avrofile
            (maxavro_datablock_finalize (Fixtures.one_record_block 1000)).2))).2
         (replicate 16 Byte.xaa))
    = (true, reader')
    /\ blocks_read reader' = 1.
Proof.
  assert (E : maxavro_datablock_finalize (Fixtures.one_record_block 1000)
              = (true, (maxavro_datablock_finalize (Fixtures.one_record_block 1000)).2))
    by (vm_compute; reflexivity).
  set (block' := (maxavro_datablock_finalize (Fixtures.one_record_block 1000)).2)
    in *.
  assert (F : fflush (file (avrofile block'))
              = (true, (fflush (file (avrofile block'))).2))
    by (vm_compute; reflexivity).
  destruct (finalized_block_is_verified _ _ _
              (MoreFixtures.reader_at_sync (fflush (file (avrofile block'))).2
                                           (replicate 16 Byte.xaa)) E F)
    as (reader' & Hok & _ & Hblocks & _).
  - vm_compute. reflexivity.
  - reflexivity.
  - reflexivity.
  - exists reader'. split; [exact Hok|exact Hblocks].
Defined.

End DatablockFacts.

(** ** Transactions and the end of the conversion loop (avro_file.c) *)

Section ConversionLoopFacts.
Import Bytes MaxAvro Binlog MysqlBinlog Router Rbr AvroFile AvroClient.
Import QueryEvents.




Lemma handle_format_description_keeps (st st1 : loop_state) (hdr : REP_HEADER)
    (ptr : list byte) :
  handle_format_description st hdr ptr = Ret st1 ->
  ls_last_known_commit st1 = ls_last_known_commit st /\ ls_pos st1 = ls_pos st.
Proof.
  unfold handle_format_description.
  destruct (inside ptr _ 1); [|discriminate].
  destruct (_ && _); [discriminate|].
  destruct (copy_hdr_lens _ _ _) as [r| | |]; cbn [mbind outcome_bind];
    try discriminate.
  destruct (if _ <? _ then _ else _) as [f| | |]; cbn [mbind outcome_bind];
    try discriminate.
  by intros [= <-].
Qed.

Lemma handle_format_description_returns (st : loop_state) (hdr : REP_HEADER)
    (ptr : list byte) :
  handle_format_description st hdr ptr <> Diverges.
Proof.
  unfold handle_format_description.
  destruct (inside ptr _ 1); [|done].
  destruct (_ && _); [done|].
  unfold copy_hdr_lens. destruct (_ || _); [done|]. cbn [mbind outcome_bind].
  destruct (_ <? _); [|done]. by destruct (inside ptr _ 1).
Qed.

Lemma dispatch_event_keeps (ext : Externals) (st st1 : loop_state)
    (hdr : REP_HEADER) (ptr : list byte) :
  dispatch_event ext st hdr ptr = Ret st1 ->
  ls_last_known_commit st1 = ls_last_known_commit st /\ ls_pos st1 = ls_pos st.
Proof.
  unfold dispatch_event.
  destruct (_ =? FORMAT_DESCRIPTION_EVENT).
  { intros E. by apply handle_format_description_keeps in E. }
  destruct (_ =? STOP_EVENT); [by intros [= <-]|].
  destruct (_ =? TABLE_MAP_EVENT).
  { destruct (handle_table_map_event _ _ _ _) as [[b r]| | |];
      cbn [mbind outcome_bind]; try discriminate. by intros [= <-]. }
  destruct (is_row_event _).
  { destruct (handle_row_event _ _ _ _) as [[b r]| | |];
      cbn [mbind outcome_bind]; try discriminate. by intros [= <-]. }
  destruct (_ =? ROTATE_EVENT); [by intros [= <-]|].
  destruct (_ =? MARIADB10_GTID_EVENT); [by intros [= <-]|].
  destruct (_ =? QUERY_EVENT).
  { intros [= <-]. unfold handle_query.
    by destruct (handle_query_event _ _ _ _ _). }
  destruct (_ =? XID_EVENT); [by intros [= <-]|].
  by intros [= <-].
Qed.

(** X20: the safe position moves only outside of a transaction.  When an
    event is read and the loop goes on, [last_known_commit] is the start of
    that event if no transaction was pending before it, and is what it was
    otherwise. *)
Theorem safe_position_waits_for_commit (ext : Externals) (binlog : list byte)
    (st st' : loop_state) :
  read_event ext binlog st = Ret (Next st') ->
  ls_last_known_commit st'
  = (if ls_pending_transaction st =? 0 then ls_pos st else ls_last_known_commit st).
Proof.
  unfold read_event.
  destruct (negb _).
  { destruct (0 <? _); [discriminate|]. destruct (negb _); [discriminate|].
    destruct (ls_rotate_seen st); [discriminate|].
    destruct (rotate_to_next_file_if_exists _ _). discriminate. }
  generalize (parse_header (pread binlog BINLOG_EVENT_HDR_LEN (ls_pos st))).
  intros hdr. unfold fail_at.
  destruct (_ <? hdr_event_type hdr); [discriminate|].
  destruct (hdr_event_size hdr <=? 0); [discriminate|].
  destruct (read_event_data _ _ _) as [ptr|]; [|discriminate].
  set (seen := if ls_pending_transaction st =? 0 then _ else st).
  destruct (dispatch_event ext seen hdr ptr) as [st1| | |] eqn:Hd;
    cbn [mbind outcome_bind]; try discriminate.
  apply dispatch_event_keeps in Hd as [Hc _].
  destruct (_ && _); [discriminate|]. destruct (_ && _); [discriminate|].
  destruct (0 <? hdr_next_pos hdr); [|discriminate].
  intros [= <-]. cbn [ls_last_known_commit]. rewrite Hc. subst seen.
  by destruct (ls_pending_transaction st =? 0).
Qed.

Lemma safe_position_waits_for_commit_witness :
  exists st',
    read_event Fixtures.lp64 Fixtures.bad_type_binlog
               (initial_state (Fixtures.router_created 0)) = Ret (Next st')
    /\ ls_last_known_commit st' = 4.
Proof.
  destruct (read_event Fixtures.lp64 Fixtures.bad_type_binlog
              (initial_state (Fixtures.router_created 0)))
    as [[st' | rval st'] | | |] eqn:E; try (vm_compute in E; discriminate E).
  exists st'. split; [reflexivity|].
  rewrite (safe_position_waits_for_commit _ _ _ _ E). reflexivity.
Defined.





Lemma pread_length (binlog : list byte) (count offset : Z) :
  0 <= offset -> 0 <= count ->
  Z.of_nat (length (pread binlog count offset))
  = Z.max 0 (Z.min count (Z.of_nat (length binlog) - offset)).
Proof.
  intros Ho Hc. unfold pread. rewrite length_take, length_drop. lia.
Qed.

(** X22: what the loop makes of a file with fewer than nineteen bytes left
    at its position.  Inside a transaction the result is
    [AVRO_OPEN_TRANSACTION], whether the file ends there or in the middle
    of a header; outside of one a partial header is [AVRO_BINLOG_ERROR] and
    a clean end is never an error.  In the first two cases
    [binlog_position] is left as it was and [current_pos] is the position
    reached. *)
Theorem short_header_ends_the_file (ext : Externals) (binlog : list byte)
    (st : loop_state) :
  0 <= ls_pos st ->
  Z.of_nat (length binlog) < ls_pos st + BINLOG_EVENT_HDR_LEN ->
  exists (rval : avro_binlog_end_t) (st' : loop_state),
    read_event ext binlog st = Ret (Return rval st')
    /\ (0 < ls_pending_transaction st ->
        rval = AVRO_OPEN_TRANSACTION
        /\ binlog_position (ls_router st') = binlog_position (ls_router st)
        /\ current_pos (ls_router st') = ls_pos st)
    /\ (ls_pending_transaction st <= 0 -> ls_pos st < Z.of_nat (length binlog) ->
        rval = AVRO_BINLOG_ERROR
        /\ binlog_position (ls_router st') = binlog_position (ls_router st)
        /\ current_pos (ls_router st') = ls_pos st)
    /\ (ls_pending_transaction st <= 0 -> Z.of_nat (length binlog) <= ls_pos st ->
        rval = AVRO_OK \/ rval = AVRO_LAST_FILE).
Proof.
  intros Hpos Hshort. unfold read_event.
  pose proof (pread_length binlog BINLOG_EVENT_HDR_LEN (ls_pos st) Hpos) as Hlen.
  unfold BINLOG_EVENT_HDR_LEN in *. specialize (Hlen ltac:(lia)).
  generalize dependent (pread binlog 19 (ls_pos st)). intros hdbuf Hlen.
  destruct (Z.eqb_spec (Z.of_nat (length hdbuf)) 19) as [|_]; [lia|]. cbn [negb].
  destruct (Z.ltb_spec 0 (ls_pending_transaction st)) as [Hpend|Hpend].
  { eexists _, _. split; [reflexivity|]. split; [done|]. split; intros; lia. }
  destruct (Z.eqb_spec (Z.of_nat (length hdbuf)) 0) as [Hz|Hnz]; cbn [negb].
  2: { eexists _, _. split; [reflexivity|]. split; [intros; lia|].
       split; [done|]. intros; lia. }
  destruct (ls_rotate_seen st).
  { eexists _, _. split; [reflexivity|]. split; [intros; lia|].
    split; [intros; lia|]. by left. }
  unfold rotate_to_next_file_if_exists.
  destruct (next_binlog_file ext _);
    (eexists _, _; split; [reflexivity|]; split; [intros; lia|];
     split; [intros; lia|]); [by left|by right].
Qed.

Lemma short_header_ends_the_file_witness :
  exists (rval : avro_binlog_end_t) (st' : loop_state),
    read_event Fixtures.lp64 Fixtures.BINLOG_MAGIC Fixtures.before_commit
      = Ret (Return rval st')
    /\ rval = AVRO_OPEN_TRANSACTION.
Proof.
  destruct (short_header_ends_the_file Fixtures.lp64 Fixtures.BINLOG_MAGIC
              Fixtures.before_commit) as (rval & st' & Hret & Hopen & _).
  - vm_compute. discriminate.
  - vm_compute. reflexivity.
  - exists rval, st'. split; [exact Hret|].
    apply Hopen. vm_compute. reflexivity.
Defined.

Lemma handle_table_map_event_returns (ext : Externals) (router : AVRO_INSTANCE)
    (hdr : REP_HEADER) (ptr : list byte) :
  handle_table_map_event ext router hdr ptr <> Diverges.
Proof.
  unfold handle_table_map_event.
  destruct (read_table_info ptr _) as [id table_ident].
  destruct (created_tables router !! table_ident) as [create|]; [|done].
  destruct (match table_maps router !! table_ident with
            | Some o => negb (tm_version o =? tc_version create)
            | None => true
            end); [|done].
  destruct (table_map_alloc ptr _ create) as [map|]; [|done].
  destruct (json_new_schema_from_table ext map) as [json|]; [|done].
  destruct (avro_table_alloc ext _ json) as [table|]; [|done].
  assert (Hset : forall am i v, active_maps_set am i v <> Diverges).
  { intros am i v. unfold active_maps_set. by case_bool_decide. }
  destruct (table_maps router !! table_ident) as [o|].
  - pose proof (Hset (active_maps router) (active_maps_index ext (tm_id o)) None).
    destruct (active_maps_set (active_maps router) _ None) as [am1| | |];
      cbn [mbind outcome_bind]; try done.
    pose proof (Hset am1 (active_maps_index ext (tm_id map)) (Some map)).
    by destruct (active_maps_set am1 _ _).
  - cbn [mbind outcome_bind].
    pose proof (Hset (active_maps router) (active_maps_index ext (tm_id map))
                     (Some map)).
    by destruct (active_maps_set (active_maps router) _ _).
Qed.

(** An iteration of the loop that does not return has read the header
    and the payload of a row event from the file, and it is
    [handle_row_event] that does not return from it. *)
Lemma read_event_diverges (ext : Externals) (binlog : list byte) (st : loop_state) :
  read_event ext binlog st = Diverges ->
  exists ptr : list byte,
    let hdr := parse_header (pread binlog BINLOG_EVENT_HDR_LEN (ls_pos st)) in
    length (pread binlog BINLOG_EVENT_HDR_LEN (ls_pos st)) = 19%nat
    /\ read_event_data binlog hdr (ls_pos st) = Some ptr
    /\ is_row_event (hdr_event_type hdr) = true
    /\ handle_row_event ext
         (with_counts (ls_router st) (trx_count (ls_router st))
                      (wrap64 (row_count (ls_router st) + 1)))
         hdr ptr = Diverges.
Proof.
  unfold read_event.
  destruct (Z.eqb_spec (Z.of_nat (length (pread binlog BINLOG_EVENT_HDR_LEN
                                             (ls_pos st))))
                       BINLOG_EVENT_HDR_LEN) as [Hlen|]; cbn [negb].
  2: { destruct (0 <? _); [discriminate|]. destruct (negb _); [discriminate|].
       destruct (ls_rotate_seen st); [discriminate|].
       destruct (rotate_to_next_file_if_exists _ _). discriminate. }
  set (hdr := parse_header (pread binlog BINLOG_EVENT_HDR_LEN (ls_pos st))).
  unfold fail_at.
  destruct (_ <? hdr_event_type hdr); [discriminate|].
  destruct (hdr_event_size hdr <=? 0); [discriminate|].
  destruct (read_event_data _ _ _) as [ptr|]; [|discriminate].
  set (seen := if ls_pending_transaction st =? 0 then _ else st).
  assert (Hseen : ls_router seen = ls_router st)
    by (subst seen; by destruct (ls_pending_transaction st =? 0)).
  destruct (dispatch_event ext seen hdr ptr) as [st1| | |] eqn:Hd;
    cbn [mbind outcome_bind].
  - destruct (_ && _); [discriminate|]. destruct (_ && _); [discriminate|].
    destruct (0 <? hdr_next_pos hdr); discriminate.
  - discriminate.
  - discriminate.
  - intros _. exists ptr. cbv zeta. fold hdr.
    split; [apply Nat2Z.inj; exact Hlen|]. split; [done|].
    revert Hd. unfold dispatch_event.
    destruct (_ =? FORMAT_DESCRIPTION_EVENT).
    { intros E. by apply handle_format_description_returns in E. }
    destruct (_ =? STOP_EVENT); [discriminate|].
    destruct (_ =? TABLE_MAP_EVENT).
    { pose proof (handle_table_map_event_returns ext (ls_router seen) hdr ptr).
      destruct (handle_table_map_event _ _ _ _) as [[b r]| | |];
        cbn [mbind outcome_bind]; done. }
    destruct (is_row_event _).
    { rewrite Hseen.
      destruct (handle_row_event _ _ _ _) as [[b r]| | |] eqn:Hrow;
        cbn [mbind outcome_bind]; try discriminate.
      intros _. done. }
    destruct (_ =? ROTATE_EVENT); [discriminate|].
    destruct (_ =? MARIADB10_GTID_EVENT); [discriminate|].
    destruct (_ =? QUERY_EVENT); [discriminate|].
    destruct (_ =? XID_EVENT); discriminate.
Qed.

(** X23: the conversion loop itself always comes to an end: every round
    that goes on has moved forward in the file.  If
    [avro_read_all_events] does not return, the loop has come, from its
    first state and through iterations that went on, to a position of the
    file where it has read the header and the payload of a row event, and
    it is the call of [handle_row_event] for this event, with the router
    of that iteration, that does not return. *)
Theorem conversion_loop_ends (ext : Externals) (binlog : list byte)
    (router : AVRO_INSTANCE) :
  0 <= current_pos router ->
  avro_read_all_events ext binlog router = Diverges ->
  exists (st : loop_state) (ptr : list byte),
    reached ext binlog router st
    /\ length (pread binlog BINLOG_EVENT_HDR_LEN (ls_pos st)) = 19%nat
    /\ read_event_data binlog
         (parse_header (pread binlog BINLOG_EVENT_HDR_LEN (ls_pos st)))
         (ls_pos st) = Some ptr
    /\ is_row_event
         (hdr_event_type
            (parse_header (pread binlog BINLOG_EVENT_HDR_LEN (ls_pos st))))
       = true
    /\ handle_row_event ext
         (with_counts (ls_router st) (trx_count (ls_router st))
                      (wrap64 (row_count (ls_router st) + 1)))
         (parse_header (pread binlog BINLOG_EVENT_HDR_LEN (ls_pos st)))
         ptr = Diverges.
Proof.
  intros Hpos. unfold avro_read_all_events.
  destruct (binlog_fd router =? -1); [discriminate|].
  intros Hdiv.
  apply (read_events_fuel ext binlog router) in Hdiv as (st & Hreach & Hst).
  - destruct (read_event_diverges ext binlog st Hst) as (ptr & H).
    exists st, ptr. split; [exact Hreach|exact H].
  - apply reached_first.
  - exact Hpos.
  - cbn [initial_state ls_pos]. lia.
Qed.

Lemma conversion_loop_ends_witness :
  avro_read_all_events Fixtures.lp64 MoreFixtures.no_column_binlog
                       MoreFixtures.router_empty = Diverges
  /\ exists (st : loop_state) (ptr : list byte),
       reached Fixtures.lp64 MoreFixtures.no_column_binlog
               MoreFixtures.router_empty st
       /\ read_event_data MoreFixtures.no_column_binlog
            (parse_header (pread MoreFixtures.no_column_binlog
                                 BINLOG_EVENT_HDR_LEN (ls_pos st)))
            (ls_pos st) = Some ptr
       /\ handle_row_event Fixtures.lp64
            (with_counts (ls_router st) (trx_count (ls_router st))
                         (wrap64 (row_count (ls_router st) + 1)))
            (parse_header (pread MoreFixtures.no_column_binlog
                                 BINLOG_EVENT_HDR_LEN (ls_pos st)))
            ptr = Diverges.
Proof.
  assert (E : avro_read_all_events Fixtures.lp64 MoreFixtures.no_column_binlog
                MoreFixtures.router_empty = Diverges) by (vm_compute; reflexivity).
  split; [exact E|].
  destruct (conversion_loop_ends Fixtures.lp64 MoreFixtures.no_column_binlog
              MoreFixtures.router_empty) as (st & ptr & Hreach & _ & Hread & _ & Hdiv).
  - vm_compute. discriminate.
  - exact E.
  - exists st, ptr. split; [exact Hreach|]. split; [exact Hread|exact Hdiv].
Defined.

End ConversionLoopFacts.

(** ** The C library functions of the client code *)

Section CLibFacts.
Import Bytes MaxAvro Binlog MysqlBinlog Router Rbr AvroFile AvroClient.
Import CLib.

Lemma list_byte_of_string_app (a b : string) :
  list_byte_of_string (a ++ b) = list_byte_of_string a ++ list_byte_of_string b.
Proof.
  induction a as [|c a IH]; [done|].
  change (list_byte_of_string (String c a ++ b))
    with (byte_of_ascii c :: list_byte_of_string (a ++ b)).
  by rewrite IH.
Qed.

Lemma decimal_app (acc : Z) (a b : list byte) :
  decimal acc (a ++ b) = decimal (decimal acc a) b.
Proof. revert acc. induction a as [|d a IH]; intros acc; [done|]. cbn. apply IH. Qed.

Lemma pretty_N_char_digit (d : N) :
  (d < 10)%N ->
  isdigit (byte_of_ascii (pretty.pretty_N_char d)) = true
  /\ u8 (byte_of_ascii (pretty.pretty_N_char d)) - 48 = Z.of_N d.
Proof.
  intros Hd.
  assert (d = 0 \/ d = 1 \/ d = 2 \/ d = 3 \/ d = 4 \/ d = 5 \/ d = 6 \/ d = 7
          \/ d = 8 \/ d = 9)%N as H by lia.
  destruct H as [->|[->|[->|[->|[->|[->|[->|[->|[->| ->]]]]]]]]]; by vm_compute.
Qed.

(** The digits that [pretty] prints for a number, before the text [s]. *)
Lemma pretty_N_go_digits (x : N) (s : string) :
  exists digits : list byte,
    list_byte_of_string (pretty.pretty_N_go x s) = digits ++ list_byte_of_string s
    /\ Forall (fun b => isdigit b = true) digits
    /\ (forall acc, decimal acc digits
                    = acc * 10 ^ Z.of_nat (length digits) + Z.of_N x)
    /\ ((0 < x)%N -> digits <> []).
Proof.
  revert s. induction (N.lt_wf_0 x) as [x _ IH]. intros s.
  destruct (N.eq_dec x 0%N) as [->|Hx].
  - exists []. rewrite pretty.pretty_N_go_0. repeat split; [done|intros; cbn; lia|lia].
  - rewrite pretty.pretty_N_go_step by lia.
    destruct (IH (x `div` 10)%N) with (s := String (pretty.pretty_N_char (x `mod` 10)) s)
      as (ds & Hbytes & Hdig & Hval & _).
    { apply N.div_lt; lia. }
    assert (x `mod` 10 < 10)%N as Hmod by (apply N.mod_lt; lia).
    destruct (pretty_N_char_digit _ Hmod) as [Hc Hv].
    exists (ds ++ [byte_of_ascii (pretty.pretty_N_char (x `mod` 10))]).
    split; [|split; [|split]].
    + rewrite Hbytes, <- app_assoc. done.
    + apply Forall_app. split; [done|]. by constructor.
    + intros acc. rewrite decimal_app, Hval. cbn [decimal]. rewrite Hv.
      rewrite length_app. cbn [length]. rewrite Nat2Z.inj_add, Z.pow_add_r by lia.
      change (10 ^ Z.of_nat 1) with 10.
      pose proof (N.div_mod x 10 ltac:(lia)) as Hdm.
      assert (Z.of_N x = 10 * Z.of_N (x `div` 10) + Z.of_N (x `mod` 10)) by lia.
      lia.
    + intros _. by destruct ds.
Qed.

Lemma fmt_lu_digits (v : Z) :
  0 <= v ->
  fmt_lu v <> []
  /\ Forall (fun b => isdigit b = true) (fmt_lu v)
  /\ forall acc, decimal acc (fmt_lu v)
                 = acc * 10 ^ Z.of_nat (length (fmt_lu v)) + v.
Proof.
  intros Hv. unfold fmt_lu, pretty.pretty, pretty.pretty_N.
  case_decide as Hz.
  - assert (v = 0) as -> by lia. split; [done|]. split.
    + repeat constructor.
    + intros acc. cbn. lia.
  - destruct (pretty_N_go_digits (Z.to_N v) "") as (ds & Hbytes & Hdig & Hval & Hne).
    rewrite Hbytes. cbn [list_byte_of_string]. rewrite app_nil_r.
    split; [apply Hne; lia|]. split; [done|].
    intros acc. rewrite Hval. lia.
Qed.

Lemma digit_not_space (b : byte) : isdigit b = true -> isspace b = false.
Proof.
  unfold isdigit, isspace, one_of, existsb. intros H.
  apply andb_true_iff in H as [H1 H2]. apply Z.leb_le in H1, H2.
  repeat match goal with
         | |- context [?a =? ?c] => destruct (Z.eqb_spec a c); [lia|]
         end.
  done.
Qed.

Lemma u8_inj_eqb (b c : byte) : u8 b <> u8 c -> Byte.eqb b c = false.
Proof.
  intros H. destruct (Byte.eqb b c) eqn:E; [|done].
  apply Byte.byte_dec_bl in E. by subst.
Qed.

Lemma leading_app (p : byte -> bool) (a rest : list byte) :
  Forall (fun b => p b = true) a ->
  p (peek rest 0) = false ->
  leading p (a ++ rest) = a.
Proof.
  intros Ha Hrest. induction Ha as [|b a Hb _ IH]; cbn.
  - destruct rest as [|r rest]; [done|]. cbn. change (peek (r :: rest) 0) with r in Hrest.
    by rewrite Hrest.
  - by rewrite Hb, IH.
Qed.

(** [strtol] where a run of digits stands, followed by something else. *)
Lemma strtol_digits (digits rest : list byte) :
  digits <> [] ->
  Forall (fun b => isdigit b = true) digits ->
  isdigit (peek rest 0) = false ->
  strtol (digits ++ rest) = (Z.min LONG_MAX (decimal 0 digits), length digits).
Proof.
  intros Hne Hdig Hrest. unfold strtol.
  destruct digits as [|d ds]; [done|].
  apply Forall_cons in Hdig as [Hd Hds].
  assert (leading isspace ((d :: ds) ++ rest) = []) as ->.
  { cbn [app leading]. by rewrite (digit_not_space d Hd). }
  cbn [length drop app].
  assert (Byte.eqb d "-" = false /\ Byte.eqb d "+" = false) as [-> ->].
  { unfold isdigit in Hd. apply andb_true_iff in Hd as [H1 H2].
    apply Z.leb_le in H1, H2.
    split; apply u8_inj_eqb;
      [change (u8 "-"%byte) with 45|change (u8 "+"%byte) with 43]; lia. }
  change (drop 0 (d :: ds ++ rest)) with ((d :: ds) ++ rest).
  rewrite leading_app; [reflexivity| |exact Hrest].
  apply Forall_cons. by split.
Qed.

End CLibFacts.

(** ** Requests of a CDC client (avro_client.c) *)

Section ClientRequestFacts.
Import Bytes MaxAvro Binlog MysqlBinlog Router Rbr AvroFile AvroClient.
Import CLib ClientRequest.

Lemma extract_gtid_skip (fuel : nat) (start : list byte) (len : Z) (ptr : nat)
    (read : Z) (gtid : gtid_pos_t) :
  Z.of_nat ptr < len ->
  isdigit (peek (drop ptr start) 0) = false ->
  extract_gtid_loop (S fuel) start len ptr read gtid
  = extract_gtid_loop fuel start len (S ptr) read gtid.
Proof.
  intros Hlt Hd. cbn [extract_gtid_loop].
  destruct (Z.ltb_spec (Z.of_nat ptr) len); [|lia]. by rewrite Hd.
Qed.

Lemma extract_gtid_number (fuel : nat) (start : list byte) (len : Z) (ptr : nat)
    (read : Z) (gtid : gtid_pos_t) (v : Z) (rest : list byte) :
  Z.of_nat ptr < len ->
  0 <= v <= LONG_MAX ->
  drop ptr start = fmt_lu v ++ rest ->
  isdigit (peek rest 0) = false ->
  extract_gtid_loop (S fuel) start len ptr read gtid
  = if read =? 0 then
      extract_gtid_loop fuel start len (ptr + length (fmt_lu v)) (read + 1)
                        (with_domain gtid v)
    else if read =? 1 then
      extract_gtid_loop fuel start len (ptr + length (fmt_lu v)) (read + 1)
                        (with_server_id gtid v)
    else if read =? 2 then
      extract_gtid_loop fuel start len (ptr + length (fmt_lu v)) (read + 1)
                        (with_seq gtid v)
    else Undefined.
Proof.
  intros Hlt Hv Hhere Hrest. cbn [extract_gtid_loop].
  destruct (Z.ltb_spec (Z.of_nat ptr) len); [|lia].
  destruct (fmt_lu_digits v) as (Hne & Hdig & Hval); [lia|].
  rewrite Hhere.
  assert (isdigit (peek (fmt_lu v ++ rest) 0) = true) as ->.
  { destruct (fmt_lu v) as [|d ds]; [done|].
    apply Forall_cons in Hdig as [Hd _]. exact Hd. }
  cbn [negb]. rewrite strtol_digits by done.
  rewrite Hval, Z.mul_0_l, Z.add_0_l, Z.min_r by lia. done.
Qed.

Lemma extract_gtid_end (fuel : nat) (start : list byte) (len : Z) (ptr : nat)
    (read : Z) (gtid : gtid_pos_t) :
  len <= Z.of_nat ptr ->
  extract_gtid_loop (S fuel) start len ptr read gtid = Done gtid.
Proof.
  intros Hge. cbn [extract_gtid_loop].
  by destruct (Z.ltb_spec (Z.of_nat ptr) len); [lia|].
Qed.

Lemma extract_gtid_fourth (fuel : nat) (start : list byte) (len : Z) (ptr : nat)
    (gtid : gtid_pos_t) :
  Z.of_nat ptr < len ->
  isdigit (peek (drop ptr start) 0) = true ->
  extract_gtid_loop (S fuel) start len ptr 3 gtid = Undefined.
Proof.
  intros Hlt Hd. cbn [extract_gtid_loop].
  destruct (Z.ltb_spec (Z.of_nat ptr) len); [|lia]. rewrite Hd. cbn [negb].
  by destruct (strtol (drop ptr start)).
Qed.

Lemma fmt_lu_length (v : Z) : 0 <= v -> (1 <= length (fmt_lu v))%nat.
Proof.
  intros Hv. destruct (fmt_lu_digits v) as (Hne & _ & _); [lia|].
  destruct (fmt_lu v); [done|cbn; lia].
Qed.

(** The loop over [d-s-q] followed by [tail]: five rounds read the three
    numbers. *)
Lemma extract_gtid_steps (gtid : gtid_pos_t) (d s q : Z) (tail : list byte)
    (fuel : nat) (text : list byte) :
  0 <= d <= LONG_MAX -> 0 <= s <= LONG_MAX -> 0 <= q <= LONG_MAX ->
  isdigit (peek tail 0) = false ->
  text = fmt_lu d ++ [Byte.x2d] ++ fmt_lu s ++ [Byte.x2d] ++ fmt_lu q ++ tail ->
  extract_gtid_loop (5 + fuel) text (Z.of_nat (length text)) 0 0 gtid
  = extract_gtid_loop fuel text (Z.of_nat (length text))
      (length (fmt_lu d) + 1 + length (fmt_lu s) + 1 + length (fmt_lu q)) 3
      (mkGTID d s q (event_num gtid)).
Proof.
  intros Hd Hs Hq Htail Htext.
  pose proof (fmt_lu_length d ltac:(lia)).
  pose proof (fmt_lu_length s ltac:(lia)).
  pose proof (fmt_lu_length q ltac:(lia)).
  assert (Hlen : length text = (length (fmt_lu d) + 1 + length (fmt_lu s) + 1
                                + length (fmt_lu q) + length tail)%nat).
  { subst text. rewrite !length_app. cbn [length]. lia. }
  revert Hlen. generalize (length text). intros len Hlen.
  change (5 + fuel)%nat with (S (S (S (S (S fuel))))).
  rewrite (extract_gtid_number _ _ _ _ _ _ d
             ([Byte.x2d] ++ fmt_lu s ++ [Byte.x2d] ++ fmt_lu q ++ tail));
    [|lia|done|by subst text|done].
  cbn [Z.eqb]. change (0 + 1) with 1. rewrite Nat.add_0_l.
  rewrite extract_gtid_skip; [|lia|].
  2: { subst text. by rewrite drop_app_length. }
  rewrite (extract_gtid_number _ _ _ _ _ _ s
             ([Byte.x2d] ++ fmt_lu q ++ tail)); [|lia|done| |done].
  2: { subst text. rewrite (app_assoc (fmt_lu d)).
       apply drop_app_length'. rewrite length_app. cbn [length]. lia. }
  cbn [Z.eqb Pos.eqb]. change (1 + 1) with 2.
  rewrite extract_gtid_skip; [|lia|].
  2: { subst text. rewrite (app_assoc (fmt_lu d)), (app_assoc _ (fmt_lu s)).
       rewrite drop_app_length'; [done|]. rewrite !length_app. cbn [length]. lia. }
  rewrite (extract_gtid_number _ _ _ _ _ _ q tail); [|lia|done| |done].
  2: { subst text.
       rewrite (app_assoc (fmt_lu d)), (app_assoc _ (fmt_lu s)),
         (app_assoc _ [Byte.x2d] (fmt_lu q ++ tail)).
       apply drop_app_length'. rewrite !length_app. cbn [length]. lia. }
  cbn [Z.eqb Pos.eqb]. change (2 + 1) with 3.
  f_equal. lia.
Qed.

(** The text [d-s-q] of a requested GTID. *)
Lemma extract_gtid_three (gtid : gtid_pos_t) (d s q : Z) (text : list byte) :
  0 <= d <= LONG_MAX -> 0 <= s <= LONG_MAX -> 0 <= q <= LONG_MAX ->
  text = fmt_lu d ++ [Byte.x2d] ++ fmt_lu s ++ [Byte.x2d] ++ fmt_lu q ->
  extract_gtid_request gtid text (Z.of_nat (length text))
  = Done (mkGTID d s q (event_num gtid)).
Proof.
  intros Hd Hs Hq Htext.
  pose proof (fmt_lu_length d ltac:(lia)).
  pose proof (fmt_lu_length s ltac:(lia)).
  pose proof (fmt_lu_length q ltac:(lia)).
  unfold extract_gtid_request. rewrite Nat2Z.id.
  assert (Hlen : length text = (length (fmt_lu d) + 1 + length (fmt_lu s) + 1
                                + length (fmt_lu q))%nat).
  { rewrite Htext. rewrite !length_app. cbn [length]. lia. }
  replace (S (length text))
    with (5 + S (length (fmt_lu d) + length (fmt_lu s) + length (fmt_lu q) - 3))%nat
    by lia.
  rewrite (extract_gtid_steps gtid d s q [] _ text) by (by rewrite ?app_nil_r).
  apply extract_gtid_end. lia.
Qed.

(** X24: [extract_gtid_request] reads the three numbers of a request
    [domain-server_id-sequence] into the GTID of the client and leaves the
    event number as it was.  A fourth number, as in the form
    [domain-server_id-sequence:event] of the stored state, takes the
    [switch] past its last case: the pointer [end] is used without a
    value. *)
Theorem extract_gtid_request_reads_three_numbers (gtid : gtid_pos_t)
    (d s q n : Z) :
  0 <= d <= LONG_MAX -> 0 <= s <= LONG_MAX -> 0 <= q <= LONG_MAX -> 0 <= n ->
  let text := fmt_lu d ++ list_byte_of_string "-" ++ fmt_lu s
                ++ list_byte_of_string "-" ++ fmt_lu q in
  let more := text ++ list_byte_of_string ":" ++ fmt_lu n in
  extract_gtid_request gtid text (Z.of_nat (length text))
    = Done (mkGTID d s q (event_num gtid))
  /\ extract_gtid_request gtid more (Z.of_nat (length more)) = Undefined.
Proof.
  intros Hd Hs Hq Hn.
  pose proof (fmt_lu_length d ltac:(lia)).
  pose proof (fmt_lu_length s ltac:(lia)).
  pose proof (fmt_lu_length q ltac:(lia)).
  pose proof (fmt_lu_length n ltac:(lia)) as Hn1.
  destruct (fmt_lu_digits n) as (_ & Hn2 & _); [lia|].
  cbv zeta. change (list_byte_of_string "-") with [Byte.x2d].
  change (list_byte_of_string ":") with [Byte.x3a].
  split; [by apply extract_gtid_three|].
  unfold extract_gtid_request. rewrite Nat2Z.id.
  remember ((fmt_lu d ++ [Byte.x2d] ++ fmt_lu s ++ [Byte.x2d] ++ fmt_lu q)
            ++ [Byte.x3a] ++ fmt_lu n) as text eqn:Htext.
  assert (Hlen : length text = (length (fmt_lu d) + 1 + length (fmt_lu s) + 1
                                + length (fmt_lu q) + 1 + length (fmt_lu n))%nat).
  { rewrite Htext. rewrite !length_app. cbn [length]. lia. }
  replace (S (length text))
    with (5 + S (S (length (fmt_lu d) + length (fmt_lu s) + length (fmt_lu q)
                    + length (fmt_lu n) - 3)))%nat
    by lia.
  rewrite (extract_gtid_steps gtid d s q ([Byte.x3a] ++ fmt_lu n) _ text);
    [|done|done|done|done|].
  2: { rewrite Htext. by rewrite <- !app_assoc. }
  assert (Hdrop : drop (length (fmt_lu d) + 1 + length (fmt_lu s) + 1
                        + length (fmt_lu q)) text = [Byte.x3a] ++ fmt_lu n).
  { rewrite Htext. apply drop_app_length'. rewrite !length_app. cbn [length]. lia. }
  rewrite extract_gtid_skip; [|lia|by rewrite Hdrop].
  apply extract_gtid_fourth; [lia|].
  replace (S (length (fmt_lu d) + 1 + length (fmt_lu s) + 1 + length (fmt_lu q)))
    with ((length (fmt_lu d) + 1 + length (fmt_lu s) + 1 + length (fmt_lu q)) + 1)%nat
    by lia.
  rewrite <- drop_drop, Hdrop. cbn [drop app].
  destruct (fmt_lu n) as [|c cs]; [cbn [length] in Hn1; lia|].
  apply Forall_cons in Hn2 as [Hc _]. exact Hc.
Qed.

Lemma extract_gtid_request_reads_three_numbers_witness :
  extract_gtid_request (mkGTID 9 9 9 7) (list_byte_of_string "0-1-5") 5
    = Done (mkGTID 0 1 5 7)
  /\ extract_gtid_request (mkGTID 9 9 9 7) (list_byte_of_string "0-1-5:2") 7
     = Undefined.
Proof.
  apply (extract_gtid_request_reads_three_numbers (mkGTID 9 9 9 7) 0 1 5 2);
    unfold LONG_MAX; lia.
Defined.

Lemma peek_n_all (l : list byte) : peek_n l 0 (length l) = l.
Proof.
  assert (H : forall (pre l : list byte),
             peek_n (pre ++ l) (Z.of_nat (length pre)) (length l) = l).
  { intros pre l0. revert pre. induction l0 as [|b l0 IH]; intros pre; [done|].
    cbn [length peek_n]. f_equal.
    - unfold peek. destruct (Z.ltb_spec (Z.of_nat (length pre)) 0); [lia|].
      rewrite Nat2Z.id. rewrite app_nth2 by lia. by rewrite Nat.sub_diag.
    - specialize (IH (pre ++ [b])). rewrite <- app_assoc in IH. cbn [app] in IH.
      rewrite length_app in IH. cbn [length] in IH.
      rewrite Nat2Z.inj_add in IH. exact IH. }
  apply (H [] l).
Qed.

Lemma strchr_found (a b : list byte) (c : byte) :
  Forall (fun x => u8 x <> 0 /\ Byte.eqb x c = false) a ->
  strchr (a ++ c :: b) c = Some (length a).
Proof.
  intros Ha. induction Ha as [|x a [Hx Hc] _ IH]; cbn [app strchr length].
  - by rewrite Byte.byte_dec_lb.
  - rewrite Hc. destruct (Z.eqb_spec (u8 x) 0); [done|]. by rewrite IH.
Qed.

Lemma strchr_none (a : list byte) (c : byte) :
  Forall (fun x => Byte.eqb x c = false) a -> strchr a c = None.
Proof.
  intros Ha. induction Ha as [|x a Hc _ IH]; cbn [strchr]; [done|].
  rewrite Hc. destruct (u8 x =? 0); [done|]. by rewrite IH.
Qed.

Lemma name_bytes_spaceless (s : list byte) :
  name_bytes s -> Forall (fun x => u8 x <> 0 /\ Byte.eqb x " " = false) s.
Proof.
  intros H. eapply Forall_impl; [exact H|]. intros x [Hz Hs]. split; [done|].
  destruct (Byte.eqb x " ") eqn:E; [|done].
  apply Byte.byte_dec_bl in E. subst x. discriminate Hs.
Qed.

Lemma name_bytes_c_string (s : list byte) :
  name_bytes s -> Forall (fun x => u8 x <> 0) s.
Proof. intros H. eapply Forall_impl; [exact H|]. by intros x [Hz _]. Qed.

(** [get_avrofile_name] on a request: white space, a name, and either
    nothing or a space and more. *)
Lemma get_avrofile_name_stem (spaces stem rest : list byte) (with_gtid : bool) :
  Forall (fun b => isspace b = true) spaces ->
  name_bytes stem -> stem <> [] ->
  let tail := if with_gtid then list_byte_of_string " " ++ rest else [] in
  let text := spaces ++ stem ++ tail in
  get_avrofile_name text (Z.of_nat (length text))
  = Done (snprintf AVRO_MAX_FILENAME_LEN
            (stem ++ list_byte_of_string
                       (if has_version stem then ".avro" else ".000001.avro")),
          if with_gtid then Some (length spaces + (length stem + 1))%nat else None).
Proof.
  intros Hsp Hstem Hne tail text. unfold get_avrofile_name.
  assert (Hlead : leading isspace text = spaces).
  { subst text. apply leading_app; [done|].
    destruct stem as [|b stem']; [done|].
    apply Forall_cons in Hstem as [[_ Hb] _]. exact Hb. }
  rewrite Hlead.
  assert (Hdrop : drop (length spaces) text = stem ++ tail).
  { subst text. by rewrite drop_app_length. }
  rewrite Hdrop.
  assert (Hlen : Z.of_nat (length text) - Z.of_nat (length spaces)
                 = Z.of_nat (length (stem ++ tail))).
  { subst text. rewrite !length_app. lia. }
  rewrite Hlen. destruct (Z.ltb_spec (Z.of_nat (length (stem ++ tail))) 0); [lia|].
  rewrite Nat2Z.id, peek_n_all.
  rewrite c_string_app by (by apply name_bytes_c_string).
  subst tail. destruct with_gtid.
  - change (list_byte_of_string " " ++ rest) with (Byte.x20 :: rest).
    change (c_string (Byte.x20 :: rest)) with (Byte.x20 :: c_string rest).
    rewrite (strchr_found stem (c_string rest) " ") by (by apply name_bytes_spaceless).
    by rewrite take_app_length.
  - cbn [c_string]. rewrite app_nil_r.
    rewrite strchr_none; [done|].
    eapply Forall_impl; [apply name_bytes_spaceless, Hstem|]. by intros x [_ Hx].
Qed.

Lemma dotless_found (a b : list byte) :
  name_bytes a -> dotless a ->
  strchr (a ++ list_byte_of_string "." ++ b) "." = Some (length a).
Proof.
  intros Hn Hd. change (list_byte_of_string "." ++ b) with (Byte.x2e :: b).
  apply (strchr_found a b Byte.x2e).
  unfold name_bytes, dotless in *. rewrite Forall_forall in Hn, Hd |- *.
  intros x Hx. split; [apply Hn, Hx|apply Hd, Hx].
Qed.

Lemma has_version_plain (db tbl : list byte) :
  name_bytes db -> dotless db -> dotless tbl ->
  has_version (db ++ list_byte_of_string "." ++ tbl) = false.
Proof.
  intros Hn Hd Ht. unfold has_version. rewrite dotless_found by done.
  change (list_byte_of_string "." ++ tbl) with ([Byte.x2e] ++ tbl).
  rewrite app_assoc, drop_app_length' by (rewrite length_app; cbn [length]; lia).
  by rewrite strchr_none.
Qed.

Lemma has_version_exact (db tbl ver : list byte) :
  name_bytes db -> dotless db -> name_bytes tbl -> dotless tbl -> ver <> [] ->
  has_version (db ++ list_byte_of_string "." ++ tbl ++ list_byte_of_string "." ++ ver)
  = true.
Proof.
  intros Hn Hd Hnt Ht Hv. unfold has_version. rewrite dotless_found by done.
  assert (Hrest : drop (S (length db))
                    (db ++ list_byte_of_string "." ++ tbl
                        ++ list_byte_of_string "." ++ ver)
                  = tbl ++ list_byte_of_string "." ++ ver).
  { change (list_byte_of_string "." ++ tbl ++ list_byte_of_string "." ++ ver)
      with ([Byte.x2e] ++ tbl ++ list_byte_of_string "." ++ ver).
    rewrite app_assoc. apply drop_app_length'. rewrite length_app. cbn [length]. lia. }
  rewrite Hrest, dotless_found by done.
  replace (S (length db) + S (length tbl))%nat
    with (S (length db) + S (length tbl) + 0)%nat by lia.
  rewrite <- !drop_drop, Hrest.
  change (list_byte_of_string "." ++ ver) with ([Byte.x2e] ++ ver).
  rewrite app_assoc, drop_app_length' by (rewrite length_app; cbn [length]; lia).
  destruct ver; [done|]. reflexivity.
Qed.

(** X25: how [get_avrofile_name] resolves the file of a request.  After
    the white space, a name [db.table] gets the first version,
    [db.table.000001.avro]; a name that gives a version after a second dot
    is taken as it is, [db.table.version.avro].  When a space follows the
    name, the result points behind it (to the GTID), otherwise it is
    NULL. *)
Theorem get_avrofile_name_resolves_version (spaces db tbl ver rest : list byte)
    (with_gtid : bool) :
  Forall (fun b => isspace b = true) spaces ->
  name_bytes db -> dotless db -> name_bytes tbl -> dotless tbl ->
  name_bytes ver -> ver <> [] ->
  (length db + length tbl + length ver + 14 <= 254)%nat ->
  let tail := if with_gtid then list_byte_of_string " " ++ rest else [] in
  let plain := db ++ list_byte_of_string "." ++ tbl in
  let exact := plain ++ list_byte_of_string "." ++ ver in
  get_avrofile_name (spaces ++ plain ++ tail)
                    (Z.of_nat (length (spaces ++ plain ++ tail)))
    = Done (plain ++ list_byte_of_string ".000001.avro",
            if with_gtid then Some (length spaces + (length plain + 1))%nat else None)
  /\ get_avrofile_name (spaces ++ exact ++ tail)
                       (Z.of_nat (length (spaces ++ exact ++ tail)))
     = Done (exact ++ list_byte_of_string ".avro",
             if with_gtid then Some (length spaces + (length exact + 1))%nat else None).
Proof.
  intros Hsp Hdb Hdbd Htbl Htbld Hver Hne Hlen tail plain exact.
  assert (Hdot : name_bytes (list_byte_of_string ".")).
  { repeat constructor; by vm_compute. }
  assert (Hplain : name_bytes plain).
  { subst plain. unfold name_bytes in *. by rewrite !Forall_app. }
  assert (Hexact : name_bytes exact).
  { subst exact. unfold name_bytes in *. by rewrite !Forall_app. }
  split.
  - subst tail. rewrite (get_avrofile_name_stem spaces plain rest with_gtid);
      [|done|done|subst plain; by destruct db].
    subst plain. rewrite has_version_plain by done.
    unfold snprintf. rewrite take_ge; [done|].
    rewrite !length_app. cbn [length list_byte_of_string].
    unfold AVRO_MAX_FILENAME_LEN.
    change (length (list_byte_of_string ".")) with 1%nat.
    change (length (list_byte_of_string ".000001.avro")) with 12%nat. lia.
  - subst tail. rewrite (get_avrofile_name_stem spaces exact rest with_gtid);
      [|done|done|subst exact plain; by destruct db].
    subst exact plain. rewrite <- !app_assoc.
    rewrite has_version_exact by done.
    unfold snprintf. rewrite take_ge; [done|].
    rewrite !length_app. unfold AVRO_MAX_FILENAME_LEN.
    change (length (list_byte_of_string ".")) with 1%nat.
    change (length (list_byte_of_string ".avro")) with 5%nat. lia.
Qed.

Lemma get_avrofile_name_resolves_version_witness :
  get_avrofile_name (list_byte_of_string " d.t 0-1-5") 10
    = Done (list_byte_of_string "d.t.000001.avro", Some 5%nat)
  /\ get_avrofile_name (list_byte_of_string " d.t.000002 0-1-5") 17
     = Done (list_byte_of_string "d.t.000002.avro", Some 12%nat).
Proof.
  apply (get_avrofile_name_resolves_version
           (list_byte_of_string " ") (list_byte_of_string "d")
           (list_byte_of_string "t") (list_byte_of_string "000002")
           (list_byte_of_string "0-1-5") true).
  - repeat constructor.
  - repeat constructor; vm_compute; discriminate.
  - repeat constructor.
  - repeat constructor; vm_compute; discriminate.
  - repeat constructor.
  - repeat constructor; vm_compute; discriminate.
  - discriminate.
  - vm_compute. lia.
Defined.

Lemma length_list_byte_of_string (s : string) :
  length (list_byte_of_string s) = String.length s.
Proof. induction s as [|c s IH]; [done|]. cbn. by rewrite <- IH. Qed.

Lemma zeros_bytes (k : nat) :
  list_byte_of_string (String.concat "" (replicate k "0"%string))
  = replicate k Byte.x30.
Proof.
  induction k as [|k IH]; [done|].
  destruct k as [|k]; [done|].
  change (replicate (S (S k)) "0"%string)
    with ("0"%string :: replicate (S k) "0"%string).
  change (String.concat "" ("0"%string :: replicate (S k) "0"%string))
    with ("0" ++ "" ++ String.concat "" (replicate (S k) "0"%string))%string.
  rewrite !list_byte_of_string_app, IH. done.
Qed.

Lemma decimal_zeros (k : nat) (rest : list byte) :
  decimal 0 (replicate k Byte.x30 ++ rest) = decimal 0 rest.
Proof. induction k as [|k IH]; [done|]. cbn. exact IH. Qed.

(** The six or more digits of a version that is not negative. *)
Lemma fmt_06d_digits (n : Z) :
  0 <= n ->
  list_byte_of_string (fmt_06d n) <> []
  /\ Forall (fun b => isdigit b = true) (list_byte_of_string (fmt_06d n))
  /\ decimal 0 (list_byte_of_string (fmt_06d n)) = n.
Proof.
  intros Hn. unfold fmt_06d. rewrite list_byte_of_string_app, zeros_bytes.
  destruct (fmt_lu_digits n Hn) as (Hne & Hdig & Hval). unfold fmt_lu in *.
  split; [|split].
  - intros E. apply app_eq_nil in E as [_ E]. done.
  - apply Forall_app. split; [|done]. apply Forall_replicate. by vm_compute.
  - rewrite decimal_zeros, Hval. lia.
Qed.

Lemma strrchr_last (a b : list byte) (c : byte) :
  u8 c <> 0 ->
  Forall (fun x => u8 x <> 0) a ->
  Forall (fun x => Byte.eqb x c = false) b ->
  strrchr (a ++ c :: b) c = Some (length a).
Proof.
  intros Hc Ha Hb.
  assert (Hnone : strrchr b c = None).
  { clear Ha. induction Hb as [|x b Hx _ IH]; cbn [strrchr]; [done|].
    destruct (u8 x =? 0); [done|]. by rewrite IH, Hx. }
  induction Ha as [|x a Hx _ IH]; cbn [app strrchr length].
  - destruct (Z.eqb_spec (u8 c) 0); [done|].
    by rewrite Hnone, Byte.byte_dec_lb.
  - destruct (Z.eqb_spec (u8 x) 0); [done|]. by rewrite IH.
Qed.

Lemma peek_app_r (a b : list byte) (i : nat) :
  peek (a ++ b) (Z.of_nat (length a + i)) = peek b (Z.of_nat i).
Proof.
  unfold peek.
  destruct (Z.ltb_spec (Z.of_nat (length a + i)) 0); [lia|].
  destruct (Z.ltb_spec (Z.of_nat i) 0); [lia|].
  rewrite !Nat2Z.id, app_nth2 by lia. f_equal. lia.
Qed.

Lemma walk_back_digits (a digits rest : list byte) (n : nat) :
  (n <= length digits)%nat ->
  Forall (fun x => Byte.eqb x "." = false) digits ->
  walk_back (a ++ Byte.x2e :: digits ++ rest) (length a + n) = length a.
Proof.
  intros Hn Hd. induction n as [|n IH].
  - rewrite Nat.add_0_r. destruct (length a) as [|p] eqn:Hlen; [done|].
    cbn [walk_back]. rewrite <- Hlen.
    pose proof (peek_app_r a (Byte.x2e :: digits ++ rest) 0) as Hp.
    rewrite Nat.add_0_r in Hp. rewrite Hp. done.
  - replace (length a + S n)%nat with (S (length a + n)) by lia.
    cbn [walk_back].
    replace (S (length a + n)) with (length a + S n)%nat by lia.
    rewrite peek_app_r.
    assert (peek (Byte.x2e :: digits ++ rest) (Z.of_nat (S n))
            = nth n digits Byte.x00) as ->.
    { unfold peek. destruct (Z.ltb_spec (Z.of_nat (S n)) 0); [lia|].
      rewrite Nat2Z.id. cbn [nth]. apply app_nth1. lia. }
    rewrite Forall_forall in Hd. rewrite Hd.
    + apply IH. lia.
    + apply list_elem_of_In, nth_In. lia.
Qed.

Lemma c_string_bytes (s : list byte) :
  Forall (fun x => u8 x <> 0) s -> c_string s = s.
Proof. apply c_string_id. Qed.

Lemma digits_nonzero (s : list byte) :
  Forall (fun b => isdigit b = true) s ->
  Forall (fun x => u8 x <> 0) s /\ Forall (fun x => Byte.eqb x "." = false) s.
Proof.
  intros H. split; (eapply Forall_impl; [exact H|]); intros x Hx;
    unfold isdigit in Hx; apply andb_true_iff in Hx as [H1 H2];
    apply Z.leb_le in H1, H2.
  - lia.
  - apply u8_inj_eqb. change (u8 "."%byte) with 46. lia.
Qed.

(** X26: [print_next_filename] follows the files that the conversion
    writes.  For the file [ident.NNNNNN.avro] that
    [handle_table_map_event] opens for version [NNNNNN] of a table, it
    prints the path of version [NNNNNN + 1] of the same table in the same
    directory. *)
Theorem print_next_filename_follows_versions (dir ident : string) (version : Z)
    (len : nat) :
  Forall (fun b => u8 b <> 0) (list_byte_of_string dir) ->
  Forall (fun b => u8 b <> 0) (list_byte_of_string ident) ->
  0 <= version < INT_MAX ->
  (String.length (avro_filepath dir ident (version + 1)) < len)%nat ->
  print_next_filename
    (list_byte_of_string (ident ++ "." ++ fmt_06d version ++ ".avro"))
    (list_byte_of_string dir) len
  = Done (Some (list_byte_of_string (avro_filepath dir ident (version + 1)))).
Proof.
  intros Hdir Hident Hver Hlen.
  destruct (fmt_06d_digits version) as (Hne & Hdig & Hval); [lia|].
  destruct (digits_nonzero _ Hdig) as [Hnz Hnd].
  unfold print_next_filename, avro_filepath in *.
  rewrite !list_byte_of_string_app.
  set (I := list_byte_of_string ident) in *.
  set (D := list_byte_of_string (fmt_06d version)) in *.
  change (list_byte_of_string ".") with [Byte.x2e].
  change (list_byte_of_string ".avro")
    with (Byte.x2e :: list_byte_of_string "avro").
  assert (Hbuf : c_string (I ++ [Byte.x2e] ++ D ++ Byte.x2e :: list_byte_of_string "avro")
                 = I ++ [Byte.x2e] ++ D ++ Byte.x2e :: list_byte_of_string "avro").
  { apply c_string_id. rewrite !Forall_app. split; [done|]. split; [by repeat constructor|].
    split; [done|]. repeat constructor; by vm_compute. }
  rewrite Hbuf.
  assert (Hlast : strrchr (I ++ [Byte.x2e] ++ D ++ Byte.x2e :: list_byte_of_string "avro")
                          "." = Some (S (length I + length D))).
  { rewrite (app_assoc I), (app_assoc (I ++ _)).
    rewrite strrchr_last.
    - f_equal. rewrite !length_app. cbn [length]. lia.
    - by vm_compute.
    - rewrite !Forall_app. split; [split; [done|by repeat constructor]|done].
    - repeat constructor. }
  rewrite Hlast.
  change (I ++ [Byte.x2e] ++ D ++ Byte.x2e :: list_byte_of_string "avro")
    with (I ++ Byte.x2e :: D ++ Byte.x2e :: list_byte_of_string "avro").
  rewrite walk_back_digits by done.
  assert (Hdrop : drop (S (length I))
                    (I ++ Byte.x2e :: D ++ Byte.x2e :: list_byte_of_string "avro")
                  = D ++ Byte.x2e :: list_byte_of_string "avro").
  { change (I ++ Byte.x2e :: D ++ Byte.x2e :: list_byte_of_string "avro")
      with (I ++ [Byte.x2e] ++ D ++ Byte.x2e :: list_byte_of_string "avro").
    rewrite app_assoc. apply drop_app_length'. rewrite length_app. cbn [length]. lia. }
  rewrite Hdrop, strtol_digits by done. cbn [fst].
  rewrite Hval. unfold INT_MAX, LONG_MAX in *.
  rewrite Z.min_r by lia.
  assert (Hs32 : signed32 version = version).
  { unfold signed32, wrap32. rewrite Z.mod_small by lia.
    destruct (Z.leb_spec (2 ^ 31) version); [lia|done]. }
  rewrite Hs32. destruct (Z.eqb_spec version (2 ^ 31 - 1)) as [|_]; [lia|].
  unfold printf_06d. destruct (Z.ltb_spec (version + 1) 0) as [|_]; [lia|].
  rewrite take_app_length, c_string_id by done.
  unfold snprintf. rewrite take_ge; [done|].
  rewrite <- length_list_byte_of_string in Hlen.
  rewrite !list_byte_of_string_app in Hlen.
  change (list_byte_of_string "/") with [Byte.x2f] in *.
  change (list_byte_of_string ".") with [Byte.x2e] in *.
  change (Byte.x2e :: list_byte_of_string "avro")
    with (list_byte_of_string ".avro").
  fold I in Hlen. clearbody I D. lia.
Qed.

Lemma print_next_filename_follows_versions_witness :
  print_next_filename (list_byte_of_string "d.t.000001.avro")
                      (list_byte_of_string "/avro") 4097
  = Done (Some (list_byte_of_string "/avro/d.t.000002.avro")).
Proof.
  apply (print_next_filename_follows_versions "/avro" "d.t" 1 4097).
  - repeat constructor; vm_compute; discriminate.
  - repeat constructor; vm_compute; discriminate.
  - vm_compute. split; [discriminate|reflexivity].
  - vm_compute. lia.
Defined.

End ClientRequestFacts.

(** ** REQUEST-DATA (avro_client.c) *)

Section ProcessCommandFacts.
Import Bytes MaxAvro Binlog MysqlBinlog Router Rbr AvroFile AvroClient.
Import CLib ClientRequest.

Variable file_in_dir : list byte -> bool.
Variable read_avro_json_schema : list byte -> option (list byte).
Variable read_avro_binary_schema : list byte -> option (list byte).


End ProcessCommandFacts.

(** ** A request served, and the callback of a drained client (avro_client.c) *)

Section ClientSessionFacts.
Import Bytes MaxAvro Binlog MysqlBinlog Router Rbr AvroFile AvroClient.
Import CLib ClientRequest.


Lemma land_clear_flag (cs flag : Z) : Z.land (Z.land cs (Z.lnot flag)) flag = 0.
Proof.
  rewrite <- Z.land_assoc, (Z.land_comm (Z.lnot flag)), Z.land_lnot_diag.
  apply Z.land_0_r.
Qed.

(** X28: the callback of a client whose output is drained.  A busy client
    is left alone.  Otherwise the client is not busy afterwards, and either
    there is more to send (more rows, or a next file) and it gets one fake
    write event at once, or it is left waiting for data, and then the next
    notification of the converter sends it exactly that event. *)
Theorem drained_client_waits_or_is_woken (client : AVRO_CLIENT)
    (read_more next_file : bool) :
  let done := avro_client_callback true read_more next_file client in
  if negb (Z.land (cstate client) AVRO_CS_BUSY =? 0) then done = (client, [])
  else
    Z.land (cstate done.1) AVRO_CS_BUSY = 0
    /\ dcb done.1 = dcb client
    /\ if next_file || read_more
       then done.2 = [PollFakeWriteEvent (dcb client)]
            /\ (notify_client done.1).2 = []
       else done.2 = []
            /\ (notify_client done.1).2 = [PollFakeWriteEvent (dcb client)].
Proof.
  cbv zeta. unfold avro_client_callback.
  destruct (negb (Z.land (cstate client) AVRO_CS_BUSY =? 0)) eqn:Hbusy; [done|].
  apply negb_false_iff, Z.eqb_eq in Hbusy.
  unfold set_cstate. cbn [cstate dcb state uuid format].
  set (cs := Z.lor (Z.land (Z.lor (cstate client) AVRO_CS_BUSY) (Z.lnot AVRO_CS_BUSY))
                   AVRO_WAIT_DATA).
  assert (Hcs_busy : Z.land cs AVRO_CS_BUSY = 0).
  { subst cs. rewrite Z.land_lor_distr_l, land_clear_flag. reflexivity. }
  assert (Hcs_wait : Z.land cs AVRO_WAIT_DATA = AVRO_WAIT_DATA).
  { subst cs. rewrite Z.land_lor_distr_l, Z.land_diag.
    apply Z.bits_inj'. intros n _. rewrite Z.lor_spec, Z.land_spec.
    destruct (Z.testbit AVRO_WAIT_DATA n); [apply orb_true_r|].
    by rewrite andb_false_r. }
  destruct (next_file || read_more).
  - unfold avro_notify_client, notify_client.
    cbn [fst snd cstate dcb state uuid format].
    rewrite land_clear_flag. cbn [Z.eqb negb snd].
    split; [|done]. clearbody cs.
    rewrite <- Z.land_assoc, (Z.land_comm (Z.lnot AVRO_WAIT_DATA)), Z.land_assoc,
      Hcs_busy.
    reflexivity.
  - unfold notify_client. cbn [fst snd cstate dcb state uuid format].
    split; [exact Hcs_busy|]. split; [done|]. split; [done|].
    rewrite Hcs_wait. reflexivity.
Qed.

End ClientSessionFacts.

(** ** The stored conversion state (avro_file.c) *)

Section ConversionStateFacts.
Import Bytes MaxAvro Binlog MysqlBinlog Router Rbr AvroFile AvroClient.
Import CLib ConversionState.

Lemma strtol_number (v : Z) :
  0 <= v <= LONG_MAX -> strtol (fmt_lu v) = (v, length (fmt_lu v)).
Proof.
  intros Hv. destruct (fmt_lu_digits v) as (Hne & Hdig & Hval); [lia|].
  rewrite <- (app_nil_r (fmt_lu v)) at 1.
  rewrite strtol_digits by done.
  by rewrite Hval, Z.mul_0_l, Z.add_0_l, Z.min_r by lia.
Qed.

Lemma leading_all (p : byte -> bool) (a : list byte) :
  Forall (fun b => p b = true) a -> leading p a = a.
Proof. intros Ha. induction Ha as [|b a Hb _ IH]; cbn; [done|]. by rewrite Hb, IH. Qed.

Lemma digit_not_delimiter (b : byte) :
  isdigit b = true -> is_gtid_delimiter b = false /\ u8 b <> 0.
Proof.
  intros Hb. unfold isdigit in Hb. apply andb_true_iff in Hb as [H1 H2].
  apply Z.leb_le in H1, H2. split; [|lia].
  unfold is_gtid_delimiter, gtid_delimiters, existsb.
  rewrite !u8_inj_eqb; [done|..].
  - change (u8 Byte.x0a) with 10. lia.
  - change (u8 Byte.x2d) with 45. lia.
  - change (u8 Byte.x3a) with 58. lia.
Qed.

Lemma strtok_r_token (tok rest : list byte) (d : byte) :
  tok <> [] ->
  Forall (fun b => isdigit b = true) tok ->
  is_gtid_delimiter d = true ->
  u8 d <> 0 ->
  Forall (fun b => u8 b <> 0) rest ->
  strtok_r (tok ++ d :: rest) gtid_delimiters = Some (tok, rest).
Proof.
  intros Hne Hdig Hd Hdz Hrest. unfold strtok_r.
  assert (Hnz : Forall (fun b => u8 b <> 0) tok).
  { eapply Forall_impl; [exact Hdig|]. intros b Hb. by apply digit_not_delimiter. }
  rewrite c_string_id by (rewrite Forall_app, Forall_cons; done).
  destruct tok as [|t tok]; [done|].
  pose proof Hdig as Hdig'. apply Forall_cons in Hdig' as [Ht _].
  destruct (digit_not_delimiter t Ht) as [Htd _]. unfold is_gtid_delimiter in Htd.
  cbn [app leading]. rewrite Htd. cbn [length drop].
  change (t :: tok ++ d :: rest) with ((t :: tok) ++ d :: rest).
  rewrite leading_app.
  - f_equal. f_equal. cbn [length].
    by rewrite <- Nat.add_1_r, <- drop_drop, drop_app_length.
  - eapply Forall_impl; [exact Hdig|]. intros b Hb.
    destruct (digit_not_delimiter b Hb) as [Hbd _]. unfold is_gtid_delimiter in Hbd.
    by rewrite Hbd.
  - change (peek (d :: rest) 0) with d. unfold is_gtid_delimiter in Hd. by rewrite Hd.
Qed.

Lemma strtok_r_last (tok : list byte) :
  tok <> [] ->
  Forall (fun b => isdigit b = true) tok ->
  strtok_r tok gtid_delimiters = Some (tok, []).
Proof.
  intros Hne Hdig. unfold strtok_r.
  assert (Hnz : Forall (fun b => u8 b <> 0) tok).
  { eapply Forall_impl; [exact Hdig|]. intros b Hb. by apply digit_not_delimiter. }
  rewrite c_string_id by done.
  destruct tok as [|t tok]; [done|].
  pose proof Hdig as Hdig'. apply Forall_cons in Hdig' as [Ht _].
  destruct (digit_not_delimiter t Ht) as [Htd _]. unfold is_gtid_delimiter in Htd.
  cbn [leading]. rewrite Htd. cbn [length drop].
  rewrite leading_all.
  - f_equal. f_equal. apply drop_ge. cbn [length]. lia.
  - eapply Forall_impl; [exact Hdig|]. intros b Hb.
    destruct (digit_not_delimiter b Hb) as [Hbd _]. unfold is_gtid_delimiter in Hbd.
    by rewrite Hbd.
Qed.

Lemma handler_position (router : AVRO_INSTANCE) (v : Z) :
  0 <= v <= LONG_MAX ->
  conv_state_handler router (list_byte_of_string statefile_section)
    (list_byte_of_string "position") (fmt_lu v)
  = Done (1, with_positions router (binlog_position router) v).
Proof.
  intros Hv. unfold conv_state_handler.
  change (streq (list_byte_of_string statefile_section) statefile_section) with true.
  change (streq (list_byte_of_string "position") "gtid") with false.
  change (streq (list_byte_of_string "position") "position") with true.
  cbv iota. rewrite strtol_number by done. cbn [fst].
  rewrite wrap64_small; [done|]. unfold LONG_MAX in Hv. lia.
Qed.

Lemma handler_file (router : AVRO_INSTANCE) (name : string) :
  Forall (fun b => u8 b <> 0) (list_byte_of_string name) ->
  (String.length name <= 255)%nat ->
  conv_state_handler router (list_byte_of_string statefile_section)
    (list_byte_of_string "file") (list_byte_of_string name)
  = Done (1, with_binlog_name router name).
Proof.
  intros Hnz Hlen. unfold conv_state_handler.
  change (streq (list_byte_of_string statefile_section) statefile_section) with true.
  change (streq (list_byte_of_string "file") "gtid") with false.
  change (streq (list_byte_of_string "file") "position") with false.
  change (streq (list_byte_of_string "file") "file") with true.
  cbv iota. rewrite c_string_id by done.
  rewrite take_ge.
  - by rewrite string_of_list_byte_of_string.
  - rewrite length_list_byte_of_string. change (Z.to_nat (BINLOG_FNAMELEN + 1)) with 256%nat.
    lia.
Qed.

Lemma handler_gtid (router : AVRO_INSTANCE) (g : gtid_pos_t) :
  0 <= domain g <= LONG_MAX -> 0 <= server_id g <= LONG_MAX ->
  0 <= gtid_seq g <= LONG_MAX -> 0 <= event_num g <= LONG_MAX ->
  conv_state_handler router (list_byte_of_string statefile_section)
    (list_byte_of_string "gtid")
    (fmt_lu (domain g) ++ list_byte_of_string "-"
       ++ fmt_lu (server_id g) ++ list_byte_of_string "-"
       ++ fmt_lu (gtid_seq g) ++ list_byte_of_string ":"
       ++ fmt_lu (event_num g))
  = Done (1, with_gtid router g).
Proof.
  intros Hd Hs Hq Hn. unfold conv_state_handler.
  change (streq (list_byte_of_string statefile_section) statefile_section) with true.
  change (streq (list_byte_of_string "gtid") "gtid") with true.
  cbv iota.
  change (list_byte_of_string "-") with [Byte.x2d].
  change (list_byte_of_string ":") with [Byte.x3a].
  destruct (fmt_lu_digits (domain g)) as (Hd1 & Hd2 & _); [lia|].
  destruct (fmt_lu_digits (server_id g)) as (Hs1 & Hs2 & _); [lia|].
  destruct (fmt_lu_digits (gtid_seq g)) as (Hq1 & Hq2 & _); [lia|].
  destruct (fmt_lu_digits (event_num g)) as (Hn1 & Hn2 & _); [lia|].
  assert (Hnz : forall v, 0 <= v -> Forall (fun b => u8 b <> 0) (fmt_lu v)).
  { intros v Hv. destruct (fmt_lu_digits v Hv) as (_ & Hdig & _).
    eapply Forall_impl; [exact Hdig|]. intros b Hb. by apply digit_not_delimiter. }
  rewrite c_string_id.
  2: { rewrite !Forall_app. repeat split; try (apply Hnz; lia); by repeat constructor. }
  cbn [app].
  rewrite (strtok_r_token (fmt_lu (domain g))); [|done|done|done|done|].
  2: { rewrite !Forall_app. repeat split; try (apply Hnz; lia).
       all: rewrite Forall_cons; split; [done|]; try (apply Hnz; lia).
       rewrite Forall_app. split; [apply Hnz; lia|].
       rewrite Forall_cons. split; [done|apply Hnz; lia]. }
  cbn [mbind option_bind snd].
  rewrite (strtok_r_token (fmt_lu (server_id g))); [|done|done|done|done|].
  2: { rewrite Forall_app. split; [apply Hnz; lia|].
       rewrite Forall_cons. split; [done|apply Hnz; lia]. }
  cbn [mbind option_bind snd].
  rewrite (strtok_r_token (fmt_lu (gtid_seq g))); [|done|done|done|done|apply Hnz; lia].
  cbn [mbind option_bind snd].
  rewrite strtok_r_last by done.
  rewrite !strtol_number by done. cbn [fst].
  by destruct g.
Qed.

(** X29: the state that [avro_save_conversion_state] prints is read back
    by [conv_state_handler]: called for the three lines of the saved file,
    it returns 1 for each and leaves the position, the GTID and the name of
    the binlog file that were saved, as long as the numbers are at most
    [LONG_MAX] (what [strtol] gives) and the name fits the array.
    [binlog_position] is not part of the file and stays as it is. *)
Theorem conversion_state_is_read_back (saved router : AVRO_INSTANCE)
    (stop_on_error : bool) :
  0 <= current_pos saved <= LONG_MAX ->
  0 <= domain (gtid saved) <= LONG_MAX ->
  0 <= server_id (gtid saved) <= LONG_MAX ->
  0 <= gtid_seq (gtid saved) <= LONG_MAX ->
  0 <= event_num (gtid saved) <= LONG_MAX ->
  Forall (fun b => u8 b <> 0) (list_byte_of_string (binlog_name saved)) ->
  (String.length (binlog_name saved) <= 255)%nat ->
  exists router',
    handle_lines stop_on_error router (list_byte_of_string statefile_section)
                 (conversion_state_lines saved) = Done router'
    /\ current_pos router' = current_pos saved
    /\ gtid router' = gtid saved
    /\ binlog_name router' = binlog_name saved
    /\ binlog_position router' = binlog_position router.
Proof.
  intros Hpos Hd Hs Hq Hn Hname Hlen.
  unfold conversion_state_lines. cbn [handle_lines].
  rewrite handler_position by done. cbn [Z.eqb andb].
  rewrite handler_gtid by done. cbn [Z.eqb andb].
  rewrite handler_file by done. cbn [Z.eqb andb].
  eexists. split; [reflexivity|]. done.
Qed.

Lemma conversion_state_is_read_back_witness :
  exists router',
    handle_lines true MoreFixtures.router_blank
                 (list_byte_of_string statefile_section)
                 (conversion_state_lines Fixtures.router_d_t) = Done router'
    /\ current_pos router' = 4
    /\ gtid router' = mkGTID 0 1 1 1
    /\ binlog_name router' = "binlog.000001"%string.
Proof.
  destruct (conversion_state_is_read_back Fixtures.router_d_t
              MoreFixtures.router_blank true)
    as (router' & Hdone & Hpos & Hgtid & Hname & _).
  - vm_compute. split; discriminate.
  - vm_compute. split; discriminate.
  - vm_compute. split; discriminate.
  - vm_compute. split; discriminate.
  - vm_compute. split; discriminate.
  - repeat constructor; vm_compute; discriminate.
  - vm_compute. lia.
  - exists router'. split; [exact Hdone|]. split; [exact Hpos|].
    split; [exact Hgtid|exact Hname].
Defined.

End ConversionStateFacts.

